(** * The negative-compile test driver (tools/nocompile_driver.py)

    A shallow embedding of the driver: the directive grammar of the case
    extractor, the launcher's command line, the escalation loop of the
    scheduler, the result classifier and the report it writes, followed by
    the properties of the specification that concern them.  Two smaller
    files of the repository follow the driver: the choice of the ninja
    output directory (tools/vim/ninja_output.py) and the profiling
    controller of telemetry (core/platform/profiling_controller_backend.py),
    each with its own model and properties.

    Conventions of the model.
    - Python [str] values are [string]; a line read from a file keeps its
      terminating newline, as iteration over a file object yields it.
    - Timestamps ([time.time()]) are integers counting seconds; the driver
      only adds constants to them and compares them.
    - What the driver obtains from the Python library or from the operating
      system (the file system, the clock, child processes, [shlex.split],
      [ast.literal_eval], [re.compile] of a user pattern) is a field of an
      environment record [Env]; the theorems quantify over it.
    - Exceptions are values of [exn]; code that reads the clock, spawns
      processes or writes the report runs in a state-and-exception monad
      over a [World]. *)

From Stdlib Require Import String Ascii List ZArith Lia Bool Permutation.
From Stdlib Require PrimFloat SpecFloat FloatOps FloatAxioms.
Import ListNotations.
Open Scope string_scope.

Set Implicit Arguments.

(* ------------------------------------------------------------------ *)
(** * Python strings *)

Module Py.

Definition LF : ascii := "010"%char.

(** [c in string.whitespace]: what [\s] matches in a byte pattern. *)
Definition is_space (c : ascii) : bool :=
  let n := nat_of_ascii c in
  (n =? 32)%nat || ((9 <=? n)%nat && (n <=? 13)%nat).

Definition not_space (c : ascii) : bool := negb (is_space c).

(** What [.] matches without the DOTALL flag. *)
Definition not_newline (c : ascii) : bool := negb (Ascii.eqb c LF).

Definition is_lower (c : ascii) : bool :=
  let n := nat_of_ascii c in (97 <=? n)%nat && (n <=? 122)%nat.
Definition is_upper (c : ascii) : bool :=
  let n := nat_of_ascii c in (65 <=? n)%nat && (n <=? 90)%nat.
Definition upper (c : ascii) : ascii :=
  if is_lower c then ascii_of_nat (nat_of_ascii c - 32) else c.
Definition lower (c : ascii) : ascii :=
  if is_upper c then ascii_of_nat (nat_of_ascii c + 32) else c.

Fixpoint map_string (f : ascii -> ascii) (s : string) : string :=
  match s with
  | EmptyString => EmptyString
  | String c s' => String (f c) (map_string f s')
  end.

(** [s.capitalize()] *)
Definition capitalize (s : string) : string :=
  match s with
  | EmptyString => EmptyString
  | String c s' => String (upper c) (map_string lower s')
  end.

(** [s.startswith(p)] *)
Fixpoint startswith (s p : string) : bool :=
  match p, s with
  | EmptyString, _ => true
  | String a p', String b s' => Ascii.eqb a b && startswith s' p'
  | String _ _, EmptyString => false
  end.

(** [s.split(sep)] for a one-character separator. *)
Fixpoint split (sep : ascii) (s : string) : list string :=
  match s with
  | EmptyString => [EmptyString]
  | String c s' =>
      if Ascii.eqb c sep then EmptyString :: split sep s'
      else match split sep s' with
           | w :: ws => String c w :: ws
           | [] => [String c EmptyString]
           end
  end.

(** [sep.join(words)] *)
Fixpoint join (sep : string) (words : list string) : string :=
  match words with
  | [] => EmptyString
  | [w] => w
  | w :: ws => w ++ sep ++ join sep ws
  end.

(** The text after the last occurrence of [c] in [s], all of [s] when
    there is none: [s[s.rfind(c) + 1:]]. *)
Fixpoint after_last (c : ascii) (s : string) : string :=
  match s with
  | EmptyString => EmptyString
  | String d s' =>
      if existsb (Ascii.eqb c) (list_ascii_of_string s') then after_last c s'
      else if Ascii.eqb d c then s' else s
  end.

(** [os.path.basename(p)] *)
Definition basename (p : string) : string := after_last "/"%char p.

Fixpoint drop_while (p : ascii -> bool) (s : string) : string :=
  match s with
  | EmptyString => EmptyString
  | String c s' => if p c then drop_while p s' else s
  end.

(** [os.path.splitext(p)[0]] of a path without directory part: the
    extension starts at the last dot, unless only dots precede it. *)
Definition splitext_root (p : string) : string :=
  let body := drop_while (Ascii.eqb "."%char) p in
  let ext := after_last "."%char body in
  if existsb (Ascii.eqb "."%char) (list_ascii_of_string body)
  then substring 0 (String.length p - String.length ext - 1) p
  else p.

(** [os.path.join(a, b)] on POSIX. *)
Definition ends_with_slash (s : string) : bool :=
  match get (String.length s - 1) s with
  | Some c => Ascii.eqb c "/"%char
  | None => false
  end.

Definition path_join2 (a b : string) : string :=
  if startswith b "/" then b
  else if (String.length a =? 0)%nat || ends_with_slash a then a ++ b
  else a ++ "/" ++ b.

Definition path_join (a : string) (ps : list string) : string :=
  fold_left path_join2 ps a.

End Py.

(* ------------------------------------------------------------------ *)
(** * A backtracking matcher for the driver's three patterns

    The patterns of the driver are built from literals, character classes
    under a greedy star or plus, optional groups and capturing groups.  The
    matcher is the usual backtracking one in continuation-passing style:
    greedy operators try the longest alternative first and give characters
    back when the rest of the pattern fails. *)

Module Re.

Inductive regex : Type :=
| Bol                              (* ^ *)
| Lit (s : string)                 (* literal text *)
| Star (p : ascii -> bool)         (* C* for a character class C *)
| Plus (p : ascii -> bool)         (* C+ *)
| Opt (r : regex)                  (* (?: r )? *)
| Seq (r1 r2 : regex)
| Group (n : nat) (r : regex)      (* the n-th capturing group *)
| Eps.

Definition seq_of (rs : list regex) : regex := fold_right Seq Eps rs.

(** Captured groups, most recent binding first. *)
Definition groups := list (nat * string).

Fixpoint group (n : nat) (g : groups) : option string :=
  match g with
  | [] => None
  | (m, s) :: g' => if (m =? n)%nat then Some s else group n g'
  end.

(** [strip_prefix l s]: the rest of [s] after the literal [l]. *)
Fixpoint strip_prefix (l s : string) : option string :=
  match l, s with
  | EmptyString, _ => Some s
  | String a l', String b s' =>
      if Ascii.eqb a b then strip_prefix l' s' else None
  | String _ _, EmptyString => None
  end.

(** Greedy [C*]: consume while the class matches, then back off one
    character at a time until the continuation accepts. *)
Fixpoint star (p : ascii -> bool) (s : string)
         (k : string -> option groups) : option groups :=
  match s with
  | String c s' =>
      if p c then
        match star p s' k with
        | Some g => Some g
        | None => k s
        end
      else k s
  | EmptyString => k s
  end.

(** The text of [s] consumed to reach its suffix [rest]. *)
Definition consumed (s rest : string) : string :=
  substring 0 (String.length s - String.length rest) s.

Section Engine.
Variable subject : string.

Fixpoint run (r : regex) (s : string) (g : groups)
         (k : string -> groups -> option groups) : option groups :=
  match r with
  | Eps => k s g
  | Bol => if (String.length s =? String.length subject)%nat then k s g else None
  | Lit l =>
      match strip_prefix l s with
      | Some s' => k s' g
      | None => None
      end
  | Star p => star p s (fun s' => k s' g)
  | Plus p =>
      match s with
      | String c s' =>
          if p c then star p s' (fun s'' => k s'' g) else None
      | EmptyString => None
      end
  | Opt r' =>
      match run r' s g k with
      | Some g' => Some g'
      | None => k s g
      end
  | Seq r1 r2 => run r1 s g (fun s' g' => run r2 s' g' k)
  | Group n r' =>
      run r' s g (fun s' g' => k s' ((n, consumed s s') :: g'))
  end.
End Engine.

(** [pattern.match(s)]: the groups of a match anchored at the start. *)
Definition match_ (r : regex) (s : string) : option groups :=
  run s r s [] (fun _ g => Some g).

End Re.

(** The directive pattern, written with blanks between its parts:
    [^ # (?:el)? if .* \s+ ( \S* NCTEST \S* ) \s* ( // .* )?] *)
Definition NCTEST_CONFIG_RE : Re.regex :=
  Re.seq_of
    [ Re.Bol; Re.Lit "#"; Re.Opt (Re.Lit "el"); Re.Lit "if";
      Re.Star Py.not_newline; Re.Plus Py.is_space;
      Re.Group 1 (Re.seq_of [Re.Star Py.not_space; Re.Lit "NCTEST";
                             Re.Star Py.not_space]);
      Re.Star Py.is_space;
      Re.Opt (Re.Group 2 (Re.seq_of [Re.Lit "//"; Re.Star Py.not_newline])) ].

(** The pattern [defined \( ( .* ) \)], blanks between its parts. *)
Definition STRIP_DEFINED_RE : Re.regex :=
  Re.seq_of
    [ Re.Lit "defined("; Re.Group 1 (Re.Star Py.not_newline); Re.Lit ")" ].

(** The pattern [// \s* ( \[ .* \] )], blanks between its parts. *)
Definition EXTRACT_EXPECTATION_RE : Re.regex :=
  Re.seq_of
    [ Re.Lit "//"; Re.Star Py.is_space;
      Re.Group 1 (Re.seq_of [Re.Lit "["; Re.Star Py.not_newline;
                             Re.Lit "]"]) ].

(* ------------------------------------------------------------------ *)
(** * Exceptions, library values and the environment *)

Inductive exn : Type :=
| AssertionError
| IOError                (* a file that cannot be opened *)
| OSError                (* a child process that cannot be spawned *)
| ValueError             (* [int()] or [shlex.split] on malformed text *)
| MalformedLiteral       (* what [ast.literal_eval] raises *)
| PatternError           (* [re.error] *)
| KeyError
| IndexError
| SystemExit (code : Z).

(** The result of code that may raise but touches no state. *)
Inductive pyres (A : Type) : Type :=
| Return (a : A)
| Throw (e : exn).
Arguments Return {A} a.
Arguments Throw {A} e.

Definition pybind {A B} (m : pyres A) (k : A -> pyres B) : pyres B :=
  match m with
  | Return a => k a
  | Throw e => Throw e
  end.

Definition of_option {A} (e : exn) (o : option A) : pyres A :=
  match o with
  | Some a => Return a
  | None => Throw e
  end.

(** A compiled pattern object: its source text and its [search] method. *)
Record Pattern : Type := { pattern : string; search : string -> bool }.

(** The values [ast.literal_eval] can return, as far as the driver tells
    them apart. *)
Inductive PyItem : Type :=
| PyStr (s : string)
| PyOtherItem.

Inductive PyValue : Type :=
| PyList (items : list PyItem)
| PyOther.

Record Env : Type := {
  (** [open(path, 'r')] and the lines of the file, [None] when it cannot
      be opened *)
  files : string -> option (list string);
  (** whether [open(path, 'w')] succeeds *)
  writable : string -> bool;
  literal_eval : string -> option PyValue;
  re_compile : string -> option Pattern;
  shlex_split : string -> option (list string);
  py_int : string -> option Z;
  (** [os.path.dirname(os.path.realpath(__file__))] *)
  script_dir : string;
  (** the value of the n-th reading of [time.time()] *)
  clock : nat -> Z;
  (** whether [subprocess.Popen] can start the command *)
  popen_ok : list string -> bool;
  (** [poll n p]: what [poll()] of the live child [p] answers once the
      clock has been read [n] times, [None] while it is running *)
  poll : nat -> nat -> option Z;
  (** [communicate p]: the captured stdout and stderr of the child [p] and
      the exit status it is reaped with *)
  communicate : nat -> string * string * Z
}.

(* ------------------------------------------------------------------ *)
(** * Timeout constants *)

Definition NCTEST_TERMINATE_TIMEOUT_SEC : Z := 60%Z.
Definition NCTEST_KILL_TIMEOUT_SEC : Z := (NCTEST_TERMINATE_TIMEOUT_SEC + 2)%Z.
Definition BUSY_LOOP_MAX_TIME_SEC : Z := (NCTEST_KILL_TIMEOUT_SEC * 2)%Z.

(* ------------------------------------------------------------------ *)
(** * Case descriptors and the case extractor *)

(** A test configuration.  [expectations] is [None] for the compiler
    sanity check, [Some []] when any failing output is accepted. *)
Record Config : Type := {
  name : string;
  suite_name : string;
  expectations : option (list Pattern)
}.

Section Extractor.
Variable env : Env.

(** The loop of [ParseExpectation] over the evaluated list. *)
Fixpoint compile_expectations (raw_expectation : list PyItem)
         (expectation : list Pattern) : pyres (list Pattern) :=
  match raw_expectation with
  | [] => Return expectation
  | PyStr regex_str :: rest =>
      pybind (of_option PatternError (re_compile env regex_str))
             (fun p => compile_expectations rest (expectation ++ [p]))
  | _ :: _ => Throw AssertionError
  end.

Definition ParseExpectation (expectation_string : option string)
  : pyres (list Pattern) :=
  match expectation_string with
  | None => Throw AssertionError
  | Some s =>
      match Re.match_ EXTRACT_EXPECTATION_RE s with
      | None => Throw AssertionError
      | Some m =>
          (* group 1 is not optional: it took part in every match *)
          pybind (of_option MalformedLiteral (Re.group 1 m)) (fun text =>
          pybind (of_option MalformedLiteral (literal_eval env text))
                 (fun raw_expectation =>
          match raw_expectation with
          | PyList items => compile_expectations items []
          | _ => Throw AssertionError
          end))
      end
  end.

(** [NCTEST_CONFIG_RE.match(line).groups()] *)
Definition directive (line : string) : option (string * option string) :=
  match Re.match_ NCTEST_CONFIG_RE line with
  | None => None
  | Some m =>
      match Re.group 1 m with
      | Some n => Some (n, Re.group 2 m)
      | None => None
      end
  end.

(** The name with the [defined()] predicate removed, if there is one. *)
Definition strip_defined (name : string) : string :=
  match Re.match_ STRIP_DEFINED_RE name with
  | Some m =>
      match Re.group 1 m with
      | Some inner => inner
      | None => name
      end
  | None => name
  end.

Definition suite_name_of (sourcefile_path : string) : string :=
  let words :=
    Py.split "_"%char (Py.splitext_root (Py.basename sourcefile_path)) in
  let words := map Py.capitalize words in
  "NoCompile" ++ Py.join "" words.

Definition sanity_config (suite : string) : Config :=
  {| name := "NCTEST_SANITY"; suite_name := suite; expectations := None |}.

(** The loop over the lines of the source file. *)
Fixpoint scan_lines (suite : string) (sourcefile : list string)
         (test_configs : list Config) : pyres (list Config) :=
  match sourcefile with
  | [] => Return test_configs
  | line :: rest =>
      match directive line with
      | None => scan_lines suite rest test_configs
      | Some (n, comment) =>
          pybind (ParseExpectation comment) (fun exps =>
          scan_lines suite rest
            (test_configs ++
             [{| name := strip_defined n; suite_name := suite;
                 expectations := Some exps |}]))
      end
  end.

Definition ExtractTestConfigs (sourcefile_path : string)
  : pyres (list Config) :=
  pybind (of_option IOError (files env sourcefile_path)) (fun sourcefile =>
  let suite := suite_name_of sourcefile_path in
  scan_lines suite sourcefile [sanity_config suite]).

End Extractor.

(* ------------------------------------------------------------------ *)
(** * The world: clock, child processes and the result file *)

(** A child process object: [returncode] is set once [poll()] has seen
    the child exited. *)
Record Popen : Type := { pid : nat; returncode : option Z }.

(** The dictionary [StartTest] returns. *)
Record Test : Type := {
  proc : Popen;
  cmdline : string;
  test_name : string;
  test_suite_name : string;
  terminate_timeout : Z;
  kill_timeout : Z;
  started_at : Z;
  aborted_at : Z;
  finished_at : Z;
  test_expectations : option (list Pattern)
}.

Definition set_finished (now rc : Z) (t : Test) : Test :=
  {| proc := {| pid := pid (proc t); returncode := Some rc |};
     cmdline := cmdline t; test_name := test_name t;
     test_suite_name := test_suite_name t;
     terminate_timeout := terminate_timeout t;
     kill_timeout := kill_timeout t; started_at := started_at t;
     aborted_at := aborted_at t; finished_at := now;
     test_expectations := test_expectations t |}.

Definition set_aborted (now : Z) (t : Test) : Test :=
  {| proc := proc t; cmdline := cmdline t; test_name := test_name t;
     test_suite_name := test_suite_name t;
     terminate_timeout := terminate_timeout t;
     kill_timeout := kill_timeout t; started_at := started_at t;
     aborted_at := now; finished_at := finished_at t;
     test_expectations := test_expectations t |}.

(** Why a test failed: the [error] text [FailTest] is given. *)
Inductive Reason : Type :=
| TimedOut (started aborted : Z)      (* Compile timed out. Started .. ended .. *)
| SanityFailed                        (* Sanity compile failed. Is compiler borked? *)
| UnexpectedSuccess                   (* Unexpected successful compilation. *)
| ExpectationsNotMatched (expectation_str : string).
                                      (* Expectations [..] did not match output. *)

(** What one call of the report functions writes to the result file. *)
Inductive Entry : Type :=
| HeaderEntry (sourcefile_path : string)               (* RESULT_FILE_HEADER *)
| SuccessEntry (suite case : string) (took started ended : Z)
                                                       (* SUCCESS_GUNIT_TEMPLATE *)
| DisabledEntry (suite case : string)                  (* DISABLED_GUNIT_TEMPLATE *)
| FailEntry (case : string) (error : Reason) (compile_line : string)
            (stdout stderr : option string)            (* the #error block *)
| StatsEntry (suite : string)
             (started ended total extract compile process : Z).

Inductive Signal : Type := SIGTERM | SIGKILL.

(** A signal sent to a child: which, to whom, and the [now] of the pass. *)
Record Sent : Type := { sent_signal : Signal; sent_to : nat; sent_at : Z }.

Record World : Type := {
  ticks : nat;                 (* readings of the clock so far *)
  spawned : nat;               (* children started so far *)
  resultfile : list Entry;     (* the result file, in write order *)
  signals : list Sent;         (* signals sent, in order *)
  LC_ALL : option string;      (* os.environ['LC_ALL'] *)
  printed : list string        (* lines printed on stdout *)
}.

Definition initial_world : World :=
  {| ticks := 0; spawned := 0; resultfile := []; signals := [];
     LC_ALL := None; printed := [] |}.

Inductive outcome (A : Type) : Type :=
| Ok (a : A) (w : World)
| Raise (e : exn) (w : World)
| OutOfFuel (w : World).
Arguments Ok {A} a w.
Arguments Raise {A} e w.
Arguments OutOfFuel {A} w.

Definition final_world {A} (o : outcome A) : World :=
  match o with
  | Ok _ w => w
  | Raise _ w => w
  | OutOfFuel w => w
  end.

Definition M (A : Type) : Type := World -> outcome A.

Definition ret {A} (a : A) : M A := fun w => Ok a w.

Definition bind {A B} (m : M A) (k : A -> M B) : M B :=
  fun w =>
    match m w with
    | Ok a w' => k a w'
    | Raise e w' => Raise e w'
    | OutOfFuel w' => OutOfFuel w'
    end.

Definition raise {A} (e : exn) : M A := fun w => Raise e w.

Definition out_of_fuel {A} : M A := fun w => OutOfFuel w.

Definition lift {A} (r : pyres A) : M A :=
  match r with
  | Return a => ret a
  | Throw e => raise e
  end.

Definition assert_ (b : bool) : M unit :=
  if b then ret tt else raise AssertionError.

Declare Scope py_scope.
Delimit Scope py_scope with py.
Notation "x <- c1 ;; c2" := (bind c1 (fun x => c2))
  (at level 61, c1 at next level, right associativity) : py_scope.
Notation "' pat <- c1 ;; c2" :=
  (bind c1 (fun x => match x with pat => c2 end))
  (at level 61, pat pattern, c1 at next level, right associativity) : py_scope.
Notation "c1 ;; c2" := (bind c1 (fun _ => c2))
  (at level 61, right associativity) : py_scope.
Open Scope py_scope.

Definition write (e : Entry) : M unit :=
  fun w =>
    Ok tt {| ticks := ticks w; spawned := spawned w;
             resultfile := resultfile w ++ [e]; signals := signals w;
             LC_ALL := LC_ALL w; printed := printed w |}.

Definition send_signal (s : Signal) (p : Popen) (now : Z) : M unit :=
  fun w =>
    Ok tt {| ticks := ticks w; spawned := spawned w;
             resultfile := resultfile w;
             signals := signals w ++
                        [{| sent_signal := s; sent_to := pid p;
                            sent_at := now |}];
             LC_ALL := LC_ALL w; printed := printed w |}.

Definition set_LC_ALL (v : string) : M unit :=
  fun w =>
    Ok tt {| ticks := ticks w; spawned := spawned w;
             resultfile := resultfile w; signals := signals w;
             LC_ALL := Some v; printed := printed w |}.

Definition print (line : string) : M unit :=
  fun w =>
    Ok tt {| ticks := ticks w; spawned := spawned w;
             resultfile := resultfile w; signals := signals w;
             LC_ALL := LC_ALL w; printed := printed w ++ [line] |}.

Section Driver.
Variable env : Env.

(** [time.time()] *)
Definition time_time : M Z :=
  fun w =>
    Ok (clock env (ticks w))
       {| ticks := S (ticks w); spawned := spawned w;
          resultfile := resultfile w; signals := signals w;
          LC_ALL := LC_ALL w; printed := printed w |}.

(** [subprocess.Popen(cmdline, stdout=PIPE, stderr=PIPE)] *)
Definition popen (argv : list string) : M Popen :=
  fun w =>
    if popen_ok env argv then
      Ok {| pid := spawned w; returncode := None |}
         {| ticks := ticks w; spawned := S (spawned w);
            resultfile := resultfile w; signals := signals w;
            LC_ALL := LC_ALL w; printed := printed w |}
    else Raise OSError w.

(** What [proc.poll()] answers in the world [w]: the status already
    seen, else what the operating system reports now. *)
Definition poll_status (w : World) (p : Popen) : option Z :=
  match returncode p with
  | Some rc => Some rc
  | None => poll env (ticks w) (pid p)
  end.

(** [proc.poll()] *)
Definition proc_poll (p : Popen) : M (option Z) :=
  fun w => Ok (poll_status w p) w.

(** [open(resultfile_path, 'w')]: the file is created empty. *)
Definition open_resultfile (resultfile_path : string) : M unit :=
  fun w =>
    if writable env resultfile_path then
      Ok tt {| ticks := ticks w; spawned := spawned w; resultfile := [];
               signals := signals w; LC_ALL := LC_ALL w;
               printed := printed w |}
    else Raise IOError w.

(* ---------------------------------------------------------------- *)
(** ** The invocation launcher *)

Definition compiler_path : string :=
  Py.path_join (script_dir env)
    ["../third_party/llvm-build/Release+Asserts/bin"; "clang++"].

(** The argument vector [StartTest] builds. *)
Definition command_line (sourcefile_path cflags : string)
           (config : Config) : pyres (list string) :=
  let cmdline := [compiler_path] in
  pybind (of_option ValueError (shlex_split env cflags)) (fun flags =>
  let cmdline := (cmdline ++ flags)%list in
  let cmdline :=
    match expectations config with
    | Some _ => (cmdline ++ [("-D" ++ name config)%string])%list
    | None => cmdline
    end in
  Return (cmdline ++ ["-std=c++11"; "-o"; "/dev/null"; "-c"; "-x"; "c++";
                      sourcefile_path])%list).

Definition StartTest (sourcefile_path cflags : string) (config : Config)
  : M Test :=
  cmdline <- lift (command_line sourcefile_path cflags config) ;;
  process <- popen cmdline ;;
  now <- time_time ;;
  ret {| proc := process;
         cmdline := Py.join " " cmdline;
         test_name := name config;
         test_suite_name := suite_name config;
         terminate_timeout := (now + NCTEST_TERMINATE_TIMEOUT_SEC)%Z;
         kill_timeout := (now + NCTEST_KILL_TIMEOUT_SEC)%Z;
         started_at := now;
         aborted_at := 0;
         finished_at := 0;
         test_expectations := expectations config |}.

(* ---------------------------------------------------------------- *)
(** ** The report writer *)

(** What [PassTest] is given: a started test or a bare configuration
    (the dictionary has a ['started_at'] key or not). *)
Inductive Logged : Type :=
| Started (t : Test)
| NotStarted (c : Config).

Definition PassTest (test : Logged) : M unit :=
  match test with
  | Started t =>
      write (SuccessEntry (test_suite_name t) (test_name t)
               (finished_at t - started_at t)%Z (started_at t)
               (finished_at t))
  | NotStarted c => write (DisabledEntry (suite_name c) (name c))
  end.

Definition FailTest (test : Test) (error : Reason)
           (stdout stderr : option string) : M unit :=
  write (FailEntry (test_name test) error (cmdline test) stdout stderr).

Definition WriteStats (suite : string)
           (started extract_done compile_done results_processed : Z)
  : M unit :=
  let total_secs := (results_processed - started)%Z in
  let extract_secs := (extract_done - started)%Z in
  let compile_secs := (compile_done - extract_done)%Z in
  let process_secs := (results_processed - compile_done)%Z in
  write (StatsEntry suite started results_processed total_secs
           extract_secs compile_secs process_secs).

(* ---------------------------------------------------------------- *)
(** ** The result classifier *)

(** The exit status [proc.poll()] answers after [communicate()]. *)
Definition exit_status (test : Test) : Z :=
  match returncode (proc test) with
  | Some rc => rc
  | None => snd (communicate env (pid (proc test)))
  end.

Definition captured_stdout (test : Test) : string :=
  fst (fst (communicate env (pid (proc test)))).
Definition captured_stderr (test : Test) : string :=
  snd (fst (communicate env (pid (proc test)))).

Definition expectation_str (exps : list Pattern) : string :=
  Py.join ", " (map (fun regexp => "r'" ++ pattern regexp ++ "'") exps).

Definition ProcessTestResult (test : Test) : M unit :=
  let stdout := captured_stdout test in
  let stderr := captured_stderr test in
  if negb (aborted_at test =? 0)%Z then
    FailTest test (TimedOut (started_at test) (aborted_at test)) None None
  else
    match test_expectations test with
    | None =>
        if (exit_status test =? 0)%Z then PassTest (Started test)
        else FailTest test SanityFailed (Some stdout) (Some stderr)
    | Some exps =>
        if (exit_status test =? 0)%Z then
          FailTest test UnexpectedSuccess (Some stdout) (Some stderr)
        else if (List.length exps =? 0)%nat then PassTest (Started test)
        else if existsb (fun regexp =>
                           search regexp stdout || search regexp stderr)
                        exps
             then PassTest (Started test)
        else FailTest test (ExpectationsNotMatched (expectation_str exps))
                      (Some stdout) (Some stderr)
    end.

(* ---------------------------------------------------------------- *)
(** ** The concurrency scheduler *)

(** [executing_tests]: the dictionary from test name to test, as the
    list of its items in insertion order.  The interpreter iterates a
    dictionary in an order of its own; another order permutes the tests a
    pass finishes and the signals it sends, and nothing else. *)
Definition Executing : Type := list (string * Test).

(** [key in d] *)
Definition dict_has (key : string) (d : Executing) : bool :=
  existsb (fun item => String.eqb (fst item) key) d.

(** [d[key] = test] *)
Fixpoint dict_set (key : string) (test : Test) (d : Executing)
  : Executing :=
  match d with
  | [] => [(key, test)]
  | (k, v) :: d' =>
      if String.eqb k key then (key, test) :: d'
      else (k, v) :: dict_set key test d'
  end.

(** [del d[key]], [None] for a [KeyError]. *)
Fixpoint dict_del (key : string) (d : Executing) : option Executing :=
  match d with
  | [] => None
  | (k, v) :: d' =>
      if String.eqb k key then Some d'
      else option_map (cons (k, v)) (dict_del key d')
  end.

(** The body of the loop over [executing_tests.values()] for one test:
    the test as the body leaves it, and whether it was appended to
    [finished_tests]. *)
Definition check_test (now : Z) (test : Test) : M (Test * bool) :=
  status <- proc_poll (proc test) ;;
  match status with
  | Some rc => ret (set_finished now rc test, true)
  | None =>
      if (terminate_timeout test <? now)%Z then
        send_signal SIGTERM (proc test) now ;;
        ret (set_aborted now test, false)
      else if (kill_timeout test <? now)%Z then
        send_signal SIGKILL (proc test) now ;;
        ret (set_aborted now test, false)
      else ret (test, false)
  end.

(** One pass over all executing tests. *)
Fixpoint check_tests (now : Z) (executing_tests : Executing)
         (finished_tests : list Test) : M (Executing * list Test) :=
  match executing_tests with
  | [] => ret ([], finished_tests)
  | (key, test) :: rest =>
      ' (test', done) <- check_test now test ;;
      let finished_tests :=
        if done then (finished_tests ++ [test'])%list
        else finished_tests in
      ' (rest', finished_tests) <- check_tests now rest finished_tests ;;
      ret ((key, test') :: rest', finished_tests)
  end.

(** The poll loop of [CompleteAtLeastOneTest]; [fuel] bounds the number
    of passes.  [select.select] only waits: what it waits for shows in
    the next readings of the clock and of [poll()]. *)
Fixpoint poll_loop (fuel : nat) (busy_loop_timeout : Z)
         (executing_tests : Executing) (finished_tests : list Test)
  : M (Executing * list Test) :=
  if (List.length finished_tests =? 0)%nat then
    match fuel with
    | O => out_of_fuel
    | S fuel' =>
        t <- time_time ;;
        assert_ (busy_loop_timeout >? t)%Z ;;
        now <- time_time ;;
        ' (executing_tests, finished_tests) <-
          check_tests now executing_tests finished_tests ;;
        poll_loop fuel' busy_loop_timeout executing_tests finished_tests
    end
  else ret (executing_tests, finished_tests).

(** [for test in finished_tests: del executing_tests[test['name']]] *)
Fixpoint del_finished (finished_tests : list Test)
         (executing_tests : Executing) : M Executing :=
  match finished_tests with
  | [] => ret executing_tests
  | test :: rest =>
      match dict_del (test_name test) executing_tests with
      | Some d => del_finished rest d
      | None => raise KeyError
      end
  end.

(** The dictionary as the call leaves it, and the list it returns. *)
Definition CompleteAtLeastOneTest (fuel : nat)
           (executing_tests : Executing) : M (Executing * list Test) :=
  t <- time_time ;;
  let busy_loop_timeout := (t + BUSY_LOOP_MAX_TIME_SEC)%Z in
  ' (executing_tests, finished_tests) <-
    poll_loop fuel busy_loop_timeout executing_tests [] ;;
  executing_tests <- del_finished finished_tests executing_tests ;;
  ret (executing_tests, finished_tests).

(* ---------------------------------------------------------------- *)
(** ** The main program *)

Definition ValidateInput (parallelism : Z) : M unit :=
  assert_ (parallelism >=? 1)%Z.

(** The body of the loop over [test_configs] for one configuration. *)
Definition schedule (fuel : nat) (parallelism : Z)
           (sourcefile_path cflags : string) (config : Config)
           (executing_tests : Executing) (finished_tests : list Test)
  : M (Executing * list Test) :=
  ' (executing_tests, finished_tests) <-
    (if (Z.of_nat (List.length executing_tests) >=? parallelism)%Z then
       ' (executing_tests, done) <-
         CompleteAtLeastOneTest fuel executing_tests ;;
       ret (executing_tests, (finished_tests ++ done)%list)
     else ret (executing_tests, finished_tests)) ;;
  if Py.startswith (name config) "DISABLED_" then
    PassTest (NotStarted config) ;;
    ret (executing_tests, finished_tests)
  else
    test <- StartTest sourcefile_path cflags config ;;
    assert_ (negb (dict_has (test_name test) executing_tests)) ;;
    ret (dict_set (test_name test) test executing_tests, finished_tests).

Fixpoint schedule_all (fuel : nat) (parallelism : Z)
         (sourcefile_path cflags : string) (test_configs : list Config)
         (executing_tests : Executing) (finished_tests : list Test)
  : M (Executing * list Test) :=
  match test_configs with
  | [] => ret (executing_tests, finished_tests)
  | config :: rest =>
      ' (executing_tests, finished_tests) <-
        schedule fuel parallelism sourcefile_path cflags config
                 executing_tests finished_tests ;;
      schedule_all fuel parallelism sourcefile_path cflags rest
                   executing_tests finished_tests
  end.

(** [while len(executing_tests) > 0: ...]; [rounds] bounds the number of
    iterations. *)
Fixpoint drain (rounds fuel : nat) (executing_tests : Executing)
         (finished_tests : list Test) : M (list Test) :=
  if (0 <? List.length executing_tests)%nat then
    match rounds with
    | O => out_of_fuel
    | S rounds' =>
        ' (executing_tests, done) <-
          CompleteAtLeastOneTest fuel executing_tests ;;
        drain rounds' fuel executing_tests (finished_tests ++ done)%list
    end
  else ret finished_tests.

(** From the empty [executing_tests] to the complete [finished_tests]. *)
Definition run_tests (fuel : nat) (parallelism : Z)
           (sourcefile_path cflags : string) (test_configs : list Config)
  : M (list Test) :=
  ' (executing_tests, finished_tests) <-
    schedule_all fuel parallelism sourcefile_path cflags test_configs
                 [] [] ;;
  drain fuel fuel executing_tests finished_tests.

Fixpoint process_results (finished_tests : list Test) : M unit :=
  match finished_tests with
  | [] => ret tt
  | test :: rest => ProcessTestResult test ;; process_results rest
  end.

(** [finished_tests[0]] *)
Definition first_test (finished_tests : list Test) : M Test :=
  match finished_tests with
  | test :: _ => ret test
  | [] => raise IndexError
  end.

Definition usage (prog : string) : string :=
  "Usage: " ++ prog ++ " <parallelism> <sourcefile> <cflags> <resultfile>".

Definition main (fuel : nat) (argv : list string) : M unit :=
  match argv with
  | [prog; arg1; sourcefile_path; cflags; resultfile_path] =>
      set_LC_ALL "C" ;;
      parallelism <- lift (of_option ValueError (py_int env arg1)) ;;
      started <- time_time ;;
      ValidateInput parallelism ;;
      test_configs <- lift (ExtractTestConfigs env sourcefile_path) ;;
      extract_done <- time_time ;;
      open_resultfile resultfile_path ;;
      write (HeaderEntry sourcefile_path) ;;
      header_written <- time_time ;;
      finished_tests <-
        run_tests fuel parallelism sourcefile_path cflags test_configs ;;
      compile_done <- time_time ;;
      process_results finished_tests ;;
      results_processed <- time_time ;;
      first <- first_test finished_tests ;;
      WriteStats (test_suite_name first) started extract_done
                 compile_done results_processed
  | _ =>
      print (usage (nth 0 argv "")) ;;
      raise (SystemExit 1)
  end.

End Driver.

(* ------------------------------------------------------------------ *)
(** * Vocabulary of the properties *)

(** The directive lines of a source file, in line order, each as the
    groups of its match. *)
Definition directives (sourcefile : list string)
  : list (string * option string) :=
  flat_map (fun line =>
              match directive line with
              | Some d => [d]
              | None => []
              end) sourcefile.

(** The descriptor [c] is the one extracted from the directive [d]. *)
Definition described_by (env : Env) (suite : string)
           (d : string * option string) (c : Config) : Prop :=
  name c = strip_defined (fst d) /\
  suite_name c = suite /\
  exists exps,
    ParseExpectation env (snd d) = Return exps /\
    expectations c = Some exps.

(** The [-D<name>] argument of a configuration, if it gets one. *)
Definition define_flag (config : Config) : list string :=
  match expectations config with
  | Some _ => [("-D" ++ name config)%string]
  | None => []
  end.

(** A pattern of the list is found in one of the two captured streams. *)
Definition some_pattern_matches (exps : list Pattern) (stdout stderr : string)
  : Prop :=
  exists regexp,
    In regexp exps /\
    (search regexp stdout = true \/ search regexp stderr = true).

(** Pass, Fail and Skipped entries of a report. *)
Definition is_verdict (e : Entry) : bool :=
  match e with
  | SuccessEntry _ _ _ _ _ => true
  | DisabledEntry _ _ => true
  | FailEntry _ _ _ _ _ => true
  | HeaderEntry _ => false
  | StatsEntry _ _ _ _ _ _ _ => false
  end.

Definition count_verdicts (report : list Entry) : nat :=
  List.length (filter is_verdict report).

Definition is_kill (s : Sent) : bool :=
  match sent_signal s with
  | SIGKILL => true
  | SIGTERM => false
  end.

(** The keys of [executing_tests]. *)
Definition keys (d : Executing) : list string := map fst d.

(** A case the scheduler skips. *)
Definition disabled (config : Config) : bool :=
  Py.startswith (name config) "DISABLED_".

Definition enabled (config : Config) : bool := negb (disabled config).

(** The signals sent between the world [w] and the later world [w']. *)
Definition sent_during (w w' : World) : list Sent :=
  skipn (List.length (signals w)) (signals w').

(** A computation that sends no signal. *)
Definition silent {A} (m : M A) : Prop :=
  forall w, signals (final_world (m w)) = signals w.

(** A computation that never ends in an [IndexError]. *)
Definition no_index_error {A} (m : M A) : Prop :=
  forall w w', m w <> Raise IndexError w'.

(** No hard kill has been sent. *)
Definition calm (w : World) : Prop :=
  Forall (fun s => sent_signal s <> SIGKILL) (signals w).

(** The terminate deadline of a test does not exceed its kill deadline. *)
Definition ordered (t : Test) : Prop :=
  (terminate_timeout t <= kill_timeout t)%Z.

Definition all_ordered (d : Executing) : Prop :=
  Forall (fun item => ordered (snd item)) d.

(** Postconditions of a computation: [Q] on a normal result, [E] on the
    world an exception or the exhaustion of fuel leaves. *)
Definition satisfies {A} (m : M A) (w : World)
           (Q : A -> World -> Prop) (E : World -> Prop) : Prop :=
  match m w with
  | Ok a w' => Q a w'
  | Raise _ w' => E w'
  | OutOfFuel w' => E w'
  end.

(* ------------------------------------------------------------------ *)
(** * Concrete runs

    An environment for closed examples: patterns without metacharacters
    (searching is a substring test), flags without quotes (splitting at
    blanks), the few list literals the example files use, and a clock and
    children given by tables. *)

Module Demo.

Definition nl : string := String Py.LF "".

Fixpoint contains (needle text : string) : bool :=
  Py.startswith text needle ||
  match text with
  | String _ text' => contains needle text'
  | EmptyString => false
  end.

Definition literal_pattern (s : string) : Pattern :=
  {| pattern := s; search := contains s |}.

Definition split_blanks (s : string) : list string :=
  filter (fun w => negb (String.eqb w "")) (Py.split " "%char s).

Definition eval_literal (text : string) : option PyValue :=
  if String.eqb text "[]" then Some (PyList [])
  else if String.eqb text "[r'undefined reference']"
  then Some (PyList [PyStr "undefined reference"])
  else if String.eqb text "[r'no matching function']"
  then Some (PyList [PyStr "no matching function"])
  else None.

Fixpoint digits (s : string) (acc : Z) : option Z :=
  match s with
  | EmptyString => Some acc
  | String c s' =>
      let n := nat_of_ascii c in
      if (48 <=? n)%nat && (n <=? 57)%nat
      then digits s' (acc * 10 + Z.of_nat (n - 48))%Z
      else None
  end.

Definition parse_int (s : string) : option Z :=
  match s with
  | EmptyString => None
  | _ => digits s 0%Z
  end.

(** One source file and the behaviour of the clock and the children. *)
Record Scenario : Type := {
  path : string;
  source : list string;
  times : list Z;                       (* successive clock readings *)
  exits : nat -> nat -> option Z;       (* as [poll] of [Env] *)
  outputs : nat -> string * string * Z  (* as [communicate] of [Env] *)
}.

Definition env_of (sc : Scenario) : Env :=
  {| files := fun p => if String.eqb p (path sc) then Some (source sc)
                       else None;
     writable := fun _ => true;
     literal_eval := eval_literal;
     re_compile := fun s => Some (literal_pattern s);
     shlex_split := fun s => Some (split_blanks s);
     py_int := parse_int;
     script_dir := "/src/tools";
     clock := fun n => nth n (times sc) (last (times sc) 0%Z);
     popen_ok := fun _ => true;
     poll := exits sc;
     communicate := outputs sc |}.

Definition run (sc : Scenario) (parallelism : string) : outcome unit :=
  main (env_of sc) 100 ["nocompile_driver.py"; parallelism; path sc;
                         "-Wall  -I.";  "out.cc"] initial_world.

(** A sanity case, a case that fails to compile as expected, and a
    disabled case; every child has exited when first polled. *)
Definition passing : Scenario :=
  {| path := "base/bind_unittest.nc";
     source :=
       [ "// Copyright" ++ nl;
         "#if defined(NCTEST_FOO)  // [r'no matching function']" ++ nl;
         "#elif defined(DISABLED_NCTEST_BAR)  // []" ++ nl;
         "#endif" ++ nl ];
     times := [10; 11; 12; 13; 14; 15; 16; 17; 18; 19; 20; 21; 22]%Z;
     exits := fun _ p => if (p =? 0)%nat then Some 0%Z else Some 1%Z;
     outputs := fun p =>
       if (p =? 0)%nat then ("", "", 0%Z)
       else ("", "x.cc:3: error: no matching function for call", 1%Z) |}.

(** A case whose compiler prints the expected error and then hangs: it
    is still running at the passes of time 62 and 64 and is reaped with
    status -15 at the pass of time 65. *)
Definition hanging : Scenario :=
  {| path := "hang.nc";
     source := [ "#ifdef NCTEST_FOO // [r'undefined reference']" ++ nl ];
     times := [0; 0; 0; 1; 1; 2; 2; 2; 2; 62; 62; 63; 64; 65; 65; 66; 67]%Z;
     exits := fun n p =>
       if (p =? 0)%nat then Some 0%Z
       else if (n <? 15)%nat then None else Some (-15)%Z;
     outputs := fun p =>
       if (p =? 0)%nat then ("", "", 0%Z)
       else ("", "x.o: undefined reference to `f'", (-15)%Z) |}.

(** Two directives with the same case name. *)
Definition duplicated : Scenario :=
  {| path := "dup.nc";
     source := [ "#ifdef NCTEST_DUP // []" ++ nl;
                 "#ifdef NCTEST_DUP // []" ++ nl ];
     times := [0; 1; 2; 3; 4; 5; 6; 7; 8; 9; 10; 11; 12; 13; 14; 15; 16;
               17; 18; 19; 20; 21; 22; 23; 24; 25]%Z;
     exits := fun _ p => if (p =? 0)%nat then Some 0%Z else Some 1%Z;
     outputs := fun p =>
       if (p =? 0)%nat then ("", "", 0%Z) else ("", "error", 1%Z) |}.

(** A directive without a trailing comment. *)
Definition uncommented : Scenario :=
  {| path := "plain.nc";
     source := [ "#ifdef NCTEST_FOO" ++ nl; "#endif" ++ nl ];
     times := [0; 1; 2; 3; 4; 5; 6; 7; 8; 9; 10; 11; 12]%Z;
     exits := fun _ _ => Some 1%Z;
     outputs := fun _ => ("", "error", 1%Z) |}.

(** The world in which [main] starts the tests: the clock was read three
    times and the header is written. *)
Definition world_at_launch (sc : Scenario) : World :=
  {| ticks := 3; spawned := 0; resultfile := [HeaderEntry (path sc)];
     signals := []; LC_ALL := Some "C"; printed := [] |}.

(** The finished tests a scenario hands to the classifier. *)
Definition finished (sc : Scenario) (parallelism : Z) : list Test :=
  match run_tests (env_of sc) 100 parallelism (path sc) "-Wall  -I."
                  (match ExtractTestConfigs (env_of sc) (path sc) with
                   | Return configs => configs
                   | Throw _ => []
                   end) (world_at_launch sc) with
  | Ok tests _ => tests
  | _ => []
  end.

Definition clang : string :=
  "/src/tools/../third_party/llvm-build/Release+Asserts/bin/clang++".

(** The sanity test of [passing], as the scheduler returns it. *)
Definition sanity_passed : Test :=
  {| proc := {| pid := 0; returncode := Some 0%Z |};
     cmdline := clang ++ " -Wall -I. -std=c++11 -o /dev/null -c -x c++ "
                      ++ "base/bind_unittest.nc";
     test_name := "NCTEST_SANITY";
     test_suite_name := "NoCompileBindUnittest";
     terminate_timeout := 73; kill_timeout := 75; started_at := 13;
     aborted_at := 0; finished_at := 17;
     test_expectations := None |}.

(** The test NCTEST_FOO of [passing], as the scheduler returns it. *)
Definition foo_failed_to_compile : Test :=
  {| proc := {| pid := 1; returncode := Some 1%Z |};
     cmdline := clang ++ " -Wall -I. -DNCTEST_FOO -std=c++11 -o /dev/null"
                      ++ " -c -x c++ base/bind_unittest.nc";
     test_name := "NCTEST_FOO";
     test_suite_name := "NoCompileBindUnittest";
     terminate_timeout := 74; kill_timeout := 76; started_at := 14;
     aborted_at := 0; finished_at := 17;
     test_expectations := Some [literal_pattern "no matching function"] |}.

(** The test NCTEST_FOO of [hanging], as the scheduler returns it. *)
Definition foo_hung : Test :=
  {| proc := {| pid := 1; returncode := Some (-15)%Z |};
     cmdline := clang ++ " -Wall -I. -DNCTEST_FOO -std=c++11 -o /dev/null"
                      ++ " -c -x c++ hang.nc";
     test_name := "NCTEST_FOO";
     test_suite_name := "NoCompileHang";
     terminate_timeout := 61; kill_timeout := 63; started_at := 1;
     aborted_at := 64; finished_at := 65;
     test_expectations := Some [literal_pattern "undefined reference"] |}.

(** A test with the empty expectation list that failed to compile. *)
Definition any_failure : Test :=
  {| proc := {| pid := 1; returncode := Some 1%Z |};
     cmdline := clang ++ " -DNCTEST_DUP -std=c++11 -o /dev/null -c -x c++"
                      ++ " dup.nc";
     test_name := "NCTEST_DUP";
     test_suite_name := "NoCompileDup";
     terminate_timeout := 67; kill_timeout := 69; started_at := 7;
     aborted_at := 0; finished_at := 10;
     test_expectations := Some [] |}.

End Demo.

(* ------------------------------------------------------------------ *)
(** * Further vocabulary: whole runs of the scheduler *)

(** The entries the scheduler writes for the disabled descriptors. *)
Definition skipped_entries (test_configs : list Config) : list Entry :=
  map (fun c => DisabledEntry (suite_name c) (name c))
      (filter disabled test_configs).

(** A computation that starts no child process. *)
Definition spawnless {A} (m : M A) : Prop :=
  forall w, spawned (final_world (m w)) = spawned w.

(** The suite a report entry is filed under, for the entries that name
    one. *)
Definition entry_suite (e : Entry) : option string :=
  match e with
  | SuccessEntry suite _ _ _ _ => Some suite
  | DisabledEntry suite _ => Some suite
  | StatsEntry suite _ _ _ _ _ _ => Some suite
  | HeaderEntry _ => None
  | FailEntry _ _ _ _ _ => None
  end.

(** The case a verdict entry is about. *)
Definition entry_case (e : Entry) : option string :=
  match e with
  | SuccessEntry _ case _ _ _ => Some case
  | DisabledEntry _ case => Some case
  | FailEntry case _ _ _ _ => Some case
  | HeaderEntry _ => None
  | StatsEntry _ _ _ _ _ _ _ => None
  end.

(** Every item of the dictionary is filed under the name of its test, and
    no name occurs twice. *)
Definition well_keyed (d : Executing) : Prop :=
  NoDup (keys d) /\ Forall (fun item => fst item = test_name (snd item)) d.

(** The exceptions of the computation [m] started in [w] all satisfy
    [allowed]. *)
Definition fails_within {A} (allowed : exn -> Prop) (m : M A) (w : World)
  : Prop :=
  forall e w', m w = Raise e w' -> allowed e.

(** The faults a run of the driver can end with. *)
Definition driver_fault (e : exn) : Prop :=
  e = SystemExit 1 \/ e = ValueError \/ e = AssertionError \/
  e = IOError \/ e = MalformedLiteral \/ e = PatternError \/ e = OSError.

(** A computation all of whose exceptions are faults of the driver. *)
Definition safe {A} (m : M A) : Prop :=
  forall w, fails_within driver_fault m w.

(* ------------------------------------------------------------------ *)
(** * Further vocabulary: what a pattern consumes *)

(** Every character of [s] is in the class [p]. *)
Fixpoint all_chars (p : ascii -> bool) (s : string) : bool :=
  match s with
  | EmptyString => true
  | String c s' => p c && all_chars p s'
  end.

(** [matches r a]: the text [a] is in the language of the pattern [r]
    (the anchor [^] and the empty pattern match the empty text). *)
Inductive matches : Re.regex -> string -> Prop :=
| matches_Eps : matches Re.Eps ""
| matches_Bol : matches Re.Bol ""
| matches_Lit : forall l, matches (Re.Lit l) l
| matches_Star : forall p a,
    all_chars p a = true -> matches (Re.Star p) a
| matches_Plus : forall p c a,
    p c = true -> all_chars p a = true -> matches (Re.Plus p) (String c a)
| matches_Opt_some : forall r a, matches r a -> matches (Re.Opt r) a
| matches_Opt_none : forall r, matches (Re.Opt r) ""
| matches_Seq : forall r1 r2 a b,
    matches r1 a -> matches r2 b -> matches (Re.Seq r1 r2) (a ++ b)
| matches_Group : forall n r a, matches r a -> matches (Re.Group n r) a.

(** The pattern [r] has a capturing group numbered [n]. *)
Fixpoint binds (r : Re.regex) (n : nat) : bool :=
  match r with
  | Re.Opt r' => binds r' n
  | Re.Seq r1 r2 => binds r1 n || binds r2 n
  | Re.Group m r' => (m =? n)%nat || binds r' n
  | _ => false
  end.

(** The pattern [r] has no anchor [^]. *)
Fixpoint anchor_free (r : Re.regex) : bool :=
  match r with
  | Re.Bol => false
  | Re.Opt r' => anchor_free r'
  | Re.Seq r1 r2 => anchor_free r1 && anchor_free r2
  | Re.Group _ r' => anchor_free r'
  | _ => true
  end.

(* ------------------------------------------------------------------ *)
(** * The ninja output directory (tools/vim/ninja_output.py)

    [GetNinjaOutputDirectory] reads one environment variable and the
    modification times of up to four files.  A modification time is the
    floating-point number [os.path.getmtime] returns (IEEE 754 binary64);
    paths are joined as [os.path.join] does on POSIX. *)

Module NinjaOutput.
Import PrimFloat.

Record Os : Type := {
  (** [os.getenv(name)], [None] when the variable is not set *)
  getenv : string -> option string;
  (** [os.path.getmtime(path)], [None] when it raises [os.error] *)
  getmtime : string -> option float
}.

(** [s.split(sep, 1)] for a one-character separator. *)
Fixpoint split_once (sep : ascii) (s : string) : list string :=
  match s with
  | EmptyString => [EmptyString]
  | String c s' =>
      if Ascii.eqb c sep then [EmptyString; s']
      else match split_once sep s' with
           | w :: ws => String c w :: ws
           | [] => [String c EmptyString]
           end
  end.

(** [os.getenv('GYP_GENERATOR_FLAGS', '').split(' ')] *)
Definition generator_flags (os : Os) : list string :=
  Py.split " "%char
           match getenv os "GYP_GENERATOR_FLAGS" with
           | Some flags => flags
           | None => ""
           end.

(** The loop over the generator flags. *)
Fixpoint scan_flags (flags : list string) (output_dir : string) : string :=
  match flags with
  | [] => output_dir
  | flag :: rest =>
      let name_value := split_once "="%char flag in
      if (List.length name_value =? 2)%nat
         && String.eqb (nth 0 name_value "") "output_dir"
      then scan_flags rest (nth 1 name_value "")
      else scan_flags rest output_dir
  end.

(** The truth value of the [configuration] argument, a string or [None]. *)
Definition truthy (configuration : option string) : bool :=
  match configuration with
  | Some (String _ _) => true
  | _ => false
  end.

(** [os.path.getmtime(path)] with the [except os.error] clause. *)
Definition mtime_or_0 (os : Os) (path : string) : float :=
  match getmtime os path with
  | Some t => t
  | None => 0%float
  end.

Definition is_release_15s_newer (os : Os) (debug_path release_path : string)
           (test_path : string) : bool :=
  let debug_mtime := mtime_or_0 os (Py.path_join2 debug_path test_path) in
  let rel_mtime := mtime_or_0 os (Py.path_join2 release_path test_path) in
  (15 <=? rel_mtime - debug_mtime)%float.

Definition GetNinjaOutputDirectory (os : Os) (chrome_root : string)
           (configuration : option string) : string :=
  let output_dir := "out" in
  let output_dir := scan_flags (generator_flags os) output_dir in
  let root := Py.path_join2 chrome_root output_dir in
  if truthy configuration then
    Py.path_join2 root match configuration with
                       | Some c => c
                       | None => ""
                       end
  else
    let debug_path := Py.path_join2 root "Debug" in
    let release_path := Py.path_join2 root "Release" in
    if is_release_15s_newer os debug_path release_path "build.ninja"
       || is_release_15s_newer os debug_path release_path "protoc"
    then release_path
    else debug_path.

(** Vocabulary: the flags of the form [output_dir=value] and their
    values. *)
Definition is_output_dir_flag (flag : string) : bool :=
  Py.startswith flag "output_dir=".

Definition flag_value (flag : string) : string :=
  substring 11 (String.length flag - 11) flag.

Definition output_dir_values (flags : list string) : list string :=
  map flag_value (filter is_output_dir_flag flags).

(** Two machines for the examples: one with generator flags and no
    build, one with a Release build only. *)
Definition gyp_flags_os : Os :=
  {| getenv := fun name =>
       if String.eqb name "GYP_GENERATOR_FLAGS"
       then Some "output_dir=first  config=Release output_dir=build x=output_dir=y"
       else None;
     getmtime := fun _ => None |}.

Definition release_only_os : Os :=
  {| getenv := fun _ => None;
     getmtime := fun path =>
       if String.eqb path "/src/out/Release/build.ninja"
       then Some 1400000000%float
       else None |}.

End NinjaOutput.

(* ------------------------------------------------------------------ *)
(** * The profiling controller
      (telemetry/core/platform/profiling_controller_backend.py)

    The controller keeps two fields of its own, the list of active
    profilers and the dictionary of per-class states; everything else it
    touches belongs to objects it is given: the platform backend, the
    profiler finder, the profiler classes and their instances.  What those
    answer is a field of the record [Telemetry]; an answer may depend on
    every call made before it, which is the list of calls the model
    threads through the methods.

    A state dictionary is created empty by the controller and handed to
    the profilers, which own its content; the model keeps its identity, a
    reference that is fresh when the dictionary is created.  The
    dictionary of states is an association list in insertion order. *)

Module Profiling.

(** A profiler class object and a state dictionary object, by identity. *)
Definition ProfilerClass : Type := nat.
Definition StateRef : Type := nat.

Record BrowserBackend : Type := {
  backend_id : nat;
  browser_type : string
}.

(** The instance [profiler_class(browser_backend, platform_backend,
    base_output_file, state)] made for one controller, whose platform
    backend is fixed. *)
Record Profiler : Type := {
  profiler_class : ProfilerClass;
  profiler_browser_backend : BrowserBackend;
  base_output_file : string;
  state : StateRef
}.

Inductive error : Type :=
| AssertionError                          (* Already profiling. *)
| NotImplementedError (browsers : nat)    (* not exactly one browser *)
| AttributeError                          (* an attribute of None *)
| UnsupportedProfiler (profiler_name : string)   (* Exception(...) *)
| KeyError
| Foreign (tag : nat).                    (* raised by a collaborator *)

(** The calls the controller makes on its collaborators. *)
Inductive Call : Type :=
| CallFindProfiler (profiler_name : string)
| CallIsSupported (c : ProfilerClass) (type : string)
| CallNew (p : Profiler)
| CallCollectProfile (p : Profiler)
| CallWillCloseBrowser (c : ProfilerClass) (b : BrowserBackend)
| Elsewhere.      (* something that happened outside the controller *)

(** An exception raised by a collaborator, by a tag. *)
Definition raised : Type := nat.

Record Telemetry : Type := {
  (** [platform_backend.running_browser_backends] *)
  running_browser_backends : list Call -> list BrowserBackend;
  (** [profiler_finder.FindProfiler(name)], which may be [None] *)
  FindProfiler : list Call -> string -> raised + option ProfilerClass;
  is_supported : list Call -> ProfilerClass -> string -> raised + bool;
  (** the constructor of a profiler class: the exception it raises *)
  new : list Call -> Profiler -> option raised;
  CollectProfile : list Call -> Profiler -> raised + list string;
  (** the class method [WillCloseBrowser] of a profiler class *)
  class_WillCloseBrowser :
    list Call -> ProfilerClass -> BrowserBackend -> option raised
}.

(** The fields of the controller object. *)
Record Controller : Type := {
  _active_profilers : list Profiler;
  _profilers_states : list (ProfilerClass * StateRef)
}.

(** How a method ends: the controller and the calls made are there in
    both cases. *)
Inductive outcome (A : Type) : Type :=
| Returns (a : A) (self : Controller) (calls : list Call)
| Raises (e : error) (self : Controller) (calls : list Call).
Arguments Returns {A} a self calls.
Arguments Raises {A} e self calls.

Definition controller_of {A} (o : outcome A) : Controller :=
  match o with
  | Returns _ self _ => self
  | Raises _ self _ => self
  end.

Definition calls_of {A} (o : outcome A) : list Call :=
  match o with
  | Returns _ _ calls => calls
  | Raises _ _ calls => calls
  end.

(** [key in d] and [d[key]] *)
Definition dict_in (d : list (ProfilerClass * StateRef))
           (key : ProfilerClass) : bool :=
  existsb (fun kv => (fst kv =? key)%nat) d.

Fixpoint dict_get (d : list (ProfilerClass * StateRef))
         (key : ProfilerClass) : option StateRef :=
  match d with
  | [] => None
  | (k, v) :: d' => if (k =? key)%nat then Some v else dict_get d' key
  end.

(** A reference no state dictionary of the controller has. *)
Definition fresh (d : list (ProfilerClass * StateRef)) : StateRef :=
  S (fold_right Nat.max 0 (map snd d)).

Definition __init__ : Controller :=
  {| _active_profilers := []; _profilers_states := [] |}.

Section Methods.
Variable env : Telemetry.

Definition Start (self : Controller) (profiler_name : string)
           (base_output_file : string) (calls : list Call) : outcome unit :=
  match _active_profilers self with
  | _ :: _ => Raises AssertionError self calls
  | [] =>
      let backends := running_browser_backends env calls in
      let num_running_browser_backends := List.length backends in
      match backends with
      | [browser_backend] =>
          let calls1 := (calls ++ [CallFindProfiler profiler_name])%list in
          match FindProfiler env calls profiler_name with
          | inl e => Raises (Foreign e) self calls1
          | inr None => Raises AttributeError self calls1
          | inr (Some profiler_class) =>
              let type := browser_type browser_backend in
              let calls2 :=
                (calls1 ++ [CallIsSupported profiler_class type])%list in
              match is_supported env calls1 profiler_class type with
              | inl e => Raises (Foreign e) self calls2
              | inr false =>
                  Raises (UnsupportedProfiler profiler_name) self calls2
              | inr true =>
                  let states :=
                    if dict_in (_profilers_states self) profiler_class
                    then _profilers_states self
                    else (_profilers_states self
                          ++ [(profiler_class,
                               fresh (_profilers_states self))])%list in
                  let self1 :=
                    {| _active_profilers := _active_profilers self;
                       _profilers_states := states |} in
                  match dict_get states profiler_class with
                  | None => Raises KeyError self1 calls2
                  | Some st =>
                      let profiler :=
                        {| profiler_class := profiler_class;
                           profiler_browser_backend := browser_backend;
                           base_output_file := base_output_file;
                           state := st |} in
                      let calls3 := (calls2 ++ [CallNew profiler])%list in
                      match new env calls2 profiler with
                      | Some e => Raises (Foreign e) self1 calls3
                      | None =>
                          Returns tt
                            {| _active_profilers :=
                                 (_active_profilers self ++ [profiler])%list;
                               _profilers_states := states |}
                            calls3
                      end
                  end
              end
          end
      | _ => Raises (NotImplementedError num_running_browser_backends)
                    self calls
      end
  end.

(** The loop of [Stop] over the active profilers. *)
Fixpoint collect (profilers : list Profiler) (output_files : list string)
         (calls : list Call) : (raised + list string) * list Call :=
  match profilers with
  | [] => (inr output_files, calls)
  | profiler :: rest =>
      let calls1 := (calls ++ [CallCollectProfile profiler])%list in
      match CollectProfile env calls profiler with
      | inl e => (inl e, calls1)
      | inr files => collect rest (output_files ++ files)%list calls1
      end
  end.

Definition Stop (self : Controller) (calls : list Call)
  : outcome (list string) :=
  match collect (_active_profilers self) [] calls with
  | (inl e, calls1) => Raises (Foreign e) self calls1
  | (inr output_files, calls1) =>
      Returns output_files
              {| _active_profilers := [];
                 _profilers_states := _profilers_states self |}
              calls1
  end.

(** The loop of [WillCloseBrowser] over the keys of the dictionary. *)
Fixpoint notify (classes : list ProfilerClass)
         (browser_backend : BrowserBackend) (calls : list Call)
  : option raised * list Call :=
  match classes with
  | [] => (None, calls)
  | profiler_class :: rest =>
      let calls1 :=
        (calls ++ [CallWillCloseBrowser profiler_class browser_backend])%list
      in
      match class_WillCloseBrowser env calls profiler_class
                                   browser_backend with
      | Some e => (Some e, calls1)
      | None => notify rest browser_backend calls1
      end
  end.

Definition WillCloseBrowser (self : Controller)
           (browser_backend : BrowserBackend) (calls : list Call)
  : outcome unit :=
  match notify (map fst (_profilers_states self)) browser_backend calls with
  | (Some e, calls1) => Raises (Foreign e) self calls1
  | (None, calls1) => Returns tt self calls1
  end.

(** The use of a controller: any of its methods, in any order, while the
    world goes on. *)
Inductive Op : Type :=
| OpStart (profiler_name base_output_file : string)
| OpStop
| OpWillCloseBrowser (browser_backend : BrowserBackend)
| OpElsewhere.

Definition step (op : Op) (self : Controller) (calls : list Call)
  : Controller * list Call :=
  match op with
  | OpStart profiler_name base_output_file =>
      let o := Start self profiler_name base_output_file calls in
      (controller_of o, calls_of o)
  | OpStop => let o := Stop self calls in (controller_of o, calls_of o)
  | OpWillCloseBrowser browser_backend =>
      let o := WillCloseBrowser self browser_backend calls in
      (controller_of o, calls_of o)
  | OpElsewhere => (self, (calls ++ [Elsewhere])%list)
  end.

Fixpoint run (ops : list Op) (self : Controller) (calls : list Call)
  : Controller * list Call :=
  match ops with
  | [] => (self, calls)
  | op :: rest =>
      let '(self1, calls1) := step op self calls in run rest self1 calls1
  end.

End Methods.

(** Vocabulary: the shape the two fields keep. *)
Definition well_formed (self : Controller) : Prop :=
  List.length (_active_profilers self) <= 1 /\
  NoDup (map fst (_profilers_states self)) /\
  NoDup (map snd (_profilers_states self)) /\
  Forall (fun p =>
            dict_get (_profilers_states self) (profiler_class p)
            = Some (state p))
         (_active_profilers self).

(** The dictionary after the registration step of [Start]. *)
Definition registered (d : list (ProfilerClass * StateRef))
           (c : ProfilerClass) : list (ProfilerClass * StateRef) :=
  if dict_in d c then d else (d ++ [(c, fresh d)])%list.

(** The profilers the controller has constructed, or tried to. *)
Definition constructed (calls : list Call) (p : Profiler) : Prop :=
  In (CallNew p) calls.

(** The dictionary of states records the profilers constructed so far,
    and nothing else. *)
Definition tracked (self : Controller) (calls : list Call) : Prop :=
  (forall p,
      constructed calls p ->
      dict_get (_profilers_states self) (profiler_class p)
      = Some (state p)) /\
  (forall c,
      In c (map fst (_profilers_states self)) ->
      exists p, constructed calls p /\ profiler_class p = c).

(** An environment for the examples: one browser, two profilers named
    perf and strace, of which strace is not supported; collecting a
    profile gives one file named after the base output file. *)
Definition the_browser : BrowserBackend :=
  {| backend_id := 0; browser_type := "android-chrome" |}.

Definition demo : Telemetry :=
  {| running_browser_backends := fun _ => [the_browser];
     FindProfiler := fun _ profiler_name =>
       if String.eqb profiler_name "perf" then inr (Some 7)
       else if String.eqb profiler_name "strace" then inr (Some 8)
       else inr None;
     is_supported := fun _ c _ => inr (c =? 7)%nat;
     new := fun _ _ => None;
     CollectProfile := fun _ p => inr [base_output_file p ++ ".perf"];
     class_WillCloseBrowser := fun _ _ _ => None |}.

(** The same, but collecting a profile fails. *)
Definition flaky : Telemetry :=
  {| running_browser_backends := running_browser_backends demo;
     FindProfiler := FindProfiler demo;
     is_supported := is_supported demo;
     new := new demo;
     CollectProfile := fun _ _ => inl 1;
     class_WillCloseBrowser := class_WillCloseBrowser demo |}.

(** A session: profile with perf, try strace while profiling, stop, try
    strace, profile with perf again, close the browser. *)
Definition session : list Op :=
  [ OpStart "perf" "/tmp/first"; OpStart "strace" "/tmp/second"; OpStop;
    OpStart "strace" "/tmp/third"; OpElsewhere;
    OpStart "perf" "/tmp/fourth";
    OpWillCloseBrowser the_browser ].

End Profiling.

(* ------------------------------------------------------------------ *)
(** * Further vocabulary: the escalation loop *)

(** The deadlines [StartTest] gives a test: 60 and 62 seconds after its
    start. *)
Definition deadlines_set (test : Test) : Prop :=
  terminate_timeout test = (started_at test + 60)%Z /\
  kill_timeout test = (started_at test + 62)%Z.

Definition all_deadlines_set (d : Executing) : Prop :=
  Forall (fun item => deadlines_set (snd item)) d.

(** The child of [test] is still running when it is polled in [w]. *)
Definition alive (env : Env) (w : World) (test : Test) : Prop :=
  poll_status env w (proc test) = None.

(** The signal [s] as sent to the child of [test] at the time [now]. *)
Definition signal_at (s : Signal) (now : Z) (test : Test) : Sent :=
  {| sent_signal := s; sent_to := pid (proc test); sent_at := now |}.

(** A case like that of [Demo.hanging] whose child is still running at
    the passes of time 62 and 63, both after its terminate deadline 61 and
    neither after its kill deadline 63, and has exited at the pass of
    time 64. *)
Definition lingering : Demo.Scenario :=
  {| Demo.path := "hang.nc";
     Demo.source := [ "#ifdef NCTEST_FOO // [r'undefined reference']"
                      ++ Demo.nl ];
     Demo.times :=
       [0; 0; 0; 1; 1; 2; 2; 2; 2; 62; 62; 62; 63; 64; 64; 65; 66]%Z;
     Demo.exits := fun n p =>
       if (p =? 0)%nat then Some 0%Z
       else if (n <? 15)%nat then None else Some (-15)%Z;
     Demo.outputs := fun p =>
       if (p =? 0)%nat then ("", "", 0%Z)
       else ("", "x.o: undefined reference to `f'", (-15)%Z) |}.

(** The test NCTEST_FOO of [lingering] as the pass of time 62 leaves it
    in the dictionary, and as the scheduler returns it. *)
Definition foo_aborted_once : Test :=
  {| proc := {| pid := 1; returncode := None |};
     cmdline := cmdline Demo.foo_hung;
     test_name := "NCTEST_FOO";
     test_suite_name := "NoCompileHang";
     terminate_timeout := 61; kill_timeout := 63; started_at := 1;
     aborted_at := 62; finished_at := 0;
     test_expectations := test_expectations Demo.foo_hung |}.

Definition foo_lingered : Test :=
  {| proc := {| pid := 1; returncode := Some (-15)%Z |};
     cmdline := cmdline Demo.foo_hung;
     test_name := "NCTEST_FOO";
     test_suite_name := "NoCompileHang";
     terminate_timeout := 61; kill_timeout := 63; started_at := 1;
     aborted_at := 63; finished_at := 64;
     test_expectations := test_expectations Demo.foo_hung |}.

(** The world of [lingering] in which the pass of time 63 polls. *)
Definition world_at_second_pass : World :=
  {| ticks := 13; spawned := 2; resultfile := [HeaderEntry "hang.nc"];
     signals := [signal_at SIGTERM 62 foo_aborted_once];
     LC_ALL := Some "C"; printed := [] |}.

(* ------------------------------------------------------------------ *)
(** * The result classifier *)

Section Classifier.
Variable env : Env.

Lemma existsb_some_pattern_matches (exps : list Pattern) (out err : string) :
  existsb (fun regexp => search regexp out || search regexp err) exps = true
  <-> some_pattern_matches exps out err.
Proof.
  unfold some_pattern_matches. rewrite existsb_exists.
  split; intros [regexp [Hin Hm]]; exists regexp; split; auto.
  - apply orb_true_iff in Hm. exact Hm.
  - apply orb_true_iff. exact Hm.
Qed.

Lemma pass_is_not_fail (t t' : Test) (r : Reason) (out err : option string) :
  PassTest (Started t) <> FailTest t' r out err.
Proof.
  intro H.
  assert (H0 : PassTest (Started t) initial_world
               = FailTest t' r out err initial_world) by (rewrite H; reflexivity).
  discriminate H0.
Qed.

(** Rows 3 to 5 of the decision table, for a test that was not aborted
    and is not the sanity check. *)
Lemma classify_not_aborted (test : Test) (exps : list Pattern) :
  aborted_at test = 0%Z ->
  test_expectations test = Some exps ->
  ProcessTestResult env test =
  if (exit_status env test =? 0)%Z then
    FailTest test UnexpectedSuccess (Some (captured_stdout env test))
             (Some (captured_stderr env test))
  else if (List.length exps =? 0)%nat then PassTest (Started test)
  else if existsb (fun regexp =>
                     search regexp (captured_stdout env test)
                     || search regexp (captured_stderr env test)) exps
       then PassTest (Started test)
  else FailTest test (ExpectationsNotMatched (expectation_str exps))
                (Some (captured_stdout env test))
                (Some (captured_stderr env test)).
Proof.
  intros Hab Hexp. unfold ProcessTestResult.
  rewrite Hab, Hexp. reflexivity.
Qed.

Lemma classify_aborted (test : Test) :
  aborted_at test <> 0%Z ->
  ProcessTestResult env test =
  FailTest test (TimedOut (started_at test) (aborted_at test)) None None.
Proof.
  intros Hab. unfold ProcessTestResult.
  destruct (aborted_at test =? 0)%Z eqn:E.
  - apply Z.eqb_eq in E. contradiction.
  - reflexivity.
Qed.

End Classifier.

(** C1 (as amended).  For every finished invocation that was not aborted
    and whose descriptor has a non-empty expectation list, the classifier
    passes the test iff the exit status is nonzero and some expectation
    pattern is found in the captured stdout or stderr; with exit status 0
    it fails the test for an unexpected successful compilation, whatever
    the patterns match; with a nonzero status and no pattern found in either
    stream it fails the test with the list of patterns in the reason. *)
Theorem classify_with_expectations :
  forall (env : Env) (test : Test) (exps : list Pattern),
    aborted_at test = 0%Z ->
    test_expectations test = Some exps ->
    exps <> [] ->
    (ProcessTestResult env test = PassTest (Started test) <->
       exit_status env test <> 0%Z /\
       some_pattern_matches exps (captured_stdout env test)
                            (captured_stderr env test)) /\
    (exit_status env test = 0%Z ->
       ProcessTestResult env test =
       FailTest test UnexpectedSuccess (Some (captured_stdout env test))
                (Some (captured_stderr env test))) /\
    (exit_status env test <> 0%Z ->
     ~ some_pattern_matches exps (captured_stdout env test)
                            (captured_stderr env test) ->
       ProcessTestResult env test =
       FailTest test (ExpectationsNotMatched (expectation_str exps))
                (Some (captured_stdout env test))
                (Some (captured_stderr env test))).
Proof.
  intros env test exps Hab Hexp Hne.
  rewrite (classify_not_aborted env test Hab Hexp).
  assert (Hlen : (List.length exps =? 0)%nat = false).
  { destruct exps; [contradiction | reflexivity]. }
  rewrite Hlen.
  destruct (exit_status env test =? 0)%Z eqn:Hrc.
  - apply Z.eqb_eq in Hrc. split; [split | split].
    + intro H. symmetry in H. apply pass_is_not_fail in H. contradiction.
    + intros [H _]. contradiction.
    + reflexivity.
    + intro H. contradiction.
  - apply Z.eqb_neq in Hrc.
    destruct (existsb _ exps) eqn:Hm.
    + apply existsb_some_pattern_matches in Hm. split; [split | split].
      * intros _. split; assumption.
      * reflexivity.
      * intro H. contradiction.
      * intros _ H. contradiction.
    + assert (Hno : ~ some_pattern_matches exps (captured_stdout env test)
                      (captured_stderr env test)).
      { intro H. apply existsb_some_pattern_matches in H.
        rewrite H in Hm. discriminate. }
      split; [split | split].
      * intro H. symmetry in H. apply pass_is_not_fail in H. contradiction.
      * intros [_ H]. contradiction.
      * intro H. contradiction.
      * reflexivity.
Qed.

(** C2.  For every finished invocation that was not aborted and whose
    descriptor has the empty expectation list, the classifier passes the
    test whenever the exit status is nonzero, whatever the child printed,
    and fails it whenever the exit status is 0. *)
Theorem classify_empty_expectations :
  forall (env : Env) (test : Test),
    aborted_at test = 0%Z ->
    test_expectations test = Some [] ->
    (exit_status env test <> 0%Z ->
       ProcessTestResult env test = PassTest (Started test)) /\
    (exit_status env test = 0%Z ->
       ProcessTestResult env test =
       FailTest test UnexpectedSuccess (Some (captured_stdout env test))
                (Some (captured_stderr env test))).
Proof.
  intros env test Hab Hexp.
  rewrite (classify_not_aborted env test Hab Hexp).
  split; intro Hrc.
  - apply Z.eqb_neq in Hrc. rewrite Hrc. reflexivity.
  - rewrite Hrc. reflexivity.
Qed.

Example passing_finished :
  Demo.finished Demo.passing 2 = [Demo.sanity_passed; Demo.foo_failed_to_compile].
Proof. vm_compute. reflexivity. Qed.

Example hanging_finished_last :
  nth_error (Demo.finished Demo.hanging 2) 1 = Some Demo.foo_hung.
Proof. vm_compute. reflexivity. Qed.

Lemma classify_with_expectations_witness :
  aborted_at Demo.foo_failed_to_compile = 0%Z /\
  exit_status (Demo.env_of Demo.passing) Demo.foo_failed_to_compile = 1%Z /\
  ProcessTestResult (Demo.env_of Demo.passing) Demo.foo_failed_to_compile
  = PassTest (Started Demo.foo_failed_to_compile).
Proof.
  split; [reflexivity | split; [reflexivity | ]].
  apply (proj1 (@classify_with_expectations
                  (Demo.env_of Demo.passing) Demo.foo_failed_to_compile
                  [Demo.literal_pattern "no matching function"]
                  eq_refl eq_refl ltac:(discriminate))).
  split.
  - vm_compute. discriminate.
  - exists (Demo.literal_pattern "no matching function").
    split; [left; reflexivity | right; vm_compute; reflexivity].
Defined.

(** C1 as stated fails on an invocation that was sent the terminate signal
    before it exited: the scheduler hands it to the classifier as a
    finished test, its expectation list is non-empty, its exit status is
    nonzero and its pattern is found in the captured stderr, yet it is
    failed as timed out. *)
Lemma aborted_invocation_is_failed_despite_match :
  nth_error (Demo.finished Demo.hanging 2) 1 = Some Demo.foo_hung /\
  test_expectations Demo.foo_hung
  = Some [Demo.literal_pattern "undefined reference"] /\
  exit_status (Demo.env_of Demo.hanging) Demo.foo_hung = (-15)%Z /\
  search (Demo.literal_pattern "undefined reference")
         (captured_stderr (Demo.env_of Demo.hanging) Demo.foo_hung) = true /\
  ProcessTestResult (Demo.env_of Demo.hanging) Demo.foo_hung
  = FailTest Demo.foo_hung (TimedOut 1 64) None None /\
  ProcessTestResult (Demo.env_of Demo.hanging) Demo.foo_hung
  <> PassTest (Started Demo.foo_hung).
Proof.
  split; [vm_compute; reflexivity | ].
  split; [reflexivity | ].
  split; [reflexivity | ].
  split; [vm_compute; reflexivity | ].
  split; [reflexivity | ].
  intro H. symmetry in H. revert H. apply pass_is_not_fail.
Qed.

Lemma classify_empty_expectations_witness :
  aborted_at Demo.any_failure = 0%Z /\
  test_expectations Demo.any_failure = Some [] /\
  ProcessTestResult (Demo.env_of Demo.duplicated) Demo.any_failure
  = PassTest (Started Demo.any_failure).
Proof.
  split; [reflexivity | split; [reflexivity | ]].
  apply (proj1 (@classify_empty_expectations
                  (Demo.env_of Demo.duplicated) Demo.any_failure
                  eq_refl eq_refl)).
  vm_compute. discriminate.
Defined.

(* ------------------------------------------------------------------ *)
(** * The invocation launcher *)

Lemma StartTest_inv (env : Env) (sourcefile_path cflags : string)
      (config : Config) (w w' : World) (test : Test) :
  StartTest env sourcefile_path cflags config w = Ok test w' ->
  exists argv,
    command_line env sourcefile_path cflags config = Return argv /\
    popen_ok env argv = true /\
    test = {| proc := {| pid := spawned w; returncode := None |};
              cmdline := Py.join " " argv;
              test_name := name config;
              test_suite_name := suite_name config;
              terminate_timeout :=
                (clock env (ticks w) + NCTEST_TERMINATE_TIMEOUT_SEC)%Z;
              kill_timeout :=
                (clock env (ticks w) + NCTEST_KILL_TIMEOUT_SEC)%Z;
              started_at := clock env (ticks w);
              aborted_at := 0;
              finished_at := 0;
              test_expectations := expectations config |} /\
    resultfile w' = resultfile w /\
    signals w' = signals w.
Proof.
  unfold StartTest, bind.
  destruct (command_line env sourcefile_path cflags config) as [argv | e];
    simpl; [ | discriminate ].
  unfold ret, popen. destruct (popen_ok env argv) eqn:Hp; [ | discriminate ].
  simpl. intros H. inversion H; subst; clear H.
  exists argv. repeat split; auto.
Qed.

(** C8.  For every descriptor the launcher builds the argument vector as
    the compiler path, then the shared flags split into words, then
    [-D<name>] if and only if the descriptor's expectations are not [None],
    then the fixed flags (the language standard, the discarded output, the
    compile-only option and the language selection) and last the source
    path; the child is started with this vector. *)
Theorem command_line_argv :
  forall (env : Env) (sourcefile_path cflags : string) (config : Config)
         (flags : list string),
    shlex_split env cflags = Some flags ->
    command_line env sourcefile_path cflags config =
    Return ([compiler_path env] ++ flags ++ define_flag config ++
            ["-std=c++11"; "-o"; "/dev/null"; "-c"; "-x"; "c++";
             sourcefile_path])%list /\
    (define_flag config = [("-D" ++ name config)%string] <->
     expectations config <> None) /\
    (define_flag config = [] <-> expectations config = None) /\
    (forall w w' test,
        StartTest env sourcefile_path cflags config w = Ok test w' ->
        cmdline test =
        Py.join " " ([compiler_path env] ++ flags ++ define_flag config ++
                     ["-std=c++11"; "-o"; "/dev/null"; "-c"; "-x"; "c++";
                      sourcefile_path])%list).
Proof.
  intros env sourcefile_path cflags config flags Hsplit.
  assert (Hcmd : command_line env sourcefile_path cflags config =
                 Return ([compiler_path env] ++ flags ++ define_flag config ++
                         ["-std=c++11"; "-o"; "/dev/null"; "-c"; "-x"; "c++";
                          sourcefile_path])%list).
  { unfold command_line, define_flag. rewrite Hsplit. simpl.
    destruct (expectations config); simpl.
    - rewrite <- app_assoc. reflexivity.
    - reflexivity. }
  split; [exact Hcmd | ].
  split; [ | split ].
  - unfold define_flag. destruct (expectations config); split; intro H;
      try discriminate; try reflexivity; congruence.
  - unfold define_flag. destruct (expectations config); split; intro H;
      try discriminate; reflexivity.
  - intros w w' test Hstart.
    apply StartTest_inv in Hstart.
    destruct Hstart as [argv [Hargv [_ [Htest _]]]].
    rewrite Hcmd in Hargv. inversion Hargv; subst. reflexivity.
Qed.

Lemma command_line_argv_witness :
  command_line (Demo.env_of Demo.passing) "base/bind_unittest.nc"
               "-Wall  -I."
               {| name := "NCTEST_FOO"; suite_name := "NoCompileBindUnittest";
                  expectations := Some [] |}
  = Return [Demo.clang; "-Wall"; "-I."; "-DNCTEST_FOO"; "-std=c++11"; "-o";
            "/dev/null"; "-c"; "-x"; "c++"; "base/bind_unittest.nc"] /\
  command_line (Demo.env_of Demo.passing) "base/bind_unittest.nc"
               "-Wall  -I."
               (sanity_config "NoCompileBindUnittest")
  = Return [Demo.clang; "-Wall"; "-I."; "-std=c++11"; "-o";
            "/dev/null"; "-c"; "-x"; "c++"; "base/bind_unittest.nc"].
Proof.
  split.
  - exact (proj1 (@command_line_argv (Demo.env_of Demo.passing)
                    "base/bind_unittest.nc" "-Wall  -I."
                    {| name := "NCTEST_FOO";
                       suite_name := "NoCompileBindUnittest";
                       expectations := Some [] |}
                    ["-Wall"; "-I."] eq_refl)).
  - exact (proj1 (@command_line_argv (Demo.env_of Demo.passing)
                    "base/bind_unittest.nc" "-Wall  -I."
                    (sanity_config "NoCompileBindUnittest")
                    ["-Wall"; "-I."] eq_refl)).
Defined.

(* ------------------------------------------------------------------ *)
(** * The case extractor *)

Section ExtractorFacts.
Variable env : Env.
Variable suite : string.

Lemma directives_cons (line : string) (rest : list string) :
  directives (line :: rest) =
  match directive line with
  | Some d => d :: directives rest
  | None => directives rest
  end.
Proof.
  unfold directives. simpl. destruct (directive line); reflexivity.
Qed.

(** The loop appends to [test_configs] one descriptor per directive
    line, in line order. *)
Lemma scan_lines_appends (sourcefile : list string) :
  forall test_configs cfgs,
    scan_lines env suite sourcefile test_configs = Return cfgs ->
    exists added,
      cfgs = (test_configs ++ added)%list /\
      Forall2 (described_by env suite) (directives sourcefile) added.
Proof.
  induction sourcefile as [ | line rest IH]; intros test_configs cfgs H.
  - simpl in H. inversion H; subst. exists []. split.
    + rewrite app_nil_r. reflexivity.
    + constructor.
  - rewrite directives_cons. simpl in H.
    destruct (directive line) as [[n comment] | ].
    + destruct (ParseExpectation env comment) as [exps | e] eqn:Hp;
        simpl in H; [ | discriminate ].
      apply IH in H. destruct H as [added [Hc Hall]].
      exists ({| name := strip_defined n; suite_name := suite;
                 expectations := Some exps |} :: added).
      split.
      * rewrite Hc, <- app_assoc. reflexivity.
      * constructor; [ | exact Hall ].
        unfold described_by. simpl. repeat split.
        exists exps. split; [exact Hp | reflexivity].
    + apply IH in H. exact H.
Qed.

(** The loop returns when the comment of every directive line parses. *)
Lemma scan_lines_returns (sourcefile : list string) :
  (forall d, In d (directives sourcefile) ->
             exists exps, ParseExpectation env (snd d) = Return exps) ->
  forall test_configs,
    exists cfgs, scan_lines env suite sourcefile test_configs = Return cfgs.
Proof.
  induction sourcefile as [ | line rest IH]; intros Hall test_configs.
  - exists test_configs. reflexivity.
  - rewrite directives_cons in Hall. simpl.
    destruct (directive line) as [[n comment] | ].
    + destruct (Hall (n, comment) (or_introl eq_refl)) as [exps Hp].
      simpl in Hp. rewrite Hp. simpl.
      apply IH. intros d Hd. apply Hall. right. exact Hd.
    + apply IH. exact Hall.
Qed.

(** The loop raises when some directive line has no trailing comment. *)
Lemma scan_lines_raises (sourcefile : list string) (line n : string) :
  In line sourcefile ->
  directive line = Some (n, None) ->
  forall test_configs,
    exists e, scan_lines env suite sourcefile test_configs = Throw e.
Proof.
  intros Hin Hd.
  induction sourcefile as [ | l rest IH]; intros test_configs.
  - destruct Hin.
  - simpl. destruct Hin as [Heq | Hin].
    + subst l. rewrite Hd. simpl. exists AssertionError. reflexivity.
    + destruct (directive l) as [[n' comment] | ].
      * destruct (ParseExpectation env comment) as [exps | e]; simpl.
        -- apply IH. exact Hin.
        -- exists e. reflexivity.
      * apply IH. exact Hin.
Qed.

End ExtractorFacts.

(** C4 (as amended).  For every source line matched as a case directive
    that carries no trailing same-line comment, parsing its expectations
    fails the assertion of [ParseExpectation], and the extraction of a file
    that holds such a line raises instead of producing descriptors.  The
    empty expectation list is what the trailing comment [// []] gives. *)
Theorem directive_without_comment_raises :
  forall (env : Env) (sourcefile_path : string) (sourcefile : list string)
         (line n : string),
    files env sourcefile_path = Some sourcefile ->
    In line sourcefile ->
    directive line = Some (n, None) ->
    ParseExpectation env None = Throw AssertionError /\
    (exists e, ExtractTestConfigs env sourcefile_path = Throw e) /\
    (literal_eval env "[]" = Some (PyList []) ->
     ParseExpectation env (Some "// []") = Return []).
Proof.
  intros env sourcefile_path sourcefile line n Hfile Hin Hd.
  split; [reflexivity | split].
  - unfold ExtractTestConfigs. rewrite Hfile. simpl.
    eapply scan_lines_raises; eauto.
  - intro Hlit. unfold ParseExpectation.
    replace (Re.match_ EXTRACT_EXPECTATION_RE "// []")
      with (Some [(1, "[]")]) by (vm_compute; reflexivity).
    simpl. rewrite Hlit. reflexivity.
Qed.

Lemma directive_without_comment_raises_witness :
  (exists e,
      ExtractTestConfigs (Demo.env_of Demo.uncommented) "plain.nc" = Throw e) /\
  ParseExpectation (Demo.env_of Demo.uncommented) (Some "// []") = Return [].
Proof.
  pose proof (@directive_without_comment_raises
                (Demo.env_of Demo.uncommented) "plain.nc"
                (Demo.source Demo.uncommented)
                ("#ifdef NCTEST_FOO" ++ Demo.nl) "NCTEST_FOO"
                eq_refl (or_introl eq_refl) eq_refl) as [_ [H1 H2]].
  split; [exact H1 | exact (H2 eq_refl)].
Defined.

(** C4 as stated fails: the line [#ifdef NCTEST_FOO] is matched as a case
    directive without a comment, and the extraction of the file raises
    [AssertionError]; no descriptor with empty expectations is produced and
    the run stops before anything is written or launched. *)
Lemma uncommented_directive_stops_the_run :
  directive ("#ifdef NCTEST_FOO" ++ Demo.nl) = Some ("NCTEST_FOO", None) /\
  ExtractTestConfigs (Demo.env_of Demo.uncommented) "plain.nc"
  = Throw AssertionError /\
  Demo.run Demo.uncommented "2" =
  Raise AssertionError
        {| ticks := 1; spawned := 0; resultfile := []; signals := [];
           LC_ALL := Some "C"; printed := [] |}.
Proof.
  split; [vm_compute; reflexivity | ].
  split; vm_compute; reflexivity.
Qed.

(** C5.  For every source file that can be opened, whatever it contains,
    the sequence the extractor returns starts with the implicit sanity
    descriptor (the reserved name, expectations [None]) and continues with
    the descriptors of the directive lines in line order; it returns such a
    sequence whenever the comment of every directive line parses. *)
Theorem extraction_starts_with_sanity :
  forall (env : Env) (sourcefile_path : string) (sourcefile : list string),
    files env sourcefile_path = Some sourcefile ->
    (forall cfgs,
        ExtractTestConfigs env sourcefile_path = Return cfgs ->
        exists rest,
          cfgs = {| name := "NCTEST_SANITY";
                    suite_name := suite_name_of sourcefile_path;
                    expectations := None |} :: rest /\
          Forall2 (described_by env (suite_name_of sourcefile_path))
                  (directives sourcefile) rest) /\
    ((forall d, In d (directives sourcefile) ->
                exists exps, ParseExpectation env (snd d) = Return exps) ->
     exists cfgs, ExtractTestConfigs env sourcefile_path = Return cfgs).
Proof.
  intros env sourcefile_path sourcefile Hfile.
  unfold ExtractTestConfigs. rewrite Hfile. simpl. split.
  - intros cfgs H. apply scan_lines_appends in H.
    destruct H as [added [Hc Hall]]. exists added. split; assumption.
  - intro Hall. apply scan_lines_returns. exact Hall.
Qed.

Lemma extraction_starts_with_sanity_witness :
  exists cfgs rest,
    ExtractTestConfigs (Demo.env_of Demo.passing) "base/bind_unittest.nc"
    = Return cfgs /\
    cfgs = sanity_config "NoCompileBindUnittest" :: rest /\
    Forall2 (described_by (Demo.env_of Demo.passing) "NoCompileBindUnittest")
            (directives (Demo.source Demo.passing)) rest.
Proof.
  destruct (@extraction_starts_with_sanity
              (Demo.env_of Demo.passing) "base/bind_unittest.nc"
              (Demo.source Demo.passing) eq_refl) as [Hhead Hreturns].
  destruct Hreturns as [cfgs Hcfgs].
  - intros d Hd.
    assert (Hdirs : directives (Demo.source Demo.passing) =
                    [("defined(NCTEST_FOO)",
                      Some "// [r'no matching function']");
                     ("defined(DISABLED_NCTEST_BAR)", Some "// []")])
      by (vm_compute; reflexivity).
    rewrite Hdirs in Hd.
    destruct Hd as [Hd | [Hd | []]]; subst d; eexists; vm_compute;
      reflexivity.
  - destruct (Hhead cfgs Hcfgs) as [rest [Heq Hall]].
    exists cfgs, rest. split; [exact Hcfgs | split; [exact Heq | exact Hall]].
Defined.

(* ------------------------------------------------------------------ *)
(** * Reasoning about computations *)

Lemma bind_Ok {A B} (m : M A) (k : A -> M B) (w w' : World) (b : B) :
  bind m k w = Ok b w' ->
  exists a w1, m w = Ok a w1 /\ k a w1 = Ok b w'.
Proof.
  unfold bind. destruct (m w) as [a w1 | e w1 | w1]; intro H;
    try discriminate.
  exists a, w1. split; [reflexivity | exact H].
Qed.

Lemma ret_Ok {A} (a b : A) (w w' : World) :
  ret a w = Ok b w' -> a = b /\ w' = w.
Proof. unfold ret. intro H. inversion H. split; reflexivity. Qed.

Lemma assert_Ok (b : bool) (w w' : World) (u : unit) :
  assert_ b w = Ok u w' -> b = true /\ w' = w.
Proof.
  unfold assert_. destruct b; intro H; [ | discriminate ].
  apply ret_Ok in H. destruct H as [_ H]. split; [reflexivity | exact H].
Qed.

Lemma lift_Ok {A} (r : pyres A) (w w' : World) (a : A) :
  lift r w = Ok a w' -> r = Return a /\ w' = w.
Proof.
  destruct r as [a0 | e]; simpl; intro H; [ | discriminate ].
  apply ret_Ok in H. destruct H as [-> ->]. split; reflexivity.
Qed.

Lemma satisfies_bind {A B} (m : M A) (k : A -> M B) (w : World)
      (Q : B -> World -> Prop) (E : World -> Prop) :
  satisfies m w (fun a w' => satisfies (k a) w' Q E) E ->
  satisfies (bind m k) w Q E.
Proof.
  unfold satisfies, bind. destruct (m w); auto.
Qed.

Lemma satisfies_weaken {A} (m : M A) (w : World)
      (Q Q' : A -> World -> Prop) (E : World -> Prop) :
  satisfies m w Q E ->
  (forall a w', Q a w' -> Q' a w') ->
  satisfies m w Q' E.
Proof.
  unfold satisfies. destruct (m w); auto.
Qed.

Lemma satisfies_final {A} (m : M A) (w : World) (P : World -> Prop) :
  satisfies m w (fun _ w' => P w') P -> P (final_world (m w)).
Proof.
  unfold satisfies. destruct (m w); auto.
Qed.

Lemma silent_bind {A B} (m : M A) (k : A -> M B) :
  silent m -> (forall a, silent (k a)) -> silent (bind m k).
Proof.
  unfold silent, bind. intros Hm Hk w. specialize (Hm w).
  destruct (m w) as [a w1 | e w1 | w1]; simpl in *; auto.
  rewrite Hk. exact Hm.
Qed.

Lemma silent_ret {A} (a : A) : silent (ret a).
Proof. intro w. reflexivity. Qed.

Lemma silent_raise {A} (e : exn) : silent (@raise A e).
Proof. intro w. reflexivity. Qed.

Lemma silent_lift {A} (r : pyres A) : silent (lift r).
Proof. destruct r; intro w; reflexivity. Qed.

Lemma silent_assert (b : bool) : silent (assert_ b).
Proof. destruct b; intro w; reflexivity. Qed.

Lemma silent_write (e : Entry) : silent (write e).
Proof. intro w. reflexivity. Qed.

Lemma silent_time_time (env : Env) : silent (time_time env).
Proof. intro w. reflexivity. Qed.

Lemma silent_popen (env : Env) (argv : list string) : silent (popen env argv).
Proof. intro w. unfold popen. destruct (popen_ok env argv); reflexivity. Qed.

Lemma silent_satisfies {A} (m : M A) (w : World) :
  silent m -> calm w -> satisfies m w (fun _ w' => calm w') calm.
Proof.
  intros Hs Hc. specialize (Hs w). unfold satisfies, calm in *.
  destruct (m w); simpl in Hs; rewrite Hs; exact Hc.
Qed.

Create HintDb silent.

#[local] Hint Resolve silent_ret silent_raise silent_lift silent_assert
  silent_write silent_time_time silent_popen : silent.

Ltac silent_steps :=
  repeat first
    [ apply silent_bind; [ | intro ]
    | progress auto with silent
    | match goal with
      | |- silent (match ?x with _ => _ end) => destruct x
      | |- silent (if ?b then _ else _) => destruct b
      end ].

Lemma silent_StartTest (env : Env) (sourcefile_path cflags : string)
      (config : Config) :
  silent (StartTest env sourcefile_path cflags config).
Proof. unfold StartTest. silent_steps. Qed.

Lemma silent_PassTest (test : Logged) : silent (PassTest test).
Proof. unfold PassTest. silent_steps. Qed.

Lemma silent_FailTest (test : Test) (error : Reason)
      (out err : option string) :
  silent (FailTest test error out err).
Proof. unfold FailTest. silent_steps. Qed.

#[local] Hint Resolve silent_StartTest silent_PassTest silent_FailTest : silent.

Lemma silent_ProcessTestResult (env : Env) (test : Test) :
  silent (ProcessTestResult env test).
Proof. unfold ProcessTestResult. silent_steps. Qed.

#[local] Hint Resolve silent_ProcessTestResult : silent.

Lemma silent_process_results (env : Env) (finished_tests : list Test) :
  silent (process_results env finished_tests).
Proof.
  induction finished_tests as [ | test rest IH]; simpl; silent_steps.
Qed.

(* ------------------------------------------------------------------ *)
(** * The scheduler on runs that complete *)

Section SchedulerCounts.
Variable env : Env.

Lemma is_verdict_count_app (r added : list Entry) :
  count_verdicts (r ++ added) = count_verdicts r + count_verdicts added.
Proof.
  unfold count_verdicts. rewrite filter_app, length_app. reflexivity.
Qed.

Lemma count_verdicts_all (added : list Entry) :
  Forall (fun e => is_verdict e = true) added ->
  count_verdicts added = List.length added.
Proof.
  unfold count_verdicts. induction 1 as [ | e l He _ IH]; simpl.
  - reflexivity.
  - rewrite He. simpl. rewrite IH. reflexivity.
Qed.

Lemma dict_set_length (key : string) (test : Test) (d : Executing) :
  dict_has key d = false ->
  List.length (dict_set key test d) = S (List.length d).
Proof.
  induction d as [ | [k v] d IH]; simpl; intro H.
  - reflexivity.
  - apply orb_false_iff in H. destruct H as [Hk Hd].
    rewrite Hk. simpl. rewrite IH by exact Hd. reflexivity.
Qed.

Lemma dict_del_length (key : string) (d d' : Executing) :
  dict_del key d = Some d' -> S (List.length d') = List.length d.
Proof.
  revert d'. induction d as [ | [k v] d IH]; simpl; intros d' H.
  - discriminate.
  - destruct (String.eqb k key).
    + inversion H; subst. reflexivity.
    + destruct (dict_del key d) as [d0 | ]; simpl in H; [ | discriminate ].
      inversion H; subst. simpl. rewrite (IH d0 eq_refl). reflexivity.
Qed.

Lemma check_test_Ok (now : Z) (test test' : Test) (done : bool)
      (w w' : World) :
  check_test env now test w = Ok (test', done) w' ->
  resultfile w' = resultfile w.
Proof.
  unfold check_test, bind, proc_poll.
  destruct (poll_status env w (proc test)) as [rc | ].
  - intro H. apply ret_Ok in H. destruct H as [_ ->]. reflexivity.
  - destruct (terminate_timeout test <? now)%Z;
      [ | destruct (kill_timeout test <? now)%Z ];
      simpl; intro H; inversion H; reflexivity.
Qed.

Lemma check_tests_Ok (now : Z) (executing_tests : Executing) :
  forall finished_tests executing_tests' finished_tests' w w',
    check_tests env now executing_tests finished_tests w
    = Ok (executing_tests', finished_tests') w' ->
    List.length executing_tests' = List.length executing_tests /\
    resultfile w' = resultfile w.
Proof.
  induction executing_tests as [ | [key test] rest IH];
    intros fin ex' fin' w w' H; simpl in H.
  - apply ret_Ok in H. destruct H as [H ->]. inversion H. split; reflexivity.
  - apply bind_Ok in H. destruct H as [[test' done] [w1 [H1 H2]]].
    apply bind_Ok in H2. destruct H2 as [[rest' fin1] [w2 [H2 H3]]].
    apply ret_Ok in H3. destruct H3 as [H3 ->]. inversion H3; subst.
    apply check_test_Ok in H1. apply IH in H2. destruct H2 as [Hl Hr].
    split; [simpl; rewrite Hl; reflexivity | congruence].
Qed.

Lemma time_time_Ok (w w' : World) (t : Z) :
  time_time env w = Ok t w' ->
  t = clock env (ticks w) /\ resultfile w' = resultfile w.
Proof.
  unfold time_time. intro H. inversion H. split; reflexivity.
Qed.

Lemma poll_loop_Ok (fuel : nat) (busy_loop_timeout : Z) :
  forall executing_tests finished_tests executing_tests' finished_tests' w w',
    poll_loop env fuel busy_loop_timeout executing_tests finished_tests w
    = Ok (executing_tests', finished_tests') w' ->
    List.length executing_tests' = List.length executing_tests /\
    resultfile w' = resultfile w /\
    finished_tests' <> [].
Proof.
  induction fuel as [ | fuel IH]; intros ex fin ex' fin' w w' H; simpl in H.
  - destruct fin as [ | t fin]; simpl in H; [discriminate | ].
    apply ret_Ok in H. destruct H as [H ->]. inversion H; subst.
    repeat split; discriminate.
  - destruct fin as [ | t fin]; simpl in H.
    + apply bind_Ok in H. destruct H as [t0 [w1 [H1 H]]].
      apply bind_Ok in H. destruct H as [u [w2 [H2 H]]].
      apply bind_Ok in H. destruct H as [now [w3 [H3 H]]].
      apply bind_Ok in H. destruct H as [[ex1 fin1] [w4 [H4 H]]].
      apply IH in H. destruct H as [Hl [Hr Hne]].
      apply time_time_Ok in H1. apply assert_Ok in H2.
      apply time_time_Ok in H3. apply check_tests_Ok in H4.
      destruct H1 as [_ H1], H2 as [_ H2], H3 as [_ H3], H4 as [H4 H4'].
      subst w2. repeat split; try congruence.
    + apply ret_Ok in H. destruct H as [H ->]. inversion H; subst.
      repeat split; discriminate.
Qed.

Lemma del_finished_Ok (finished_tests : list Test) :
  forall executing_tests executing_tests' w w',
    del_finished finished_tests executing_tests w = Ok executing_tests' w' ->
    List.length executing_tests' + List.length finished_tests
    = List.length executing_tests /\
    w' = w.
Proof.
  induction finished_tests as [ | test rest IH]; intros ex ex' w w' H;
    simpl in H.
  - apply ret_Ok in H. destruct H as [-> ->]. simpl.
    split; [lia | reflexivity].
  - destruct (dict_del (test_name test) ex) as [d | ] eqn:Hd;
      [ | discriminate ].
    apply IH in H. destruct H as [Hl ->].
    apply dict_del_length in Hd. simpl. split; [lia | reflexivity].
Qed.

(** What a call of [CompleteAtLeastOneTest] that returns has done: the
    tests it returns, at least one, left the dictionary, and nothing was
    written. *)
Lemma CompleteAtLeastOneTest_Ok (fuel : nat) (executing_tests : Executing)
      (executing_tests' : Executing) (done : list Test) (w w' : World) :
  CompleteAtLeastOneTest env fuel executing_tests w
  = Ok (executing_tests', done) w' ->
  List.length executing_tests' + List.length done
  = List.length executing_tests /\
  resultfile w' = resultfile w /\
  done <> [].
Proof.
  unfold CompleteAtLeastOneTest. intro H.
  apply bind_Ok in H. destruct H as [t [w1 [H1 H]]].
  apply bind_Ok in H. destruct H as [[ex1 fin1] [w2 [H2 H]]].
  apply bind_Ok in H. destruct H as [ex2 [w3 [H3 H]]].
  apply ret_Ok in H. destruct H as [H ->]. inversion H; subst.
  apply time_time_Ok in H1. destruct H1 as [_ H1].
  apply poll_loop_Ok in H2. destruct H2 as [Hl [Hr Hne]].
  apply del_finished_Ok in H3. destruct H3 as [Hd ->].
  repeat split; [lia | congruence | exact Hne].
Qed.

End SchedulerCounts.

Section RunCounts.
Variable env : Env.
Variable fuel : nat.
Variable parallelism : Z.
Variables sourcefile_path cflags : string.

Lemma PassTest_Ok (test : Logged) (w w' : World) (u : unit) :
  PassTest test w = Ok u w' ->
  exists e, is_verdict e = true /\ resultfile w' = (resultfile w ++ [e])%list.
Proof.
  destruct test as [t | c]; simpl; unfold write; intro H; inversion H;
    simpl; eexists; (split; [ | reflexivity]); reflexivity.
Qed.

Lemma FailTest_Ok (test : Test) (error : Reason) (out err : option string)
      (w w' : World) (u : unit) :
  FailTest test error out err w = Ok u w' ->
  exists e, is_verdict e = true /\ resultfile w' = (resultfile w ++ [e])%list.
Proof.
  unfold FailTest, write. intro H. inversion H. simpl.
  eexists. split; [ | reflexivity]. reflexivity.
Qed.

(** The classifier writes one verdict for the test it is given. *)
Lemma ProcessTestResult_Ok (test : Test) (w w' : World) (u : unit) :
  ProcessTestResult env test w = Ok u w' ->
  exists e, is_verdict e = true /\ resultfile w' = (resultfile w ++ [e])%list.
Proof.
  unfold ProcessTestResult.
  destruct (negb (aborted_at test =? 0)%Z); [apply FailTest_Ok | ].
  destruct (test_expectations test) as [exps | ].
  - destruct (exit_status env test =? 0)%Z; [apply FailTest_Ok | ].
    destruct (List.length exps =? 0)%nat; [apply PassTest_Ok | ].
    destruct (existsb _ exps); [apply PassTest_Ok | apply FailTest_Ok].
  - destruct (exit_status env test =? 0)%Z;
      [apply PassTest_Ok | apply FailTest_Ok].
Qed.

Lemma process_results_Ok (finished_tests : list Test) :
  forall w w' u,
    process_results env finished_tests w = Ok u w' ->
    exists added,
      resultfile w' = (resultfile w ++ added)%list /\
      Forall (fun e => is_verdict e = true) added /\
      List.length added = List.length finished_tests.
Proof.
  induction finished_tests as [ | test rest IH]; intros w w' u H;
    simpl in H.
  - apply ret_Ok in H. destruct H as [_ ->]. exists [].
    rewrite app_nil_r. repeat split. constructor.
  - apply bind_Ok in H. destruct H as [u1 [w1 [H1 H2]]].
    apply ProcessTestResult_Ok in H1. destruct H1 as [e [He Hr1]].
    apply IH in H2. destruct H2 as [added [Hr2 [Hall Hlen]]].
    exists (e :: added). repeat split.
    + rewrite Hr2, Hr1, <- app_assoc. reflexivity.
    + constructor; assumption.
    + simpl. rewrite Hlen. reflexivity.
Qed.

(** One step of the loop over the descriptors: a disabled case is written
    as skipped at once, any other case enters the dictionary. *)
Lemma schedule_Ok (config : Config) (executing_tests : Executing)
      (finished_tests : list Test) (executing_tests' : Executing)
      (finished_tests' : list Test) (w w' : World) :
  schedule env fuel parallelism sourcefile_path cflags config
           executing_tests finished_tests w
  = Ok (executing_tests', finished_tests') w' ->
  (disabled config = true /\
   List.length executing_tests' + List.length finished_tests'
   = List.length executing_tests + List.length finished_tests /\
   resultfile w' =
   (resultfile w ++ [DisabledEntry (suite_name config) (name config)])%list)
  \/
  (disabled config = false /\
   List.length executing_tests' + List.length finished_tests'
   = S (List.length executing_tests + List.length finished_tests) /\
   resultfile w' = resultfile w).
Proof.
  unfold schedule. intro H.
  apply bind_Ok in H. destruct H as [[ex1 fin1] [w1 [H1 H]]].
  assert (Hwait :
            List.length ex1 + List.length fin1
            = List.length executing_tests + List.length finished_tests /\
            resultfile w1 = resultfile w).
  { destruct (Z.of_nat (List.length executing_tests) >=? parallelism)%Z.
    - apply bind_Ok in H1. destruct H1 as [[ex0 done] [w0 [H0 H1]]].
      apply ret_Ok in H1. destruct H1 as [H1 ->]. inversion H1; subst.
      apply CompleteAtLeastOneTest_Ok in H0. destruct H0 as [Hl [Hr _]].
      rewrite length_app. split; [lia | exact Hr].
    - apply ret_Ok in H1. destruct H1 as [H1 ->]. inversion H1; subst.
      split; reflexivity. }
  destruct Hwait as [Hl Hr].
  change (Py.startswith (name config) "DISABLED_") with (disabled config) in H.
  destruct (disabled config).
  - left. apply bind_Ok in H. destruct H as [u [w2 [H2 H]]].
    apply ret_Ok in H. destruct H as [H ->]. inversion H; subst.
    unfold PassTest, write in H2. inversion H2; subst; simpl.
    repeat split; [exact Hl | rewrite Hr; reflexivity].
  - right. apply bind_Ok in H. destruct H as [test [w2 [H2 H]]].
    apply bind_Ok in H. destruct H as [u [w3 [H3 H]]].
    apply ret_Ok in H. destruct H as [H ->]. inversion H; subst.
    apply assert_Ok in H3. destruct H3 as [Hin ->].
    apply negb_true_iff in Hin.
    apply StartTest_inv in H2. destruct H2 as [_ [_ [_ [_ [Hr2 _]]]]].
    rewrite (dict_set_length _ _ _ Hin).
    repeat split; [lia | congruence].
Qed.

Lemma schedule_all_Ok (test_configs : list Config) :
  forall executing_tests finished_tests executing_tests' finished_tests'
         w w',
    schedule_all env fuel parallelism sourcefile_path cflags test_configs
                 executing_tests finished_tests w
    = Ok (executing_tests', finished_tests') w' ->
    exists added,
      resultfile w' = (resultfile w ++ added)%list /\
      Forall (fun e => is_verdict e = true) added /\
      List.length added = List.length (filter disabled test_configs) /\
      List.length executing_tests' + List.length finished_tests'
      = List.length executing_tests + List.length finished_tests
        + List.length (filter enabled test_configs).
Proof.
  induction test_configs as [ | config rest IH];
    intros ex fin ex' fin' w w' H; simpl in H.
  - apply ret_Ok in H. destruct H as [H ->]. inversion H; subst.
    exists []. rewrite app_nil_r. simpl. repeat split; [constructor | lia].
  - apply bind_Ok in H. destruct H as [[ex1 fin1] [w1 [H1 H]]].
    apply IH in H. destruct H as [added [Hr [Hall [Hlen Hsum]]]].
    apply schedule_Ok in H1. simpl. unfold enabled at 1.
    destruct H1 as [[Hd [Hl Hr1]] | [Hd [Hl Hr1]]]; rewrite Hd; simpl.
    + exists (DisabledEntry (suite_name config) (name config) :: added).
      repeat split.
      * rewrite Hr, Hr1, <- app_assoc. reflexivity.
      * constructor; [reflexivity | exact Hall].
      * simpl. rewrite Hlen. reflexivity.
      * lia.
    + exists added. repeat split; try assumption.
      * rewrite Hr, Hr1. reflexivity.
      * lia.
Qed.

Lemma drain_Ok (rounds : nat) :
  forall executing_tests finished_tests finished_tests' w w',
    drain env rounds fuel executing_tests finished_tests w
    = Ok finished_tests' w' ->
    List.length finished_tests'
    = List.length executing_tests + List.length finished_tests /\
    resultfile w' = resultfile w.
Proof.
  induction rounds as [ | rounds IH]; intros ex fin fin' w w' H; simpl in H.
  - destruct ex as [ | item ex]; simpl in H; [ | discriminate ].
    apply ret_Ok in H. destruct H as [-> ->]. split; reflexivity.
  - destruct ex as [ | item ex]; simpl in H.
    + apply ret_Ok in H. destruct H as [-> ->]. split; reflexivity.
    + apply bind_Ok in H. destruct H as [[ex1 done] [w1 [H1 H]]].
      apply IH in H. destruct H as [Hl Hr].
      apply CompleteAtLeastOneTest_Ok in H1. destruct H1 as [Hl1 [Hr1 _]].
      rewrite length_app in Hl. simpl in Hl1 |- *.
      split; [lia | congruence].
Qed.

(** Every enabled descriptor ends in the finished list and every disabled
    one in the report. *)
Lemma run_tests_Ok (test_configs : list Config) (finished_tests : list Test)
      (w w' : World) :
  run_tests env fuel parallelism sourcefile_path cflags test_configs w
  = Ok finished_tests w' ->
  exists added,
    resultfile w' = (resultfile w ++ added)%list /\
    Forall (fun e => is_verdict e = true) added /\
    List.length added = List.length (filter disabled test_configs) /\
    List.length finished_tests = List.length (filter enabled test_configs).
Proof.
  unfold run_tests. intro H.
  apply bind_Ok in H. destruct H as [[ex fin] [w1 [H1 H]]].
  apply schedule_all_Ok in H1. destruct H1 as [added [Hr [Hall [Hlen Hsum]]]].
  apply drain_Ok in H. destruct H as [Hl Hr'].
  exists added. simpl in Hsum.
  repeat split; [congruence | exact Hall | exact Hlen | lia].
Qed.

Lemma filter_disabled_enabled (test_configs : list Config) :
  List.length (filter disabled test_configs)
  + List.length (filter enabled test_configs)
  = List.length test_configs.
Proof.
  induction test_configs as [ | c l IH]; simpl; [reflexivity | ].
  unfold enabled at 1. destruct (disabled c); simpl; lia.
Qed.

End RunCounts.

(* ------------------------------------------------------------------ *)
(** * The report of a run that completes *)

Lemma ExtractTestConfigs_head (env : Env) (sourcefile_path : string)
      (test_configs : list Config) :
  ExtractTestConfigs env sourcefile_path = Return test_configs ->
  exists rest,
    test_configs = sanity_config (suite_name_of sourcefile_path) :: rest.
Proof.
  unfold ExtractTestConfigs.
  destruct (files env sourcefile_path) as [sourcefile | ]; simpl;
    [ | discriminate ].
  intro H. apply scan_lines_appends in H.
  destruct H as [added [H _]]. exists added. exact H.
Qed.

(** C6.  For every run that completes, whatever the order in which the
    launched invocations finish, the report consists of the header, then
    one verdict entry (pass, fail or skipped) per extracted descriptor, the
    implicit sanity case included, then the single stats entry. *)
Theorem one_verdict_per_descriptor :
  forall (env : Env) (fuel : nat)
         (prog arg1 sourcefile_path cflags resultfile_path : string)
         (test_configs : list Config) (w w' : World),
    ExtractTestConfigs env sourcefile_path = Return test_configs ->
    main env fuel [prog; arg1; sourcefile_path; cflags; resultfile_path] w
    = Ok tt w' ->
    count_verdicts (resultfile w') = List.length test_configs /\
    exists verdicts stats,
      resultfile w'
      = (HeaderEntry sourcefile_path :: verdicts ++ [stats])%list /\
      Forall (fun e => is_verdict e = true) verdicts /\
      List.length verdicts = List.length test_configs /\
      is_verdict stats = false.
Proof.
  intros env fuel prog arg1 sourcefile_path cflags resultfile_path
         test_configs w w' Hextract H.
  unfold main in H.
  apply bind_Ok in H. destruct H as [u0 [w0 [H0 H]]].
  apply bind_Ok in H. destruct H as [parallelism [w1 [H1 H]]].
  apply bind_Ok in H. destruct H as [started [w2 [H2 H]]].
  apply bind_Ok in H. destruct H as [u3 [w3 [H3 H]]].
  apply bind_Ok in H. destruct H as [configs [w4 [H4 H]]].
  apply bind_Ok in H. destruct H as [extract_done [w5 [H5 H]]].
  apply bind_Ok in H. destruct H as [u6 [w6 [H6 H]]].
  apply bind_Ok in H. destruct H as [u7 [w7 [H7 H]]].
  apply bind_Ok in H. destruct H as [header_written [w8 [H8 H]]].
  apply bind_Ok in H. destruct H as [finished_tests [w9 [H9 H]]].
  apply bind_Ok in H. destruct H as [compile_done [w10 [H10 H]]].
  apply bind_Ok in H. destruct H as [u11 [w11 [H11 H]]].
  apply bind_Ok in H. destruct H as [results_processed [w12 [H12 H]]].
  apply bind_Ok in H. destruct H as [first [w13 [H13 H]]].
  apply lift_Ok in H4. destruct H4 as [H4 _].
  rewrite Hextract in H4. inversion H4; subst configs; clear H4.
  assert (Hopen : resultfile w6 = []).
  { unfold open_resultfile in H6.
    destruct (writable env resultfile_path); inversion H6; reflexivity. }
  assert (Hheader : resultfile w7 = [HeaderEntry sourcefile_path]).
  { unfold write in H7. inversion H7; simpl. rewrite Hopen. reflexivity. }
  apply time_time_Ok in H8. destruct H8 as [_ H8].
  apply run_tests_Ok in H9.
  destruct H9 as [skipped [Hr9 [Hall9 [Hlen9 Hfin]]]].
  apply time_time_Ok in H10. destruct H10 as [_ H10].
  apply process_results_Ok in H11.
  destruct H11 as [judged [Hr11 [Hall11 Hlen11]]].
  apply time_time_Ok in H12. destruct H12 as [_ H12].
  assert (Hw13 : w13 = w12).
  { destruct finished_tests; simpl in H13; [discriminate | ].
    apply ret_Ok in H13. destruct H13 as [_ H13]. exact H13. }
  unfold WriteStats, write in H. inversion H; subst w'; clear H. simpl.
  assert (Hreport :
            resultfile w13
            = (HeaderEntry sourcefile_path :: skipped ++ judged)%list).
  { rewrite Hw13, H12, Hr11, H10, Hr9, H8, Hheader. simpl.
    reflexivity. }
  assert (Hlen : List.length (skipped ++ judged)%list
                 = List.length test_configs).
  { rewrite length_app, Hlen9, Hlen11, Hfin.
    apply filter_disabled_enabled. }
  assert (Hall : Forall (fun e => is_verdict e = true) (skipped ++ judged)%list).
  { apply Forall_app. split; assumption. }
  rewrite Hreport. split.
  - rewrite is_verdict_count_app.
    change (HeaderEntry sourcefile_path :: skipped ++ judged)%list
      with ([HeaderEntry sourcefile_path] ++ (skipped ++ judged))%list.
    rewrite is_verdict_count_app.
    rewrite (count_verdicts_all Hall), Hlen.
    unfold count_verdicts. simpl. lia.
  - eexists (skipped ++ judged)%list, _.
    split; [ simpl; reflexivity | ].
    split; [exact Hall | split; [exact Hlen | reflexivity]].
Qed.

Lemma one_verdict_per_descriptor_witness :
  exists w',
    Demo.run Demo.passing "1" = Ok tt w' /\
    count_verdicts (resultfile w') = 3.
Proof.
  eexists. split; [vm_compute; reflexivity | ].
  refine (proj1 (@one_verdict_per_descriptor
                   (Demo.env_of Demo.passing) 100 "nocompile_driver.py" "1"
                   "base/bind_unittest.nc" "-Wall  -I." "out.cc"
                   [sanity_config "NoCompileBindUnittest";
                    {| name := "NCTEST_FOO";
                       suite_name := "NoCompileBindUnittest";
                       expectations :=
                         Some [Demo.literal_pattern "no matching function"] |};
                    {| name := "DISABLED_NCTEST_BAR";
                       suite_name := "NoCompileBindUnittest";
                       expectations := Some [] |}]
                   initial_world _ _ _)).
  - vm_compute. reflexivity.
  - vm_compute. reflexivity.
Defined.

(** C10.  In every run that reaches the writing of the stats, the list of
    finished tests is non-empty, so taking its first element for the suite
    name does not fail: the reserved name of the implicit sanity case does
    not carry the disabling prefix, so the case is launched, drained and
    placed in the finished list. *)
Theorem finished_tests_nonempty :
  forall (env : Env) (fuel : nat) (parallelism : Z)
         (sourcefile_path cflags : string) (test_configs : list Config)
         (finished_tests : list Test) (w w' : World),
    ExtractTestConfigs env sourcefile_path = Return test_configs ->
    run_tests env fuel parallelism sourcefile_path cflags test_configs w
    = Ok finished_tests w' ->
    disabled (sanity_config (suite_name_of sourcefile_path)) = false /\
    finished_tests <> [] /\
    exists first, forall w'', first_test finished_tests w'' = Ok first w''.
Proof.
  intros env fuel parallelism sourcefile_path cflags test_configs
         finished_tests w w' Hextract Hrun.
  split; [reflexivity | ].
  apply ExtractTestConfigs_head in Hextract. destruct Hextract as [rest ->].
  apply run_tests_Ok in Hrun. destruct Hrun as [_ [_ [_ [_ Hlen]]]].
  simpl in Hlen.
  destruct finished_tests as [ | first others]; [discriminate | ].
  split; [discriminate | ].
  exists first. intro w''. reflexivity.
Qed.

Lemma finished_tests_nonempty_witness :
  exists first,
    forall w'', first_test (Demo.finished Demo.passing 1) w'' = Ok first w''.
Proof.
  refine (proj2 (proj2 (@finished_tests_nonempty
                   (Demo.env_of Demo.passing) 100 1 "base/bind_unittest.nc"
                   "-Wall  -I."
                   [sanity_config "NoCompileBindUnittest";
                    {| name := "NCTEST_FOO";
                       suite_name := "NoCompileBindUnittest";
                       expectations :=
                         Some [Demo.literal_pattern "no matching function"] |};
                    {| name := "DISABLED_NCTEST_BAR";
                       suite_name := "NoCompileBindUnittest";
                       expectations := Some [] |}]
                   (Demo.finished Demo.passing 1)
                   (Demo.world_at_launch Demo.passing) _ _ _))).
  - vm_compute. reflexivity.
  - vm_compute. reflexivity.
Defined.

(* ------------------------------------------------------------------ *)
(** * The escalation loop: which signals are sent *)

Section Escalation.
Variable env : Env.

Lemma calm_sent (w : World) (p : Popen) (now : Z) :
  calm w ->
  calm (final_world (send_signal SIGTERM p now w)).
Proof.
  unfold calm. simpl. intro H. apply Forall_app. split; [exact H | ].
  constructor; [simpl; discriminate | constructor].
Qed.

Lemma ordered_set_finished (now rc : Z) (t : Test) :
  ordered t -> ordered (set_finished now rc t).
Proof. unfold ordered. simpl. auto. Qed.

Lemma ordered_set_aborted (now : Z) (t : Test) :
  ordered t -> ordered (set_aborted now t).
Proof. unfold ordered. simpl. auto. Qed.

(** With the deadlines in order the kill branch is not taken: past the
    kill deadline is past the terminate deadline. *)
Lemma check_test_calm (now : Z) (test : Test) (w : World) :
  calm w -> ordered test ->
  satisfies (check_test env now test) w
            (fun r w' => calm w' /\ ordered (fst r)) calm.
Proof.
  intros Hc Ho. unfold satisfies, check_test, bind, proc_poll.
  destruct (poll_status env w (proc test)) as [rc | ]; simpl.
  - split; [exact Hc | apply ordered_set_finished; exact Ho].
  - destruct (terminate_timeout test <? now)%Z eqn:Hterm; simpl.
    + split; [apply (calm_sent (proc test) now Hc) | ].
      apply ordered_set_aborted; exact Ho.
    + destruct (kill_timeout test <? now)%Z eqn:Hkill; simpl.
      * apply Z.ltb_ge in Hterm. apply Z.ltb_lt in Hkill.
        unfold ordered in Ho. lia.
      * split; assumption.
Qed.

Lemma check_tests_calm (now : Z) (executing_tests : Executing) :
  forall finished_tests w,
    calm w -> all_ordered executing_tests ->
    satisfies (check_tests env now executing_tests finished_tests) w
              (fun r w' => calm w' /\ all_ordered (fst r)) calm.
Proof.
  induction executing_tests as [ | [key test] rest IH];
    intros fin w Hc Ho; simpl.
  - unfold satisfies, ret. simpl. split; [exact Hc | constructor].
  - inversion Ho as [ | item l Ht Hrest]; subst.
    apply satisfies_bind.
    eapply satisfies_weaken; [apply check_test_calm; assumption | ].
    intros [test' done] w1 [Hc1 Ho1]. simpl in Ho1.
    apply satisfies_bind.
    eapply satisfies_weaken; [apply IH; assumption | ].
    intros [rest' fin'] w2 [Hc2 Ho2]. simpl in Ho2.
    unfold satisfies, ret. simpl.
    split; [exact Hc2 | constructor; assumption].
Qed.

Lemma time_time_calm (w : World) :
  calm w -> satisfies (time_time env) w (fun _ w' => calm w') calm.
Proof. apply silent_satisfies. apply silent_time_time. Qed.

Lemma poll_loop_calm (fuel : nat) (busy_loop_timeout : Z) :
  forall executing_tests finished_tests w,
    calm w -> all_ordered executing_tests ->
    satisfies (poll_loop env fuel busy_loop_timeout executing_tests
                         finished_tests) w
              (fun r w' => calm w' /\ all_ordered (fst r)) calm.
Proof.
  induction fuel as [ | fuel IH]; intros ex fin w Hc Ho; simpl.
  - destruct (List.length fin =? 0)%nat; unfold satisfies; simpl; auto.
  - destruct (List.length fin =? 0)%nat;
      [ | unfold satisfies; simpl; auto ].
    apply satisfies_bind.
    eapply satisfies_weaken; [apply time_time_calm; exact Hc | ].
    intros t w1 Hc1. apply satisfies_bind.
    eapply satisfies_weaken;
      [apply silent_satisfies; [apply silent_assert | exact Hc1] | ].
    intros u w2 Hc2. apply satisfies_bind.
    eapply satisfies_weaken; [apply time_time_calm; exact Hc2 | ].
    intros now w3 Hc3. apply satisfies_bind.
    eapply satisfies_weaken; [apply check_tests_calm; eassumption | ].
    intros [ex1 fin1] w4 [Hc4 Ho4]. simpl in Ho4.
    apply IH; assumption.
Qed.

Lemma dict_del_Forall (P : string * Test -> Prop) (key : string) :
  forall d d', dict_del key d = Some d' -> Forall P d -> Forall P d'.
Proof.
  induction d as [ | [k v] d IH]; simpl; intros d' H Hall.
  - discriminate.
  - inversion Hall as [ | item l Hp Hrest]; subst.
    destruct (String.eqb k key).
    + inversion H; subst. exact Hrest.
    + destruct (dict_del key d) as [d0 | ]; simpl in H; [ | discriminate ].
      inversion H; subst. constructor; [exact Hp | ].
      apply IH; [reflexivity | exact Hrest].
Qed.

Lemma dict_set_Forall (P : string * Test -> Prop) (key : string)
      (test : Test) :
  forall d, Forall P d -> P (key, test) -> Forall P (dict_set key test d).
Proof.
  induction d as [ | [k v] d IH]; simpl; intros Hall Hp.
  - constructor; [exact Hp | constructor].
  - inversion Hall as [ | item l Hkv Hrest]; subst.
    destruct (String.eqb k key); constructor; auto.
Qed.

Lemma del_finished_calm (finished_tests : list Test) :
  forall executing_tests w,
    calm w -> all_ordered executing_tests ->
    satisfies (del_finished finished_tests executing_tests) w
              (fun d w' => calm w' /\ all_ordered d) calm.
Proof.
  induction finished_tests as [ | test rest IH]; intros ex w Hc Ho; simpl.
  - unfold satisfies, ret. simpl. split; assumption.
  - destruct (dict_del (test_name test) ex) as [d | ] eqn:Hd.
    + apply IH; [exact Hc | ].
      eapply dict_del_Forall; eassumption.
    + unfold satisfies, raise. simpl. exact Hc.
Qed.

Lemma CompleteAtLeastOneTest_calm (fuel : nat) (executing_tests : Executing)
      (w : World) :
  calm w -> all_ordered executing_tests ->
  satisfies (CompleteAtLeastOneTest env fuel executing_tests) w
            (fun r w' => calm w' /\ all_ordered (fst r)) calm.
Proof.
  intros Hc Ho. unfold CompleteAtLeastOneTest.
  apply satisfies_bind.
  eapply satisfies_weaken; [apply time_time_calm; exact Hc | ].
  intros t w1 Hc1. apply satisfies_bind.
  eapply satisfies_weaken; [apply poll_loop_calm; eassumption | ].
  intros [ex1 fin1] w2 [Hc2 Ho2]. simpl in Ho2.
  apply satisfies_bind.
  eapply satisfies_weaken; [apply del_finished_calm; eassumption | ].
  intros ex2 w3 [Hc3 Ho3].
  unfold satisfies, ret. simpl. split; assumption.
Qed.

Lemma StartTest_deadlines (sourcefile_path cflags : string)
      (config : Config) (w w' : World) (test : Test) :
  StartTest env sourcefile_path cflags config w = Ok test w' ->
  terminate_timeout test = (started_at test + 60)%Z /\
  kill_timeout test = (started_at test + 62)%Z /\
  aborted_at test = 0%Z.
Proof.
  intro H. apply StartTest_inv in H.
  destruct H as [argv [_ [_ [-> _]]]]. simpl.
  repeat split.
Qed.

Lemma StartTest_calm (sourcefile_path cflags : string) (config : Config)
      (w : World) :
  calm w ->
  satisfies (StartTest env sourcefile_path cflags config) w
            (fun t w' => calm w' /\ ordered t) calm.
Proof.
  intro Hc.
  pose proof (silent_StartTest env sourcefile_path cflags config w) as Hs.
  unfold satisfies.
  destruct (StartTest env sourcefile_path cflags config w)
    as [test w' | e w' | w'] eqn:H; simpl in Hs; unfold calm in *;
    rewrite Hs; try exact Hc.
  split; [exact Hc | ].
  apply StartTest_deadlines in H. destruct H as [Ht [Hk _]].
  unfold ordered. lia.
Qed.

End Escalation.

Section RunSignals.
Variable env : Env.
Variable fuel : nat.
Variable parallelism : Z.
Variables sourcefile_path cflags : string.

Lemma schedule_calm (config : Config) (executing_tests : Executing)
      (finished_tests : list Test) (w : World) :
  calm w -> all_ordered executing_tests ->
  satisfies (schedule env fuel parallelism sourcefile_path cflags config
                      executing_tests finished_tests) w
            (fun r w' => calm w' /\ all_ordered (fst r)) calm.
Proof.
  intros Hc Ho. unfold schedule.
  apply satisfies_bind.
  apply satisfies_weaken
    with (Q := fun r w' => calm w' /\ all_ordered (fst r)).
  - destruct (Z.of_nat (List.length executing_tests) >=? parallelism)%Z.
    + apply satisfies_bind.
      eapply satisfies_weaken;
        [apply CompleteAtLeastOneTest_calm; assumption | ].
      intros [ex1 done] w1 [Hc1 Ho1]. simpl in Ho1.
      unfold satisfies, ret. simpl. split; assumption.
    + unfold satisfies, ret. simpl. split; assumption.
  - intros [ex1 fin1] w1 [Hc1 Ho1]. simpl in Ho1.
    destruct (Py.startswith (name config) "DISABLED_").
    + apply satisfies_bind.
      eapply satisfies_weaken;
        [apply silent_satisfies; [apply silent_PassTest | exact Hc1] | ].
      intros u w2 Hc2. unfold satisfies, ret. simpl. split; assumption.
    + apply satisfies_bind.
      eapply satisfies_weaken; [apply StartTest_calm; exact Hc1 | ].
      intros test w2 [Hc2 Ht]. apply satisfies_bind.
      eapply satisfies_weaken;
        [apply silent_satisfies; [apply silent_assert | exact Hc2] | ].
      intros u w3 Hc3. unfold satisfies, ret. simpl.
      split; [exact Hc3 | ].
      apply dict_set_Forall; assumption.
Qed.

Lemma schedule_all_calm (test_configs : list Config) :
  forall executing_tests finished_tests w,
    calm w -> all_ordered executing_tests ->
    satisfies (schedule_all env fuel parallelism sourcefile_path cflags
                            test_configs executing_tests finished_tests) w
              (fun r w' => calm w' /\ all_ordered (fst r)) calm.
Proof.
  induction test_configs as [ | config rest IH]; intros ex fin w Hc Ho;
    simpl.
  - unfold satisfies, ret. simpl. split; assumption.
  - apply satisfies_bind.
    eapply satisfies_weaken; [apply schedule_calm; assumption | ].
    intros [ex1 fin1] w1 [Hc1 Ho1]. simpl in Ho1.
    apply IH; assumption.
Qed.

Lemma drain_calm (rounds : nat) :
  forall executing_tests finished_tests w,
    calm w -> all_ordered executing_tests ->
    satisfies (drain env rounds fuel executing_tests finished_tests) w
              (fun _ w' => calm w') calm.
Proof.
  induction rounds as [ | rounds IH]; intros ex fin w Hc Ho; simpl.
  - destruct (0 <? List.length ex)%nat; unfold satisfies; simpl; auto.
  - destruct (0 <? List.length ex)%nat; [ | unfold satisfies; simpl; auto ].
    apply satisfies_bind.
    eapply satisfies_weaken;
      [apply CompleteAtLeastOneTest_calm; assumption | ].
    intros [ex1 done] w1 [Hc1 Ho1]. simpl in Ho1.
    apply IH; assumption.
Qed.

Lemma run_tests_calm (test_configs : list Config) (w : World) :
  calm w ->
  satisfies (run_tests env fuel parallelism sourcefile_path cflags
                       test_configs) w
            (fun _ w' => calm w') calm.
Proof.
  intro Hc. unfold run_tests. apply satisfies_bind.
  eapply satisfies_weaken;
    [apply schedule_all_calm; [exact Hc | constructor] | ].
  intros [ex fin] w1 [Hc1 Ho1]. simpl in Ho1.
  apply drain_calm; assumption.
Qed.

End RunSignals.

Lemma silent_set_LC_ALL (v : string) : silent (set_LC_ALL v).
Proof. intro w. reflexivity. Qed.

Lemma silent_open_resultfile (env : Env) (resultfile_path : string) :
  silent (open_resultfile env resultfile_path).
Proof.
  intro w. unfold open_resultfile.
  destruct (writable env resultfile_path); reflexivity.
Qed.

Lemma silent_print (line : string) : silent (print line).
Proof. intro w. reflexivity. Qed.

Lemma silent_first_test (finished_tests : list Test) :
  silent (first_test finished_tests).
Proof. destruct finished_tests; intro w; reflexivity. Qed.

Lemma silent_ValidateInput (parallelism : Z) :
  silent (ValidateInput parallelism).
Proof. unfold ValidateInput. apply silent_assert. Qed.

#[local] Hint Resolve silent_set_LC_ALL silent_open_resultfile silent_print
  silent_first_test silent_process_results silent_ValidateInput : silent.

(** One step of a sequence whose first computation sends no signal. *)
Ltac calm_step :=
  apply satisfies_bind;
  eapply satisfies_weaken;
  [ apply silent_satisfies; [ solve [auto with silent] | assumption ]
  | let a := fresh "a" in
    let w := fresh "w" in
    let Hc := fresh "Hc" in
    intros a w Hc ].

Lemma main_calm (env : Env) (fuel : nat) (argv : list string) (w : World) :
  calm w -> calm (final_world (main env fuel argv w)).
Proof.
  intro Hc. apply satisfies_final.
  assert (Husage :
            satisfies (print (usage (nth 0 argv "")) ;;
                       raise (SystemExit 1)) w
                      (fun (_ : unit) w' => calm w') calm).
  { apply silent_satisfies; [ | exact Hc ].
    apply silent_bind; [apply silent_print | intro; apply silent_raise]. }
  unfold main.
  destruct argv as [ | prog [ | arg1 [ | sourcefile_path [ | cflags
                   [ | resultfile_path [ | extra argv]]]]]];
    try exact Husage.
  clear Husage.
  do 9 calm_step.
  apply satisfies_bind.
  eapply satisfies_weaken; [apply run_tests_calm; assumption | ].
  intros finished_tests w9 Hc9.
  do 4 calm_step.
  apply silent_satisfies; [ | assumption ].
  unfold WriteStats. apply silent_write.
Qed.

Lemma skipn_signals (l added : list Sent) :
  skipn (List.length l) (l ++ added) = added.
Proof.
  induction l as [ | s l IH]; simpl; [reflexivity | exact IH].
Qed.

(** C9.  The hard-kill branch of the escalation loop is unreachable.
    Every launched invocation has its kill deadline two seconds after its
    terminate deadline; for a test whose deadlines are so ordered one step
    of the loop sends no kill signal, since an instant past the kill
    deadline is past the terminate deadline and the terminate branch comes
    first; and no run of the driver, however it ends, sends a kill
    signal. *)
Theorem kill_is_never_sent :
  forall (env : Env),
    (forall sourcefile_path cflags config w w' test,
        StartTest env sourcefile_path cflags config w = Ok test w' ->
        (terminate_timeout test < kill_timeout test)%Z) /\
    (forall now test w,
        (terminate_timeout test <= kill_timeout test)%Z ->
        Forall (fun s => sent_signal s <> SIGKILL)
               (sent_during w (final_world (check_test env now test w)))) /\
    (forall fuel argv,
        Forall (fun s => sent_signal s <> SIGKILL)
               (signals (final_world (main env fuel argv initial_world)))).
Proof.
  intro env. split; [ | split ].
  - intros sourcefile_path cflags config w w' test H.
    apply StartTest_deadlines in H. destruct H as [Ht [Hk _]]. lia.
  - intros now test w Ho.
    unfold sent_during, check_test, bind, proc_poll.
    destruct (poll_status env w (proc test)) as [rc | ]; simpl.
    + rewrite skipn_all. constructor.
    + destruct (terminate_timeout test <? now)%Z eqn:Hterm; simpl.
      * rewrite skipn_signals.
        constructor; [simpl; discriminate | constructor].
      * destruct (kill_timeout test <? now)%Z eqn:Hkill; simpl.
        -- apply Z.ltb_ge in Hterm. apply Z.ltb_lt in Hkill. lia.
        -- rewrite skipn_all. constructor.
  - intros fuel argv. apply (@main_calm env fuel argv initial_world).
    constructor.
Qed.

(** In the run in which NCTEST_FOO hangs the child is alive at time 64,
    past its kill deadline 63, and what it is sent is the terminate signal
    again. *)
Example hanging_child_is_not_killed :
  kill_timeout Demo.foo_hung = 63%Z /\
  existsb is_kill (signals (final_world (Demo.run Demo.hanging "2"))) = false /\
  last (signals (final_world (Demo.run Demo.hanging "2")))
       {| sent_signal := SIGKILL; sent_to := 0; sent_at := 0 |}
  = {| sent_signal := SIGTERM; sent_to := 1; sent_at := 64 |}.
Proof. repeat split; vm_compute; reflexivity. Qed.

(* ------------------------------------------------------------------ *)
(** * Names of the invocations in flight *)

Section InFlightNames.
Variable env : Env.

Lemma dict_has_In (key : string) (d : Executing) :
  dict_has key d = true <-> In key (keys d).
Proof.
  unfold dict_has, keys. rewrite existsb_exists. split.
  - intros [[k v] [Hin Heq]]. simpl in Heq. apply String.eqb_eq in Heq.
    subst k. apply in_map_iff. exists (key, v). split; [reflexivity | exact Hin].
  - intro H. apply in_map_iff in H. destruct H as [[k v] [Hk Hin]].
    simpl in Hk. subst k. exists (key, v). split; [exact Hin | ].
    simpl. apply String.eqb_refl.
Qed.

Lemma keys_dict_set_new (key : string) (test : Test) (d : Executing) :
  dict_has key d = false ->
  keys (dict_set key test d) = (keys d ++ [key])%list.
Proof.
  induction d as [ | [k v] d IH]; simpl; intro H.
  - reflexivity.
  - apply orb_false_iff in H. destruct H as [Hk Hd].
    rewrite Hk. simpl. rewrite IH by exact Hd. reflexivity.
Qed.

Lemma keys_dict_del_incl (key : string) :
  forall d d' k, dict_del key d = Some d' -> In k (keys d') -> In k (keys d).
Proof.
  induction d as [ | [k0 v] d IH]; simpl; intros d' k H Hin.
  - discriminate.
  - destruct (String.eqb k0 key).
    + inversion H; subst. right. exact Hin.
    + destruct (dict_del key d) as [d0 | ] eqn:Hd; simpl in H;
        [ | discriminate ].
      inversion H; subst. simpl in Hin. destruct Hin as [Hin | Hin].
      * left. exact Hin.
      * right. eapply IH; [reflexivity | exact Hin].
Qed.

Lemma keys_dict_del_NoDup (key : string) :
  forall d d', dict_del key d = Some d' -> NoDup (keys d) -> NoDup (keys d').
Proof.
  induction d as [ | [k0 v] d IH]; simpl; intros d' H Hnd.
  - discriminate.
  - inversion Hnd as [ | x l Hnotin Hrest]; subst.
    destruct (String.eqb k0 key).
    + inversion H; subst. exact Hrest.
    + destruct (dict_del key d) as [d0 | ] eqn:Hd; simpl in H;
        [ | discriminate ].
      inversion H; subst. simpl. constructor.
      * intro Hin. apply Hnotin. eapply keys_dict_del_incl; eassumption.
      * apply IH; [reflexivity | exact Hrest].
Qed.

Lemma check_tests_keys (now : Z) (executing_tests : Executing) :
  forall finished_tests executing_tests' finished_tests' w w',
    check_tests env now executing_tests finished_tests w
    = Ok (executing_tests', finished_tests') w' ->
    keys executing_tests' = keys executing_tests.
Proof.
  induction executing_tests as [ | [key test] rest IH];
    intros fin ex' fin' w w' H; simpl in H.
  - apply ret_Ok in H. destruct H as [H _]. inversion H. reflexivity.
  - apply bind_Ok in H. destruct H as [[test' done] [w1 [H1 H2]]].
    apply bind_Ok in H2. destruct H2 as [[rest' fin1] [w2 [H2 H3]]].
    apply ret_Ok in H3. destruct H3 as [H3 _]. inversion H3; subst.
    apply IH in H2. simpl. rewrite H2. reflexivity.
Qed.

Lemma poll_loop_keys (fuel : nat) (busy_loop_timeout : Z) :
  forall executing_tests finished_tests executing_tests' finished_tests' w w',
    poll_loop env fuel busy_loop_timeout executing_tests finished_tests w
    = Ok (executing_tests', finished_tests') w' ->
    keys executing_tests' = keys executing_tests.
Proof.
  induction fuel as [ | fuel IH]; intros ex fin ex' fin' w w' H; simpl in H.
  - destruct (List.length fin =? 0)%nat; [discriminate | ].
    apply ret_Ok in H. destruct H as [H _]. inversion H. reflexivity.
  - destruct (List.length fin =? 0)%nat.
    + apply bind_Ok in H. destruct H as [t0 [w1 [_ H]]].
      apply bind_Ok in H. destruct H as [u [w2 [_ H]]].
      apply bind_Ok in H. destruct H as [now [w3 [_ H]]].
      apply bind_Ok in H. destruct H as [[ex1 fin1] [w4 [H4 H]]].
      apply IH in H. apply check_tests_keys in H4. congruence.
    + apply ret_Ok in H. destruct H as [H _]. inversion H. reflexivity.
Qed.

Lemma del_finished_NoDup (finished_tests : list Test) :
  forall executing_tests executing_tests' w w',
    del_finished finished_tests executing_tests w = Ok executing_tests' w' ->
    NoDup (keys executing_tests) -> NoDup (keys executing_tests').
Proof.
  induction finished_tests as [ | test rest IH]; intros ex ex' w w' H Hnd;
    simpl in H.
  - apply ret_Ok in H. destruct H as [<- _]. exact Hnd.
  - destruct (dict_del (test_name test) ex) as [d | ] eqn:Hd;
      [ | discriminate ].
    eapply IH; [exact H | ].
    eapply keys_dict_del_NoDup; eassumption.
Qed.

Lemma CompleteAtLeastOneTest_NoDup (fuel : nat)
      (executing_tests executing_tests' : Executing) (done : list Test)
      (w w' : World) :
  CompleteAtLeastOneTest env fuel executing_tests w
  = Ok (executing_tests', done) w' ->
  NoDup (keys executing_tests) -> NoDup (keys executing_tests').
Proof.
  unfold CompleteAtLeastOneTest. intros H Hnd.
  apply bind_Ok in H. destruct H as [t [w1 [_ H]]].
  apply bind_Ok in H. destruct H as [[ex1 fin1] [w2 [H2 H]]].
  apply bind_Ok in H. destruct H as [ex2 [w3 [H3 H]]].
  apply ret_Ok in H. destruct H as [H _]. inversion H; subst.
  apply poll_loop_keys in H2.
  eapply del_finished_NoDup; [exact H3 | ].
  rewrite H2. exact Hnd.
Qed.

Lemma schedule_NoDup (fuel : nat) (parallelism : Z)
      (sourcefile_path cflags : string) (config : Config)
      (executing_tests executing_tests' : Executing)
      (finished_tests finished_tests' : list Test) (w w' : World) :
  schedule env fuel parallelism sourcefile_path cflags config
           executing_tests finished_tests w
  = Ok (executing_tests', finished_tests') w' ->
  NoDup (keys executing_tests) -> NoDup (keys executing_tests').
Proof.
  unfold schedule. intros H Hnd.
  apply bind_Ok in H. destruct H as [[ex1 fin1] [w1 [H1 H]]].
  assert (Hnd1 : NoDup (keys ex1)).
  { destruct (Z.of_nat (List.length executing_tests) >=? parallelism)%Z.
    - apply bind_Ok in H1. destruct H1 as [[ex0 done] [w0 [H0 H1]]].
      apply ret_Ok in H1. destruct H1 as [H1 _]. inversion H1; subst.
      eapply CompleteAtLeastOneTest_NoDup; eassumption.
    - apply ret_Ok in H1. destruct H1 as [H1 _]. inversion H1; subst.
      exact Hnd. }
  destruct (Py.startswith (name config) "DISABLED_").
  - apply bind_Ok in H. destruct H as [u [w2 [_ H]]].
    apply ret_Ok in H. destruct H as [H _]. inversion H; subst. exact Hnd1.
  - apply bind_Ok in H. destruct H as [test [w2 [_ H]]].
    apply bind_Ok in H. destruct H as [u [w3 [H3 H]]].
    apply ret_Ok in H. destruct H as [H _]. inversion H; subst.
    apply assert_Ok in H3. destruct H3 as [Hin _].
    apply negb_true_iff in Hin.
    rewrite (keys_dict_set_new _ _ _ Hin).
    apply NoDup_app; [exact Hnd1 | constructor; [intros [] | constructor] | ].
    intros k Hk [Heq | []]. subst k.
    apply dict_has_In in Hk. congruence.
Qed.

End InFlightNames.

(** C7 (as amended).  The scheduler assert-fails when the descriptor it is
    about to admit has the name of an invocation that is still in flight,
    whether a slot was free or had to be reclaimed first; hence the names
    of the invocations in flight are unique at every step of a run that
    proceeds.  (A descriptor whose namesake has already been drained, or
    that is disabled, is admitted.) *)
Theorem in_flight_names_are_unique :
  forall (env : Env) (fuel : nat) (parallelism : Z)
         (sourcefile_path cflags : string),
    (forall config executing_tests finished_tests w test w',
        (Z.of_nat (List.length executing_tests) < parallelism)%Z ->
        disabled config = false ->
        StartTest env sourcefile_path cflags config w = Ok test w' ->
        In (name config) (keys executing_tests) ->
        schedule env fuel parallelism sourcefile_path cflags config
                 executing_tests finished_tests w
        = Raise AssertionError w') /\
    (forall config executing_tests finished_tests w remaining done w1
            test w',
        (Z.of_nat (List.length executing_tests) >= parallelism)%Z ->
        CompleteAtLeastOneTest env fuel executing_tests w
        = Ok (remaining, done) w1 ->
        disabled config = false ->
        StartTest env sourcefile_path cflags config w1 = Ok test w' ->
        In (name config) (keys remaining) ->
        schedule env fuel parallelism sourcefile_path cflags config
                 executing_tests finished_tests w
        = Raise AssertionError w') /\
    (forall test_configs executing_tests finished_tests
            executing_tests' finished_tests' w w',
        NoDup (keys executing_tests) ->
        schedule_all env fuel parallelism sourcefile_path cflags
                     test_configs executing_tests finished_tests w
        = Ok (executing_tests', finished_tests') w' ->
        NoDup (keys executing_tests')).
Proof.
  intros env fuel parallelism sourcefile_path cflags.
  assert (Hassert :
            forall config (ex : Executing) test w w',
              disabled config = false ->
              StartTest env sourcefile_path cflags config w = Ok test w' ->
              In (name config) (keys ex) ->
              forall fin : list Test,
                (if Py.startswith (name config) "DISABLED_"
                 then PassTest (NotStarted config) ;; ret (ex, fin)
                 else
                   test <- StartTest env sourcefile_path cflags config ;;
                   assert_ (negb (dict_has (test_name test) ex)) ;;
                   ret (dict_set (test_name test) test ex, fin)) w
                = Raise AssertionError w').
  { intros config ex test w w' Hd Hstart Hin fin.
    change (Py.startswith (name config) "DISABLED_") with (disabled config).
    rewrite Hd. unfold bind at 1. rewrite Hstart.
    assert (Hname : test_name test = name config).
    { apply StartTest_inv in Hstart.
      destruct Hstart as [argv [_ [_ [-> _]]]]. reflexivity. }
    rewrite Hname. apply dict_has_In in Hin.
    unfold bind. rewrite Hin. reflexivity. }
  split; [ | split ].
  - intros config ex fin w test w' Hfree Hd Hstart Hin.
    unfold schedule. unfold bind at 1.
    assert (Hge : (Z.of_nat (List.length ex) >=? parallelism)%Z = false).
    { rewrite Z.geb_leb. apply Z.leb_gt. exact Hfree. }
    rewrite Hge. simpl. eapply Hassert; eassumption.
  - intros config ex fin w remaining done w1 test w' Hfull Hwait Hd Hstart
           Hin.
    unfold schedule. unfold bind at 1.
    assert (Hge : (Z.of_nat (List.length ex) >=? parallelism)%Z = true).
    { rewrite Z.geb_leb. apply Z.leb_le. lia. }
    rewrite Hge. unfold bind at 1. rewrite Hwait. simpl.
    eapply Hassert; eassumption.
  - induction test_configs as [ | config rest IH];
      intros ex fin ex' fin' w w' Hnd H; simpl in H.
    + apply ret_Ok in H. destruct H as [H _]. inversion H; subst. exact Hnd.
    + apply bind_Ok in H. destruct H as [[ex1 fin1] [w1 [H1 H]]].
      eapply IH; [ | exact H ].
      eapply schedule_NoDup; eassumption.
Qed.

(** With three slots the second NCTEST_DUP is started while the first is
    still in flight, and the assertion stops the run. *)
Example duplicate_in_flight_is_refused :
  Demo.run Demo.duplicated "3" =
  Raise AssertionError
        {| ticks := 6; spawned := 3; resultfile := [HeaderEntry "dup.nc"];
           signals := []; LC_ALL := Some "C"; printed := [] |}.
Proof. vm_compute. reflexivity. Qed.

(** C7 as stated fails: the file holds two directives named NCTEST_DUP;
    with one slot the first has been drained when the second is admitted,
    no assertion fails, and the run completes with a verdict for each. *)
Lemma duplicate_name_is_admitted :
  (exists test_configs,
      ExtractTestConfigs (Demo.env_of Demo.duplicated) "dup.nc"
      = Return test_configs /\
      map name test_configs = ["NCTEST_SANITY"; "NCTEST_DUP"; "NCTEST_DUP"]) /\
  Demo.run Demo.duplicated "1" =
  Ok tt {| ticks := 17; spawned := 3;
           resultfile :=
             [HeaderEntry "dup.nc";
              SuccessEntry "NoCompileDup" "NCTEST_SANITY" 3 3 6;
              SuccessEntry "NoCompileDup" "NCTEST_DUP" 3 7 10;
              SuccessEntry "NoCompileDup" "NCTEST_DUP" 3 11 14;
              StatsEntry "NoCompileDup" 0 16 16 1 14 1];
           signals := []; LC_ALL := Some "C"; printed := [] |}.
Proof.
  split.
  - eexists. split; vm_compute; reflexivity.
  - vm_compute. reflexivity.
Qed.

(* ------------------------------------------------------------------ *)
(** * The first finished test *)

Section NoIndexError.
Variable env : Env.

Lemma nie_bind {A B} (m : M A) (k : A -> M B) :
  no_index_error m -> (forall a, no_index_error (k a)) ->
  no_index_error (bind m k).
Proof.
  intros Hm Hk w w' H. unfold bind in H.
  destruct (m w) as [a w1 | e w1 | w1] eqn:E.
  - exact (Hk a w1 w' H).
  - inversion H; subst. exact (Hm w w' E).
  - discriminate.
Qed.

Lemma nie_bind_at {A B} (m : M A) (k : A -> M B) (w : World) :
  (forall w', m w <> Raise IndexError w') ->
  (forall a w1, m w = Ok a w1 -> forall w', k a w1 <> Raise IndexError w') ->
  forall w', bind m k w <> Raise IndexError w'.
Proof.
  intros Hm Hk w' H. unfold bind in H.
  destruct (m w) as [a w1 | e w1 | w1] eqn:E.
  - exact (Hk a w1 eq_refl w' H).
  - inversion H; subst. exact (Hm w' eq_refl).
  - discriminate.
Qed.

Lemma nie_ret {A} (a : A) : no_index_error (ret a).
Proof. intros w w' H. discriminate. Qed.

Lemma nie_assert (b : bool) : no_index_error (assert_ b).
Proof. destruct b; intros w w' H; discriminate. Qed.

Lemma nie_out_of_fuel {A} : no_index_error (@out_of_fuel A).
Proof. intros w w' H. discriminate. Qed.

Lemma nie_write (e : Entry) : no_index_error (write e).
Proof. intros w w' H. discriminate. Qed.

Lemma nie_time_time : no_index_error (time_time env).
Proof. intros w w' H. discriminate. Qed.

Lemma nie_send_signal (s : Signal) (p : Popen) (now : Z) :
  no_index_error (send_signal s p now).
Proof. intros w w' H. discriminate. Qed.

Lemma nie_proc_poll (p : Popen) : no_index_error (proc_poll env p).
Proof. intros w w' H. discriminate. Qed.

Lemma nie_popen (argv : list string) : no_index_error (popen env argv).
Proof.
  intros w w' H. unfold popen in H.
  destruct (popen_ok env argv); discriminate.
Qed.

Lemma nie_lift {A} (r : pyres A) :
  r <> Throw IndexError -> no_index_error (lift r).
Proof.
  intros Hr w w' H. destruct r as [a | e]; simpl in H; [discriminate | ].
  inversion H; subst. apply Hr. reflexivity.
Qed.

Lemma compile_expectations_no_index_error (raw : list PyItem) :
  forall acc, compile_expectations env raw acc <> Throw IndexError.
Proof.
  induction raw as [ | item rest IH]; intros acc; simpl.
  - discriminate.
  - destruct item as [regex_str | ]; [ | discriminate ].
    destruct (re_compile env regex_str) as [p | ]; simpl;
      [apply IH | discriminate].
Qed.

Lemma ParseExpectation_no_index_error (comment : option string) :
  ParseExpectation env comment <> Throw IndexError.
Proof.
  unfold ParseExpectation.
  destruct comment as [s | ]; [ | discriminate ].
  destruct (Re.match_ EXTRACT_EXPECTATION_RE s) as [m | ]; [ | discriminate ].
  destruct (Re.group 1 m) as [text | ]; simpl; [ | discriminate ].
  destruct (literal_eval env text) as [[items | ] | ]; simpl;
    try discriminate.
  apply compile_expectations_no_index_error.
Qed.

Lemma scan_lines_no_index_error (suite : string) (sourcefile : list string) :
  forall acc, scan_lines env suite sourcefile acc <> Throw IndexError.
Proof.
  induction sourcefile as [ | line rest IH]; intros acc; simpl.
  - discriminate.
  - destruct (directive line) as [[n comment] | ]; [ | apply IH ].
    pose proof (ParseExpectation_no_index_error comment) as Hp.
    destruct (ParseExpectation env comment) as [exps | e]; simpl.
    + apply IH.
    + intro H. inversion H; subst. apply Hp. reflexivity.
Qed.

Lemma ExtractTestConfigs_no_index_error (sourcefile_path : string) :
  ExtractTestConfigs env sourcefile_path <> Throw IndexError.
Proof.
  unfold ExtractTestConfigs.
  destruct (files env sourcefile_path) as [sourcefile | ]; simpl;
    [apply scan_lines_no_index_error | discriminate].
Qed.

Lemma nie_StartTest (sourcefile_path cflags : string) (config : Config) :
  no_index_error (StartTest env sourcefile_path cflags config).
Proof.
  unfold StartTest. apply nie_bind.
  - apply nie_lift. unfold command_line.
    destruct (shlex_split env cflags); simpl; discriminate.
  - intro argv. apply nie_bind; [apply nie_popen | intro p].
    apply nie_bind; [apply nie_time_time | intro now]. apply nie_ret.
Qed.

Lemma nie_PassTest (test : Logged) : no_index_error (PassTest test).
Proof. destruct test; apply nie_write. Qed.

Lemma nie_ProcessTestResult (test : Test) :
  no_index_error (ProcessTestResult env test).
Proof.
  unfold ProcessTestResult, FailTest.
  destruct (negb (aborted_at test =? 0)%Z); [apply nie_write | ].
  destruct (test_expectations test) as [exps | ].
  - destruct (exit_status env test =? 0)%Z; [apply nie_write | ].
    destruct (List.length exps =? 0)%nat; [apply nie_PassTest | ].
    destruct (existsb _ exps); [apply nie_PassTest | apply nie_write].
  - destruct (exit_status env test =? 0)%Z;
      [apply nie_PassTest | apply nie_write].
Qed.

Lemma nie_process_results (finished_tests : list Test) :
  no_index_error (process_results env finished_tests).
Proof.
  induction finished_tests as [ | test rest IH]; simpl.
  - apply nie_ret.
  - apply nie_bind; [apply nie_ProcessTestResult | intro; exact IH].
Qed.

Lemma nie_check_test (now : Z) (test : Test) :
  no_index_error (check_test env now test).
Proof.
  unfold check_test. apply nie_bind; [apply nie_proc_poll | ].
  intros [rc | ]; [apply nie_ret | ].
  destruct (terminate_timeout test <? now)%Z;
    [ | destruct (kill_timeout test <? now)%Z ];
    try apply nie_ret;
    (apply nie_bind; [apply nie_send_signal | intro; apply nie_ret]).
Qed.

Lemma nie_check_tests (now : Z) (executing_tests : Executing) :
  forall finished_tests,
    no_index_error (check_tests env now executing_tests finished_tests).
Proof.
  induction executing_tests as [ | [key test] rest IH]; intro fin; simpl.
  - apply nie_ret.
  - apply nie_bind; [apply nie_check_test | intros [test' done] ].
    apply nie_bind; [apply IH | intros [rest' fin'] ]. apply nie_ret.
Qed.

Lemma nie_poll_loop (fuel : nat) (busy_loop_timeout : Z) :
  forall executing_tests finished_tests,
    no_index_error (poll_loop env fuel busy_loop_timeout executing_tests
                              finished_tests).
Proof.
  induction fuel as [ | fuel IH]; intros ex fin; simpl;
    destruct (List.length fin =? 0)%nat;
    try apply nie_ret; try apply nie_out_of_fuel.
  apply nie_bind; [apply nie_time_time | intro t].
  apply nie_bind; [apply nie_assert | intro u].
  apply nie_bind; [apply nie_time_time | intro now].
  apply nie_bind; [apply nie_check_tests | intros [ex1 fin1] ].
  apply IH.
Qed.

Lemma nie_del_finished (finished_tests : list Test) :
  forall executing_tests,
    no_index_error (del_finished finished_tests executing_tests).
Proof.
  induction finished_tests as [ | test rest IH]; intro ex; simpl.
  - apply nie_ret.
  - destruct (dict_del (test_name test) ex) as [d | ]; [apply IH | ].
    intros w w' H. discriminate.
Qed.

Lemma nie_CompleteAtLeastOneTest (fuel : nat) (executing_tests : Executing) :
  no_index_error (CompleteAtLeastOneTest env fuel executing_tests).
Proof.
  unfold CompleteAtLeastOneTest.
  apply nie_bind; [apply nie_time_time | intro t].
  apply nie_bind; [apply nie_poll_loop | intros [ex1 fin1] ].
  apply nie_bind; [apply nie_del_finished | intro ex2]. apply nie_ret.
Qed.

Lemma nie_schedule (fuel : nat) (parallelism : Z)
      (sourcefile_path cflags : string) (config : Config)
      (executing_tests : Executing) (finished_tests : list Test) :
  no_index_error (schedule env fuel parallelism sourcefile_path cflags
                           config executing_tests finished_tests).
Proof.
  unfold schedule. apply nie_bind.
  - destruct (Z.of_nat (List.length executing_tests) >=? parallelism)%Z;
      [ | apply nie_ret ].
    apply nie_bind; [apply nie_CompleteAtLeastOneTest | intros [ex1 done] ].
    apply nie_ret.
  - intros [ex1 fin1].
    destruct (Py.startswith (name config) "DISABLED_").
    + apply nie_bind; [apply nie_PassTest | intro; apply nie_ret].
    + apply nie_bind; [apply nie_StartTest | intro test].
      apply nie_bind; [apply nie_assert | intro; apply nie_ret].
Qed.

Lemma nie_schedule_all (fuel : nat) (parallelism : Z)
      (sourcefile_path cflags : string) (test_configs : list Config) :
  forall executing_tests finished_tests,
    no_index_error (schedule_all env fuel parallelism sourcefile_path cflags
                                 test_configs executing_tests finished_tests).
Proof.
  induction test_configs as [ | config rest IH]; intros ex fin; simpl.
  - apply nie_ret.
  - apply nie_bind; [apply nie_schedule | intros [ex1 fin1]; apply IH].
Qed.

Lemma nie_drain (rounds fuel : nat) :
  forall executing_tests finished_tests,
    no_index_error (drain env rounds fuel executing_tests finished_tests).
Proof.
  induction rounds as [ | rounds IH]; intros ex fin; simpl;
    destruct (0 <? List.length ex)%nat;
    try apply nie_ret; try apply nie_out_of_fuel.
  apply nie_bind; [apply nie_CompleteAtLeastOneTest | intros [ex1 done] ].
  apply IH.
Qed.

Lemma nie_run_tests (fuel : nat) (parallelism : Z)
      (sourcefile_path cflags : string) (test_configs : list Config) :
  no_index_error (run_tests env fuel parallelism sourcefile_path cflags
                            test_configs).
Proof.
  unfold run_tests.
  apply nie_bind; [apply nie_schedule_all | intros [ex fin]; apply nie_drain].
Qed.

End NoIndexError.

(** No run of the driver, whatever its arguments and its environment, ends
    in the [IndexError] of [finished_tests[0]]. *)
Corollary main_never_raises_IndexError :
  forall (env : Env) (fuel : nat) (argv : list string),
    no_index_error (main env fuel argv).
Proof.
  intros env fuel argv w. unfold main.
  destruct argv as [ | prog [ | arg1 [ | sourcefile_path [ | cflags
                   [ | resultfile_path [ | extra argv]]]]]];
    try (apply nie_bind_at; [discriminate | intros; discriminate]).
  apply nie_bind_at; [discriminate | intros u0 w0 _].
  apply nie_bind_at.
  { apply nie_lift. destruct (py_int env arg1); discriminate. }
  intros parallelism w1 _.
  apply nie_bind_at; [apply nie_time_time | intros started w2 _].
  apply nie_bind_at; [apply nie_assert | intros u3 w3 _].
  apply nie_bind_at.
  { apply nie_lift. apply ExtractTestConfigs_no_index_error. }
  intros test_configs w4 Hextract. apply lift_Ok in Hextract.
  destruct Hextract as [Hextract _].
  apply nie_bind_at; [apply nie_time_time | intros extract_done w5 _].
  apply nie_bind_at.
  { intros w' H. unfold open_resultfile in H.
    destruct (writable env resultfile_path); discriminate. }
  intros u6 w6 _.
  apply nie_bind_at; [apply nie_write | intros u7 w7 _].
  apply nie_bind_at; [apply nie_time_time | intros header_written w8 _].
  apply nie_bind_at; [apply nie_run_tests | intros finished_tests w9 Hrun].
  apply nie_bind_at; [apply nie_time_time | intros compile_done w10 _].
  apply nie_bind_at; [apply nie_process_results | intros u11 w11 _].
  apply nie_bind_at; [apply nie_time_time | intros results_processed w12 _].
  apply ExtractTestConfigs_head in Hextract. destruct Hextract as [rest ->].
  apply run_tests_Ok in Hrun. destruct Hrun as [_ [_ [_ [_ Hlen]]]].
  simpl in Hlen.
  destruct finished_tests as [ | first others]; [discriminate | ].
  apply nie_bind_at; [discriminate | intros t w13 _].
  unfold WriteStats. apply nie_write.
Qed.

(* ------------------------------------------------------------------ *)
(** * Children started by a run *)

Section Spawning.
Variable env : Env.

Lemma spawnless_bind {A B} (m : M A) (k : A -> M B) :
  spawnless m -> (forall a, spawnless (k a)) -> spawnless (bind m k).
Proof.
  unfold spawnless, bind. intros Hm Hk w. specialize (Hm w).
  destruct (m w) as [a w1 | e w1 | w1]; simpl in *; auto.
  rewrite Hk. exact Hm.
Qed.

Lemma spawnless_ret {A} (a : A) : spawnless (ret a).
Proof. intro w. reflexivity. Qed.

Lemma spawnless_raise {A} (e : exn) : spawnless (@raise A e).
Proof. intro w. reflexivity. Qed.

Lemma spawnless_out_of_fuel {A} : spawnless (@out_of_fuel A).
Proof. intro w. reflexivity. Qed.

Lemma spawnless_assert (b : bool) : spawnless (assert_ b).
Proof. destruct b; intro w; reflexivity. Qed.

Lemma spawnless_write (e : Entry) : spawnless (write e).
Proof. intro w. reflexivity. Qed.

Lemma spawnless_time_time : spawnless (time_time env).
Proof. intro w. reflexivity. Qed.

Lemma spawnless_send_signal (s : Signal) (p : Popen) (now : Z) :
  spawnless (send_signal s p now).
Proof. intro w. reflexivity. Qed.

Lemma spawnless_proc_poll (p : Popen) : spawnless (proc_poll env p).
Proof. intro w. reflexivity. Qed.

Lemma spawnless_check_test (now : Z) (test : Test) :
  spawnless (check_test env now test).
Proof.
  unfold check_test. apply spawnless_bind; [apply spawnless_proc_poll | ].
  intros [rc | ]; [apply spawnless_ret | ].
  destruct (terminate_timeout test <? now)%Z;
    [ | destruct (kill_timeout test <? now)%Z ];
    try apply spawnless_ret;
    (apply spawnless_bind;
     [apply spawnless_send_signal | intro; apply spawnless_ret]).
Qed.

Lemma spawnless_check_tests (now : Z) (executing_tests : Executing) :
  forall finished_tests,
    spawnless (check_tests env now executing_tests finished_tests).
Proof.
  induction executing_tests as [ | [key test] rest IH]; intro fin; simpl.
  - apply spawnless_ret.
  - apply spawnless_bind; [apply spawnless_check_test | intros [t' done] ].
    apply spawnless_bind; [apply IH | intros [rest' fin'] ].
    apply spawnless_ret.
Qed.

Lemma spawnless_poll_loop (fuel : nat) (busy_loop_timeout : Z) :
  forall executing_tests finished_tests,
    spawnless (poll_loop env fuel busy_loop_timeout executing_tests
                         finished_tests).
Proof.
  induction fuel as [ | fuel IH]; intros ex fin; simpl;
    destruct (List.length fin =? 0)%nat;
    try apply spawnless_ret; try apply spawnless_out_of_fuel.
  apply spawnless_bind; [apply spawnless_time_time | intro t].
  apply spawnless_bind; [apply spawnless_assert | intro u].
  apply spawnless_bind; [apply spawnless_time_time | intro now].
  apply spawnless_bind; [apply spawnless_check_tests | intros [ex1 fin1] ].
  apply IH.
Qed.

Lemma spawnless_del_finished (finished_tests : list Test) :
  forall executing_tests,
    spawnless (del_finished finished_tests executing_tests).
Proof.
  induction finished_tests as [ | test rest IH]; intro ex; simpl.
  - apply spawnless_ret.
  - destruct (dict_del (test_name test) ex) as [d | ];
      [apply IH | apply spawnless_raise].
Qed.

(** Waiting for a test to finish starts no child. *)
Lemma spawnless_CompleteAtLeastOneTest (fuel : nat)
      (executing_tests : Executing) :
  spawnless (CompleteAtLeastOneTest env fuel executing_tests).
Proof.
  unfold CompleteAtLeastOneTest.
  apply spawnless_bind; [apply spawnless_time_time | intro t].
  apply spawnless_bind; [apply spawnless_poll_loop | intros [ex1 fin1] ].
  apply spawnless_bind; [apply spawnless_del_finished | intro ex2].
  apply spawnless_ret.
Qed.

Lemma spawnless_drain (rounds fuel : nat) :
  forall executing_tests finished_tests,
    spawnless (drain env rounds fuel executing_tests finished_tests).
Proof.
  induction rounds as [ | rounds IH]; intros ex fin; simpl;
    destruct (0 <? List.length ex)%nat;
    try apply spawnless_ret; try apply spawnless_out_of_fuel.
  apply spawnless_bind;
    [apply spawnless_CompleteAtLeastOneTest | intros [ex1 done] ].
  apply IH.
Qed.

Lemma spawnless_Ok {A} (m : M A) (w w' : World) (a : A) :
  spawnless m -> m w = Ok a w' -> spawned w' = spawned w.
Proof. intros Hs H. specialize (Hs w). rewrite H in Hs. exact Hs. Qed.

Lemma StartTest_spawns (sourcefile_path cflags : string) (config : Config)
      (w w' : World) (test : Test) :
  StartTest env sourcefile_path cflags config w = Ok test w' ->
  spawned w' = S (spawned w).
Proof.
  unfold StartTest, bind.
  destruct (command_line env sourcefile_path cflags config) as [argv | e];
    simpl; [ | discriminate ].
  unfold ret, popen. destruct (popen_ok env argv); [ | discriminate ].
  simpl. intro H. inversion H. reflexivity.
Qed.

Lemma schedule_spawns (fuel : nat) (parallelism : Z)
      (sourcefile_path cflags : string) (config : Config)
      (executing_tests executing_tests' : Executing)
      (finished_tests finished_tests' : list Test) (w w' : World) :
  schedule env fuel parallelism sourcefile_path cflags config
           executing_tests finished_tests w
  = Ok (executing_tests', finished_tests') w' ->
  spawned w' = spawned w + (if disabled config then 0 else 1).
Proof.
  unfold schedule. intro H.
  apply bind_Ok in H. destruct H as [[ex1 fin1] [w1 [H1 H]]].
  assert (Hw1 : spawned w1 = spawned w).
  { destruct (Z.of_nat (List.length executing_tests) >=? parallelism)%Z.
    - apply bind_Ok in H1. destruct H1 as [[ex0 done] [w0 [H0 H1]]].
      apply ret_Ok in H1. destruct H1 as [_ ->].
      eapply spawnless_Ok; [ | exact H0].
      apply spawnless_CompleteAtLeastOneTest.
    - apply ret_Ok in H1. destruct H1 as [_ ->]. reflexivity. }
  change (Py.startswith (name config) "DISABLED_") with (disabled config) in H.
  destruct (disabled config).
  - apply bind_Ok in H. destruct H as [u [w2 [H2 H]]].
    apply ret_Ok in H. destruct H as [_ ->].
    unfold PassTest, write in H2. inversion H2; subst; simpl. lia.
  - apply bind_Ok in H. destruct H as [test [w2 [H2 H]]].
    apply bind_Ok in H. destruct H as [u [w3 [H3 H]]].
    apply ret_Ok in H. destruct H as [_ ->].
    apply assert_Ok in H3. destruct H3 as [_ ->].
    apply StartTest_spawns in H2. lia.
Qed.

Lemma schedule_all_spawns (fuel : nat) (parallelism : Z)
      (sourcefile_path cflags : string) (test_configs : list Config) :
  forall executing_tests finished_tests executing_tests' finished_tests'
         w w',
    schedule_all env fuel parallelism sourcefile_path cflags test_configs
                 executing_tests finished_tests w
    = Ok (executing_tests', finished_tests') w' ->
    spawned w' = spawned w + List.length (filter enabled test_configs) /\
    resultfile w' = (resultfile w ++ skipped_entries test_configs)%list.
Proof.
  induction test_configs as [ | config rest IH];
    intros ex fin ex' fin' w w' H; simpl in H.
  - apply ret_Ok in H. destruct H as [_ ->]. simpl.
    unfold skipped_entries. simpl. rewrite app_nil_r. split; [lia | reflexivity].
  - apply bind_Ok in H. destruct H as [[ex1 fin1] [w1 [H1 H]]].
    apply IH in H. destruct H as [Hs Hr].
    pose proof H1 as Hs1. apply schedule_spawns in Hs1.
    apply schedule_Ok in H1.
    unfold skipped_entries in *. simpl. unfold enabled at 1.
    destruct H1 as [[Hd [_ Hr1]] | [Hd [_ Hr1]]]; rewrite Hd in *; simpl.
    + split; [lia | ]. rewrite Hr, Hr1, <- app_assoc. reflexivity.
    + split; [lia | ]. rewrite Hr, Hr1. reflexivity.
Qed.

End Spawning.

(** X1.  A disabled case never starts a child process and is always
    written as skipped: when the tests of a run have all been launched and
    drained, the children started are as many as the descriptors that are
    not disabled, the finished tests are as many too, and the report has
    grown by exactly one skipped entry per disabled descriptor, in
    extraction order. *)
Theorem disabled_cases_are_not_launched :
  forall (env : Env) (fuel : nat) (parallelism : Z)
         (sourcefile_path cflags : string) (test_configs : list Config)
         (finished_tests : list Test) (w w' : World),
    run_tests env fuel parallelism sourcefile_path cflags test_configs w
    = Ok finished_tests w' ->
    spawned w' = spawned w + List.length (filter enabled test_configs) /\
    List.length finished_tests = List.length (filter enabled test_configs) /\
    resultfile w' = (resultfile w ++ skipped_entries test_configs)%list.
Proof.
  intros env fuel parallelism sourcefile_path cflags test_configs
         finished_tests w w' H.
  pose proof H as Hlen. apply run_tests_Ok in Hlen.
  destruct Hlen as [_ [_ [_ [_ Hlen]]]].
  unfold run_tests in H.
  apply bind_Ok in H. destruct H as [[ex fin] [w1 [H1 H]]].
  apply schedule_all_spawns in H1. destruct H1 as [Hs Hr].
  pose proof H as Hs'.
  apply spawnless_Ok in Hs'; [ | apply spawnless_drain ].
  apply drain_Ok in H. destruct H as [_ Hr'].
  split; [congruence | split; [exact Hlen | congruence]].
Qed.

Lemma disabled_cases_are_not_launched_witness :
  exists finished_tests w',
    run_tests (Demo.env_of Demo.passing) 100 1 "base/bind_unittest.nc"
              "-Wall  -I."
              [sanity_config "NoCompileBindUnittest";
               {| name := "DISABLED_NCTEST_BAR";
                  suite_name := "NoCompileBindUnittest";
                  expectations := Some [] |}]
              (Demo.world_at_launch Demo.passing)
    = Ok finished_tests w' /\
    spawned w' = 1 /\
    resultfile w'
    = [HeaderEntry "base/bind_unittest.nc";
       DisabledEntry "NoCompileBindUnittest" "DISABLED_NCTEST_BAR"].
Proof.
  eexists. eexists. split; [vm_compute; reflexivity | ].
  match goal with
  | |- spawned ?w' = _ /\ _ =>
      pose proof (@disabled_cases_are_not_launched
                    (Demo.env_of Demo.passing) 100 1 "base/bind_unittest.nc"
                    "-Wall  -I."
                    [sanity_config "NoCompileBindUnittest";
                     {| name := "DISABLED_NCTEST_BAR";
                        suite_name := "NoCompileBindUnittest";
                        expectations := Some [] |}]
                    _ (Demo.world_at_launch Demo.passing) w'
                    ltac:(vm_compute; reflexivity)) as [Hs [_ Hr]]
  end.
  split; [exact Hs | exact Hr].
Defined.

(* ------------------------------------------------------------------ *)
(** * The concurrency gate *)

Lemma schedule_bound (env : Env) (fuel : nat) (parallelism : Z)
      (sourcefile_path cflags : string) (config : Config)
      (executing_tests executing_tests' : Executing)
      (finished_tests finished_tests' : list Test) (w w' : World) :
  (1 <= parallelism)%Z ->
  (Z.of_nat (List.length executing_tests) <= parallelism)%Z ->
  schedule env fuel parallelism sourcefile_path cflags config
           executing_tests finished_tests w
  = Ok (executing_tests', finished_tests') w' ->
  (Z.of_nat (List.length executing_tests') <= parallelism)%Z.
Proof.
  intros Hpar Hlen. unfold schedule. intro H.
  apply bind_Ok in H. destruct H as [[ex1 fin1] [w1 [H1 H]]].
  assert (Hroom : (Z.of_nat (List.length ex1) < parallelism)%Z).
  { destruct (Z.of_nat (List.length executing_tests) >=? parallelism)%Z
      eqn:Hfull.
    - apply bind_Ok in H1. destruct H1 as [[ex0 done] [w0 [H0 H1]]].
      apply ret_Ok in H1. destruct H1 as [H1 _]. inversion H1; subst.
      apply CompleteAtLeastOneTest_Ok in H0. destruct H0 as [Hl [_ Hne]].
      destruct done as [ | t done]; [contradiction | ].
      simpl in Hl. lia.
    - apply ret_Ok in H1. destruct H1 as [H1 _]. inversion H1; subst.
      rewrite Z.geb_leb in Hfull. apply Z.leb_gt in Hfull. exact Hfull. }
  destruct (Py.startswith (name config) "DISABLED_").
  - apply bind_Ok in H. destruct H as [u [w2 [_ H]]].
    apply ret_Ok in H. destruct H as [H _]. inversion H; subst. lia.
  - apply bind_Ok in H. destruct H as [test [w2 [_ H]]].
    apply bind_Ok in H. destruct H as [u [w3 [H3 H]]].
    apply ret_Ok in H. destruct H as [H _]. inversion H; subst.
    apply assert_Ok in H3. destruct H3 as [Hin _].
    apply negb_true_iff in Hin.
    rewrite (dict_set_length _ _ _ Hin). lia.
Qed.

(** X2.  The concurrency gate: with a parallelism of at least 1 (what
    [ValidateInput] asserts), if no more than [parallelism] tests are in
    flight before a batch of descriptors is scheduled, no more than
    [parallelism] are in flight after it, whatever the children do; a test
    is only started once a slot is free. *)
Theorem in_flight_tests_are_bounded :
  forall (env : Env) (fuel : nat) (parallelism : Z)
         (sourcefile_path cflags : string) (test_configs : list Config)
         (executing_tests executing_tests' : Executing)
         (finished_tests finished_tests' : list Test) (w w' : World),
    (1 <= parallelism)%Z ->
    (Z.of_nat (List.length executing_tests) <= parallelism)%Z ->
    schedule_all env fuel parallelism sourcefile_path cflags test_configs
                 executing_tests finished_tests w
    = Ok (executing_tests', finished_tests') w' ->
    (Z.of_nat (List.length executing_tests') <= parallelism)%Z.
Proof.
  intros env fuel parallelism sourcefile_path cflags test_configs.
  induction test_configs as [ | config rest IH];
    intros ex ex' fin fin' w w' Hpar Hlen H; simpl in H.
  - apply ret_Ok in H. destruct H as [H _]. inversion H; subst. exact Hlen.
  - apply bind_Ok in H. destruct H as [[ex1 fin1] [w1 [H1 H]]].
    eapply IH; [exact Hpar | | exact H].
    eapply schedule_bound; eassumption.
Qed.

Lemma in_flight_tests_are_bounded_witness :
  exists executing_tests' finished_tests' w',
    schedule_all (Demo.env_of Demo.duplicated) 100 2 "dup.nc" ""
                 [sanity_config "S";
                  {| name := "NCTEST_A"; suite_name := "S";
                     expectations := Some [] |};
                  {| name := "NCTEST_B"; suite_name := "S";
                     expectations := Some [] |}]
                 [] [] initial_world
    = Ok (executing_tests', finished_tests') w' /\
    (Z.of_nat (List.length executing_tests') <= 2)%Z.
Proof.
  eexists. eexists. eexists. split; [vm_compute; reflexivity | ].
  eapply (@in_flight_tests_are_bounded
            (Demo.env_of Demo.duplicated) 100 2 "dup.nc" ""
            [sanity_config "S";
             {| name := "NCTEST_A"; suite_name := "S";
                expectations := Some [] |};
             {| name := "NCTEST_B"; suite_name := "S";
                expectations := Some [] |}]
            [] _ [] _ initial_world _).
  - lia.
  - simpl. lia.
  - vm_compute. reflexivity.
Defined.

(* ------------------------------------------------------------------ *)
(** * What the scheduler keeps of a test *)

Section TestInvariant.
Variable env : Env.
(** [C] holds of the descriptors, [P] of the tests in flight, [F] of the
    finished tests. *)
Variable C : Config -> Prop.
Variables P F : Test -> Prop.
Hypothesis P_finished : forall now rc t, P t -> P (set_finished now rc t).
Hypothesis P_aborted : forall now t, P t -> P (set_aborted now t).
Hypothesis F_finished : forall now rc t, P t -> F (set_finished now rc t).
Hypothesis P_started :
  forall sourcefile_path cflags config w t w',
    C config -> disabled config = false ->
    StartTest env sourcefile_path cflags config w = Ok t w' -> P t.

Let in_flight (d : Executing) : Prop := Forall (fun item => P (snd item)) d.

Lemma check_test_keeps (now : Z) (test test' : Test) (done : bool)
      (w w' : World) :
  P test ->
  check_test env now test w = Ok (test', done) w' ->
  P test' /\ (done = true -> F test').
Proof.
  intros Hp. unfold check_test, bind, proc_poll.
  destruct (poll_status env w (proc test)) as [rc | ].
  - intro H. apply ret_Ok in H. destruct H as [H _]. inversion H; subst.
    split; [apply P_finished; exact Hp | intros _; apply F_finished; exact Hp].
  - destruct (terminate_timeout test <? now)%Z;
      [ | destruct (kill_timeout test <? now)%Z ];
      simpl; intro H; inversion H; subst;
      (split; [try apply P_aborted; exact Hp | discriminate]).
Qed.

Lemma check_tests_keeps (now : Z) (executing_tests : Executing) :
  forall finished_tests executing_tests' finished_tests' w w',
    in_flight executing_tests -> Forall F finished_tests ->
    check_tests env now executing_tests finished_tests w
    = Ok (executing_tests', finished_tests') w' ->
    in_flight executing_tests' /\ Forall F finished_tests'.
Proof.
  unfold in_flight.
  induction executing_tests as [ | [key test] rest IH];
    intros fin ex' fin' w w' Hex Hfin H; simpl in H.
  - apply ret_Ok in H. destruct H as [H _]. inversion H; subst.
    split; [constructor | exact Hfin].
  - inversion Hex as [ | item l Ht Hrest]; subst. simpl in Ht.
    apply bind_Ok in H. destruct H as [[test' done] [w1 [H1 H2]]].
    apply bind_Ok in H2. destruct H2 as [[rest' fin1] [w2 [H2 H3]]].
    apply ret_Ok in H3. destruct H3 as [H3 _]. inversion H3; subst.
    apply check_test_keeps in H1; [ | exact Ht]. destruct H1 as [Hp' Hf'].
    apply IH in H2; [ | exact Hrest | ].
    + destruct H2 as [Hr Hf]. split; [constructor; assumption | exact Hf].
    + destruct done; [ | exact Hfin].
      apply Forall_app. split; [exact Hfin | ].
      constructor; [apply Hf'; reflexivity | constructor].
Qed.

Lemma poll_loop_keeps (fuel : nat) (busy_loop_timeout : Z) :
  forall executing_tests finished_tests executing_tests' finished_tests' w w',
    in_flight executing_tests -> Forall F finished_tests ->
    poll_loop env fuel busy_loop_timeout executing_tests finished_tests w
    = Ok (executing_tests', finished_tests') w' ->
    in_flight executing_tests' /\ Forall F finished_tests'.
Proof.
  induction fuel as [ | fuel IH]; intros ex fin ex' fin' w w' Hex Hfin H;
    simpl in H.
  - destruct (List.length fin =? 0)%nat; [discriminate | ].
    apply ret_Ok in H. destruct H as [H _]. inversion H; subst.
    split; assumption.
  - destruct (List.length fin =? 0)%nat.
    + apply bind_Ok in H. destruct H as [t0 [w1 [_ H]]].
      apply bind_Ok in H. destruct H as [u [w2 [_ H]]].
      apply bind_Ok in H. destruct H as [now [w3 [_ H]]].
      apply bind_Ok in H. destruct H as [[ex1 fin1] [w4 [H4 H]]].
      apply check_tests_keeps in H4; [ | assumption | assumption].
      destruct H4 as [Hex1 Hfin1].
      eapply IH; eassumption.
    + apply ret_Ok in H. destruct H as [H _]. inversion H; subst.
      split; assumption.
Qed.

Lemma del_finished_keeps (finished_tests : list Test) :
  forall executing_tests executing_tests' w w',
    in_flight executing_tests ->
    del_finished finished_tests executing_tests w = Ok executing_tests' w' ->
    in_flight executing_tests'.
Proof.
  induction finished_tests as [ | test rest IH]; intros ex ex' w w' Hex H;
    simpl in H.
  - apply ret_Ok in H. destruct H as [<- _]. exact Hex.
  - destruct (dict_del (test_name test) ex) as [d | ] eqn:Hd;
      [ | discriminate ].
    eapply IH; [ | exact H].
    eapply dict_del_Forall; eassumption.
Qed.

Lemma CompleteAtLeastOneTest_keeps (fuel : nat)
      (executing_tests executing_tests' : Executing) (done : list Test)
      (w w' : World) :
  in_flight executing_tests ->
  CompleteAtLeastOneTest env fuel executing_tests w
  = Ok (executing_tests', done) w' ->
  in_flight executing_tests' /\ Forall F done.
Proof.
  unfold CompleteAtLeastOneTest. intros Hex H.
  apply bind_Ok in H. destruct H as [t [w1 [_ H]]].
  apply bind_Ok in H. destruct H as [[ex1 fin1] [w2 [H2 H]]].
  apply bind_Ok in H. destruct H as [ex2 [w3 [H3 H]]].
  apply ret_Ok in H. destruct H as [H _]. inversion H; subst.
  apply poll_loop_keeps in H2; [ | exact Hex | constructor].
  destruct H2 as [Hex1 Hfin1].
  split; [eapply del_finished_keeps; eassumption | exact Hfin1].
Qed.

Lemma schedule_keeps (fuel : nat) (parallelism : Z)
      (sourcefile_path cflags : string) (config : Config)
      (executing_tests executing_tests' : Executing)
      (finished_tests finished_tests' : list Test) (w w' : World) :
  C config ->
  in_flight executing_tests -> Forall F finished_tests ->
  schedule env fuel parallelism sourcefile_path cflags config
           executing_tests finished_tests w
  = Ok (executing_tests', finished_tests') w' ->
  in_flight executing_tests' /\ Forall F finished_tests'.
Proof.
  intros Hc Hex Hfin. unfold schedule. intro H.
  apply bind_Ok in H. destruct H as [[ex1 fin1] [w1 [H1 H]]].
  assert (Hwait : in_flight ex1 /\ Forall F fin1).
  { destruct (Z.of_nat (List.length executing_tests) >=? parallelism)%Z.
    - apply bind_Ok in H1. destruct H1 as [[ex0 done] [w0 [H0 H1]]].
      apply ret_Ok in H1. destruct H1 as [H1 _]. inversion H1; subst.
      apply CompleteAtLeastOneTest_keeps in H0; [ | exact Hex].
      destruct H0 as [Hex0 Hdone].
      split; [exact Hex0 | apply Forall_app; split; assumption].
    - apply ret_Ok in H1. destruct H1 as [H1 _]. inversion H1; subst.
      split; assumption. }
  destruct Hwait as [Hex1 Hfin1].
  change (Py.startswith (name config) "DISABLED_") with (disabled config) in H.
  destruct (disabled config) eqn:Hd.
  - apply bind_Ok in H. destruct H as [u [w2 [_ H]]].
    apply ret_Ok in H. destruct H as [H _]. inversion H; subst.
    split; assumption.
  - apply bind_Ok in H. destruct H as [test [w2 [H2 H]]].
    apply bind_Ok in H. destruct H as [u [w3 [_ H]]].
    apply ret_Ok in H. destruct H as [H _]. inversion H; subst.
    split; [ | exact Hfin1].
    apply dict_set_Forall; [exact Hex1 | ].
    simpl. eapply P_started; eassumption.
Qed.

Lemma schedule_all_keeps (fuel : nat) (parallelism : Z)
      (sourcefile_path cflags : string) (test_configs : list Config) :
  forall executing_tests finished_tests executing_tests' finished_tests'
         w w',
    Forall C test_configs ->
    in_flight executing_tests -> Forall F finished_tests ->
    schedule_all env fuel parallelism sourcefile_path cflags test_configs
                 executing_tests finished_tests w
    = Ok (executing_tests', finished_tests') w' ->
    in_flight executing_tests' /\ Forall F finished_tests'.
Proof.
  induction test_configs as [ | config rest IH];
    intros ex fin ex' fin' w w' Hc Hex Hfin H; simpl in H.
  - apply ret_Ok in H. destruct H as [H _]. inversion H; subst.
    split; assumption.
  - inversion Hc as [ | c l Hc1 Hcrest]; subst.
    apply bind_Ok in H. destruct H as [[ex1 fin1] [w1 [H1 H]]].
    apply schedule_keeps in H1; try assumption.
    destruct H1 as [Hex1 Hfin1].
    eapply IH; eassumption.
Qed.

Lemma drain_keeps (rounds fuel : nat) :
  forall executing_tests finished_tests finished_tests' w w',
    in_flight executing_tests -> Forall F finished_tests ->
    drain env rounds fuel executing_tests finished_tests w
    = Ok finished_tests' w' ->
    Forall F finished_tests'.
Proof.
  induction rounds as [ | rounds IH]; intros ex fin fin' w w' Hex Hfin H;
    simpl in H.
  - destruct (0 <? List.length ex)%nat; [discriminate | ].
    apply ret_Ok in H. destruct H as [<- _]. exact Hfin.
  - destruct (0 <? List.length ex)%nat.
    + apply bind_Ok in H. destruct H as [[ex1 done] [w1 [H1 H]]].
      apply CompleteAtLeastOneTest_keeps in H1; [ | exact Hex].
      destruct H1 as [Hex1 Hdone].
      eapply IH; [exact Hex1 | | exact H].
      apply Forall_app. split; assumption.
    + apply ret_Ok in H. destruct H as [<- _]. exact Hfin.
Qed.

(** What holds of every test a descriptor starts, and is kept by the loop,
    holds of every finished test. *)
Lemma run_tests_keeps (fuel : nat) (parallelism : Z)
      (sourcefile_path cflags : string) (test_configs : list Config)
      (finished_tests : list Test) (w w' : World) :
  Forall C test_configs ->
  run_tests env fuel parallelism sourcefile_path cflags test_configs w
  = Ok finished_tests w' ->
  Forall F finished_tests.
Proof.
  intros Hc. unfold run_tests. intro H.
  apply bind_Ok in H. destruct H as [[ex fin] [w1 [H1 H]]].
  apply schedule_all_keeps in H1;
    [ | exact Hc | constructor | constructor].
  destruct H1 as [Hex Hfin].
  eapply drain_keeps; eassumption.
Qed.

End TestInvariant.

(** X3.  Every test the scheduler hands to the classifier was started for
    a descriptor of the run that is not disabled, and carries the name,
    the suite and the expectations of that descriptor; its exit status has
    been seen by [poll()], and its deadlines are still 60 and 62 seconds
    after its start. *)
Theorem finished_tests_come_from_enabled_descriptors :
  forall (env : Env) (fuel : nat) (parallelism : Z)
         (sourcefile_path cflags : string) (test_configs : list Config)
         (finished_tests : list Test) (w w' : World),
    run_tests env fuel parallelism sourcefile_path cflags test_configs w
    = Ok finished_tests w' ->
    Forall (fun t =>
              (exists c,
                  In c test_configs /\ disabled c = false /\
                  test_name t = name c /\
                  test_suite_name t = suite_name c /\
                  test_expectations t = expectations c) /\
              (exists rc, returncode (proc t) = Some rc /\
                          exit_status env t = rc) /\
              terminate_timeout t = (started_at t + 60)%Z /\
              kill_timeout t = (started_at t + 62)%Z)
           finished_tests.
Proof.
  intros env fuel parallelism sourcefile_path cflags test_configs
         finished_tests w w' H.
  pose (P := fun t : Test =>
               (exists c,
                   In c test_configs /\ disabled c = false /\
                   test_name t = name c /\
                   test_suite_name t = suite_name c /\
                   test_expectations t = expectations c) /\
               terminate_timeout t = (started_at t + 60)%Z /\
               kill_timeout t = (started_at t + 62)%Z).
  eapply (@run_tests_keeps env (fun c => In c test_configs) P); try exact H.
  - intros now rc t Hp. exact Hp.
  - intros now t Hp. exact Hp.
  - intros now rc t [Hc [Ht Hk]]. split; [exact Hc | ].
    split; [ | split; assumption].
    exists rc. split; reflexivity.
  - intros sp cf config w0 t w1 Hin Hd Hstart.
    apply StartTest_inv in Hstart.
    destruct Hstart as [argv [_ [_ [-> _]]]]. unfold P. simpl.
    split; [ | split; reflexivity].
    exists config. repeat split; assumption.
  - apply Forall_forall. intros c Hc. exact Hc.
Qed.

Lemma finished_tests_come_from_enabled_descriptors_witness :
  Forall (fun t => exists rc, returncode (proc t) = Some rc)
         (Demo.finished Demo.hanging 2).
Proof.
  assert (H : exists w',
             run_tests (Demo.env_of Demo.hanging) 100 2 "hang.nc"
                       "-Wall  -I."
                       [sanity_config "NoCompileHang";
                        {| name := "NCTEST_FOO";
                           suite_name := "NoCompileHang";
                           expectations :=
                             Some [Demo.literal_pattern
                                     "undefined reference"] |}]
                       (Demo.world_at_launch Demo.hanging)
             = Ok (Demo.finished Demo.hanging 2) w').
  { eexists. vm_compute. reflexivity. }
  destruct H as [w' H].
  apply finished_tests_come_from_enabled_descriptors in H.
  eapply Forall_impl; [ | exact H].
  intros t [_ [[rc [Hrc _]] _]]. exists rc. exact Hrc.
Defined.

(* ------------------------------------------------------------------ *)
(** * The cases a report names *)

Section ReportNames.
Variable env : Env.

Lemma dict_del_names (key : string) :
  forall d d', dict_del key d = Some d' -> Permutation (key :: keys d') (keys d).
Proof.
  induction d as [ | [k v] d IH]; simpl; intros d' H.
  - discriminate.
  - destruct (String.eqb k key) eqn:Hk.
    + inversion H; subst. apply String.eqb_eq in Hk. subst k. reflexivity.
    + destruct (dict_del key d) as [d0 | ] eqn:Hd; simpl in H;
        [ | discriminate ].
      inversion H; subst. simpl.
      rewrite perm_swap. apply perm_skip. apply IH. reflexivity.
Qed.

Lemma del_finished_names (finished_tests : list Test) :
  forall executing_tests executing_tests' w w',
    del_finished finished_tests executing_tests w = Ok executing_tests' w' ->
    Permutation (map test_name finished_tests ++ keys executing_tests')
                (keys executing_tests).
Proof.
  induction finished_tests as [ | test rest IH]; intros ex ex' w w' H;
    simpl in H.
  - apply ret_Ok in H. destruct H as [<- _]. reflexivity.
  - destruct (dict_del (test_name test) ex) as [d | ] eqn:Hd;
      [ | discriminate ].
    apply IH in H. apply dict_del_names in Hd. simpl.
    rewrite <- Hd. apply perm_skip. exact H.
Qed.

(** The tests a call returns and the tests it leaves in the dictionary
    are, by name, the tests it found there. *)
Lemma CompleteAtLeastOneTest_names (fuel : nat)
      (executing_tests executing_tests' : Executing) (done : list Test)
      (w w' : World) :
  CompleteAtLeastOneTest env fuel executing_tests w
  = Ok (executing_tests', done) w' ->
  Permutation (map test_name done ++ keys executing_tests')
              (keys executing_tests).
Proof.
  unfold CompleteAtLeastOneTest. intro H.
  apply bind_Ok in H. destruct H as [t [w1 [_ H]]].
  apply bind_Ok in H. destruct H as [[ex1 fin1] [w2 [H2 H]]].
  apply bind_Ok in H. destruct H as [ex2 [w3 [H3 H]]].
  apply ret_Ok in H. destruct H as [H _]. inversion H; subst.
  apply poll_loop_keys in H2. apply del_finished_names in H3.
  rewrite <- H2. exact H3.
Qed.

Lemma schedule_names (fuel : nat) (parallelism : Z)
      (sourcefile_path cflags : string) (config : Config)
      (executing_tests executing_tests' : Executing)
      (finished_tests finished_tests' : list Test) (w w' : World) :
  schedule env fuel parallelism sourcefile_path cflags config
           executing_tests finished_tests w
  = Ok (executing_tests', finished_tests') w' ->
  Permutation
    (map test_name finished_tests' ++ keys executing_tests')
    ((if disabled config then [] else [name config]) ++
     map test_name finished_tests ++ keys executing_tests).
Proof.
  unfold schedule. intro H.
  apply bind_Ok in H. destruct H as [[ex1 fin1] [w1 [H1 H]]].
  assert (Hwait : Permutation (map test_name fin1 ++ keys ex1)
                    (map test_name finished_tests ++ keys executing_tests)).
  { destruct (Z.of_nat (List.length executing_tests) >=? parallelism)%Z.
    - apply bind_Ok in H1. destruct H1 as [[ex0 done] [w0 [H0 H1]]].
      apply ret_Ok in H1. destruct H1 as [H1 _]. inversion H1; subst.
      apply CompleteAtLeastOneTest_names in H0.
      rewrite map_app, <- app_assoc, H0. reflexivity.
    - apply ret_Ok in H1. destruct H1 as [H1 _]. inversion H1; subst.
      reflexivity. }
  change (Py.startswith (name config) "DISABLED_") with (disabled config) in H.
  destruct (disabled config).
  - apply bind_Ok in H. destruct H as [u [w2 [_ H]]].
    apply ret_Ok in H. destruct H as [H _]. inversion H; subst.
    simpl. exact Hwait.
  - apply bind_Ok in H. destruct H as [test [w2 [H2 H]]].
    apply bind_Ok in H. destruct H as [u [w3 [H3 H]]].
    apply ret_Ok in H. destruct H as [H _]. inversion H; subst.
    apply assert_Ok in H3. destruct H3 as [Hin _].
    apply negb_true_iff in Hin.
    rewrite (keys_dict_set_new _ _ _ Hin).
    assert (Hname : test_name test = name config).
    { apply StartTest_inv in H2.
      destruct H2 as [argv [_ [_ [-> _]]]]. reflexivity. }
    rewrite Hname. simpl.
    rewrite app_assoc, <- Hwait.
    rewrite <- Permutation_cons_append. reflexivity.
Qed.

Lemma schedule_all_names (fuel : nat) (parallelism : Z)
      (sourcefile_path cflags : string) (test_configs : list Config) :
  forall executing_tests finished_tests executing_tests' finished_tests'
         w w',
    schedule_all env fuel parallelism sourcefile_path cflags test_configs
                 executing_tests finished_tests w
    = Ok (executing_tests', finished_tests') w' ->
    Permutation
      (map test_name finished_tests' ++ keys executing_tests')
      (map name (filter enabled test_configs) ++
       map test_name finished_tests ++ keys executing_tests).
Proof.
  induction test_configs as [ | config rest IH];
    intros ex fin ex' fin' w w' H; simpl in H.
  - apply ret_Ok in H. destruct H as [H _]. inversion H; subst. reflexivity.
  - apply bind_Ok in H. destruct H as [[ex1 fin1] [w1 [H1 H]]].
    apply IH in H. apply schedule_names in H1.
    rewrite H, H1. simpl. unfold enabled at 2.
    destruct (disabled config); simpl.
    + reflexivity.
    + symmetry. apply Permutation_middle.
Qed.

Lemma drain_names (rounds fuel : nat) :
  forall executing_tests finished_tests finished_tests' w w',
    drain env rounds fuel executing_tests finished_tests w
    = Ok finished_tests' w' ->
    Permutation (map test_name finished_tests')
                (map test_name finished_tests ++ keys executing_tests).
Proof.
  induction rounds as [ | rounds IH]; intros ex fin fin' w w' H; simpl in H.
  - destruct ex as [ | item ex]; simpl in H; [ | discriminate ].
    apply ret_Ok in H. destruct H as [<- _]. rewrite app_nil_r. reflexivity.
  - destruct ex as [ | item ex]; simpl in H.
    + apply ret_Ok in H. destruct H as [<- _]. rewrite app_nil_r.
      reflexivity.
    + apply bind_Ok in H. destruct H as [[ex1 done] [w1 [H1 H]]].
      apply IH in H. apply CompleteAtLeastOneTest_names in H1.
      rewrite H, map_app, <- app_assoc, H1. reflexivity.
Qed.

Lemma run_tests_names (fuel : nat) (parallelism : Z)
      (sourcefile_path cflags : string) (test_configs : list Config)
      (finished_tests : list Test) (w w' : World) :
  run_tests env fuel parallelism sourcefile_path cflags test_configs w
  = Ok finished_tests w' ->
  Permutation (map test_name finished_tests)
              (map name (filter enabled test_configs)).
Proof.
  unfold run_tests. intro H.
  apply bind_Ok in H. destruct H as [[ex fin] [w1 [H1 H]]].
  apply schedule_all_names in H1. apply drain_names in H.
  rewrite H, H1. simpl. rewrite app_nil_r. reflexivity.
Qed.

(** The entry the classifier writes is about the test it is given, and
    under its suite if it names one. *)
Lemma ProcessTestResult_entry (test : Test) (w w' : World) (u : unit) :
  ProcessTestResult env test w = Ok u w' ->
  exists e,
    resultfile w' = (resultfile w ++ [e])%list /\
    entry_case e = Some (test_name test) /\
    (entry_suite e = None \/ entry_suite e = Some (test_suite_name test)).
Proof.
  assert (Hpass : forall w w' u,
             PassTest (Started test) w = Ok u w' ->
             exists e,
               resultfile w' = (resultfile w ++ [e])%list /\
               entry_case e = Some (test_name test) /\
               (entry_suite e = None \/
                entry_suite e = Some (test_suite_name test))).
  { intros w0 w1 u0 H. unfold PassTest, write in H. inversion H; simpl.
    eexists. split; [reflexivity | ]. split; [reflexivity | right; reflexivity]. }
  assert (Hfail : forall error out err w w' u,
             FailTest test error out err w = Ok u w' ->
             exists e,
               resultfile w' = (resultfile w ++ [e])%list /\
               entry_case e = Some (test_name test) /\
               (entry_suite e = None \/
                entry_suite e = Some (test_suite_name test))).
  { intros error out err w0 w1 u0 H. unfold FailTest, write in H.
    inversion H; simpl.
    eexists. split; [reflexivity | ]. split; [reflexivity | left; reflexivity]. }
  unfold ProcessTestResult.
  destruct (negb (aborted_at test =? 0)%Z); [apply Hfail | ].
  destruct (test_expectations test) as [exps | ].
  - destruct (exit_status env test =? 0)%Z; [apply Hfail | ].
    destruct (List.length exps =? 0)%nat; [apply Hpass | ].
    destruct (existsb _ exps); [apply Hpass | apply Hfail].
  - destruct (exit_status env test =? 0)%Z; [apply Hpass | apply Hfail].
Qed.

Lemma process_results_entries (finished_tests : list Test) :
  forall w w' u,
    process_results env finished_tests w = Ok u w' ->
    exists added,
      resultfile w' = (resultfile w ++ added)%list /\
      map entry_case added = map (fun t => Some (test_name t)) finished_tests /\
      Forall2 (fun e t => entry_suite e = None \/
                          entry_suite e = Some (test_suite_name t))
              added finished_tests.
Proof.
  induction finished_tests as [ | test rest IH]; intros w w' u H;
    simpl in H.
  - apply ret_Ok in H. destruct H as [_ ->]. exists [].
    rewrite app_nil_r. repeat split. constructor.
  - apply bind_Ok in H. destruct H as [u1 [w1 [H1 H2]]].
    apply ProcessTestResult_entry in H1. destruct H1 as [e [Hr1 [Hc Hs]]].
    apply IH in H2. destruct H2 as [added [Hr2 [Hcs Hss]]].
    exists (e :: added). repeat split.
    + rewrite Hr2, Hr1, <- app_assoc. reflexivity.
    + simpl. rewrite Hc, Hcs. reflexivity.
    + constructor; assumption.
Qed.

Lemma filter_disabled_enabled_perm (test_configs : list Config) :
  Permutation (filter disabled test_configs ++ filter enabled test_configs)
              test_configs.
Proof.
  induction test_configs as [ | c l IH]; simpl; [constructor | ].
  unfold enabled at 1. destruct (disabled c); simpl.
  - apply perm_skip. exact IH.
  - rewrite <- Permutation_middle. apply perm_skip. exact IH.
Qed.

Lemma ExtractTestConfigs_suites (sourcefile_path : string)
      (test_configs : list Config) :
  ExtractTestConfigs env sourcefile_path = Return test_configs ->
  Forall (fun c => suite_name c = suite_name_of sourcefile_path) test_configs.
Proof.
  unfold ExtractTestConfigs.
  destruct (files env sourcefile_path) as [sourcefile | ]; simpl;
    [ | discriminate ].
  intro H. apply scan_lines_appends in H.
  destruct H as [added [-> Hall]].
  constructor; [reflexivity | ].
  clear - Hall. induction Hall as [ | d c ds cs Hd _ IH]; constructor.
  - destruct Hd as [_ [Hs _]]. exact Hs.
  - exact IH.
Qed.

End ReportNames.

Lemma run_tests_skipped (env : Env) (fuel : nat) (parallelism : Z)
      (sourcefile_path cflags : string) (test_configs : list Config)
      (finished_tests : list Test) (w w' : World) :
  run_tests env fuel parallelism sourcefile_path cflags test_configs w
  = Ok finished_tests w' ->
  resultfile w' = (resultfile w ++ skipped_entries test_configs)%list.
Proof.
  unfold run_tests. intro H.
  apply bind_Ok in H. destruct H as [[ex fin] [w1 [H1 H]]].
  apply schedule_all_spawns in H1. destruct H1 as [_ Hr].
  apply drain_Ok in H. destruct H as [_ Hr']. congruence.
Qed.

Lemma run_tests_suites (env : Env) (fuel : nat) (parallelism : Z)
      (sourcefile_path cflags : string) (test_configs : list Config)
      (finished_tests : list Test) (w w' : World) (suite : string) :
  Forall (fun c => suite_name c = suite) test_configs ->
  run_tests env fuel parallelism sourcefile_path cflags test_configs w
  = Ok finished_tests w' ->
  Forall (fun t => test_suite_name t = suite) finished_tests.
Proof.
  intros Hc H.
  eapply (@run_tests_keeps env (fun c => suite_name c = suite)
                           (fun t => test_suite_name t = suite));
    try exact H; try exact Hc.
  - intros now rc t Hp. exact Hp.
  - intros now t Hp. exact Hp.
  - intros now rc t Hp. exact Hp.
  - intros sp cf config w0 t w1 Hs _ Hstart.
    apply StartTest_inv in Hstart.
    destruct Hstart as [argv [_ [_ [-> _]]]]. exact Hs.
Qed.

(** X4.  In the report of a run that completes every extracted descriptor
    is named by a verdict of its own: between the header and the stats
    entry the cases the verdicts name are, up to order, the names of the
    descriptors; every verdict that carries a suite, and the stats entry,
    carry the suite name derived from the source file's name. *)
Theorem report_names_every_descriptor :
  forall (env : Env) (fuel : nat)
         (prog arg1 sourcefile_path cflags resultfile_path : string)
         (test_configs : list Config) (w w' : World),
    ExtractTestConfigs env sourcefile_path = Return test_configs ->
    main env fuel [prog; arg1; sourcefile_path; cflags; resultfile_path] w
    = Ok tt w' ->
    exists verdicts started ended total extract compile process,
      resultfile w'
      = (HeaderEntry sourcefile_path :: verdicts ++
         [StatsEntry (suite_name_of sourcefile_path) started ended total
                     extract compile process])%list /\
      Permutation (map entry_case verdicts)
                  (map (fun c => Some (name c)) test_configs) /\
      Forall (fun e => entry_suite e = None \/
                       entry_suite e = Some (suite_name_of sourcefile_path))
             verdicts.
Proof.
  intros env fuel prog arg1 sourcefile_path cflags resultfile_path
         test_configs w w' Hextract H.
  unfold main in H.
  apply bind_Ok in H. destruct H as [u0 [w0 [H0 H]]].
  apply bind_Ok in H. destruct H as [parallelism [w1 [H1 H]]].
  apply bind_Ok in H. destruct H as [started [w2 [H2 H]]].
  apply bind_Ok in H. destruct H as [u3 [w3 [H3 H]]].
  apply bind_Ok in H. destruct H as [configs [w4 [H4 H]]].
  apply bind_Ok in H. destruct H as [extract_done [w5 [H5 H]]].
  apply bind_Ok in H. destruct H as [u6 [w6 [H6 H]]].
  apply bind_Ok in H. destruct H as [u7 [w7 [H7 H]]].
  apply bind_Ok in H. destruct H as [header_written [w8 [H8 H]]].
  apply bind_Ok in H. destruct H as [finished_tests [w9 [H9 H]]].
  apply bind_Ok in H. destruct H as [compile_done [w10 [H10 H]]].
  apply bind_Ok in H. destruct H as [u11 [w11 [H11 H]]].
  apply bind_Ok in H. destruct H as [results_processed [w12 [H12 H]]].
  apply bind_Ok in H. destruct H as [first [w13 [H13 H]]].
  apply lift_Ok in H4. destruct H4 as [H4 _].
  rewrite Hextract in H4. inversion H4; subst configs; clear H4.
  assert (Hopen : resultfile w6 = []).
  { unfold open_resultfile in H6.
    destruct (writable env resultfile_path); inversion H6; reflexivity. }
  assert (Hheader : resultfile w7 = [HeaderEntry sourcefile_path]).
  { unfold write in H7. inversion H7; simpl. rewrite Hopen. reflexivity. }
  apply time_time_Ok in H8. destruct H8 as [_ H8].
  pose proof Hextract as Hsuites. apply ExtractTestConfigs_suites in Hsuites.
  pose proof H9 as Hnames. apply run_tests_names in Hnames.
  pose proof H9 as Hfsuites.
  eapply run_tests_suites in Hfsuites; [ | exact Hsuites].
  apply run_tests_skipped in H9.
  apply time_time_Ok in H10. destruct H10 as [_ H10].
  apply process_results_entries in H11.
  destruct H11 as [judged [Hr11 [Hcases Hjs]]].
  apply time_time_Ok in H12. destruct H12 as [_ H12].
  assert (Hfirst : w13 = w12 /\
                   test_suite_name first = suite_name_of sourcefile_path).
  { destruct finished_tests as [ | t ts]; simpl in H13; [discriminate | ].
    apply ret_Ok in H13. destruct H13 as [<- H13].
    split; [exact H13 | ].
    inversion Hfsuites; assumption. }
  destruct Hfirst as [Hw13 Hfirst].
  unfold WriteStats, write in H. inversion H; subst w'; clear H. simpl.
  exists (skipped_entries test_configs ++ judged)%list.
  do 6 eexists. split; [ | split ].
  - rewrite Hw13, H12, Hr11, H10, H9, H8, Hheader, Hfirst. simpl.
    reflexivity.
  - rewrite map_app, Hcases.
    unfold skipped_entries. rewrite map_map. simpl.
    rewrite <- (map_map test_name Some), Hnames.
    rewrite !map_map, <- map_app.
    apply Permutation_map. apply filter_disabled_enabled_perm.
  - apply Forall_app. split.
    + unfold skipped_entries. apply Forall_forall. intros e He.
      apply in_map_iff in He. destruct He as [c [<- Hc]]. simpl. right.
      apply filter_In in Hc. destruct Hc as [Hc _].
      rewrite Forall_forall in Hsuites. rewrite (Hsuites c Hc). reflexivity.
    + clear - Hjs Hfsuites. induction Hjs as [ | e t es ts He _ IH].
      * constructor.
      * inversion Hfsuites; subst.
        constructor; [ | apply IH; assumption].
        destruct He as [He | He]; [left; exact He | right; congruence].
Qed.

Lemma report_names_every_descriptor_witness :
  exists w',
    Demo.run Demo.passing "2" = Ok tt w' /\
    exists verdicts,
      nth_error (resultfile w') 0
      = Some (HeaderEntry "base/bind_unittest.nc") /\
      Permutation (map entry_case verdicts)
                  [Some "NCTEST_SANITY"; Some "NCTEST_FOO";
                   Some "DISABLED_NCTEST_BAR"].
Proof.
  eexists. split; [vm_compute; reflexivity | ].
  match goal with
  | |- exists verdicts, nth_error (resultfile ?w') 0 = _ /\ _ =>
      destruct (@report_names_every_descriptor
                  (Demo.env_of Demo.passing) 100 "nocompile_driver.py" "2"
                  "base/bind_unittest.nc" "-Wall  -I." "out.cc"
                  [sanity_config "NoCompileBindUnittest";
                   {| name := "NCTEST_FOO";
                      suite_name := "NoCompileBindUnittest";
                      expectations :=
                        Some [Demo.literal_pattern "no matching function"] |};
                   {| name := "DISABLED_NCTEST_BAR";
                      suite_name := "NoCompileBindUnittest";
                      expectations := Some [] |}]
                  initial_world w'
                  ltac:(vm_compute; reflexivity)
                  ltac:(vm_compute; reflexivity))
        as [verdicts [s [e [t [x [c [p [Hr [Hperm _]]]]]]]]]
  end.
  exists verdicts. split; [vm_compute; reflexivity | exact Hperm].
Defined.

(* ------------------------------------------------------------------ *)
(** * How a run can fail *)

Section Faults.
Variable env : Env.

Lemma fails_within_bind {A B} (m : M A) (k : A -> M B) (w : World)
      (allowed : exn -> Prop) :
  fails_within allowed m w ->
  (forall a w1, m w = Ok a w1 -> fails_within allowed (k a) w1) ->
  fails_within allowed (bind m k) w.
Proof.
  intros Hm Hk e w' H. unfold bind in H.
  destruct (m w) as [a w1 | e1 w1 | w1] eqn:E.
  - exact (Hk a w1 eq_refl e w' H).
  - inversion H; subst. exact (Hm e w' E).
  - discriminate.
Qed.

Lemma safe_bind {A B} (m : M A) (k : A -> M B) :
  safe m -> (forall a, safe (k a)) -> safe (bind m k).
Proof.
  intros Hm Hk w. apply fails_within_bind; [apply Hm | ].
  intros a w1 _. apply Hk.
Qed.

Lemma safe_ret {A} (a : A) : safe (ret a).
Proof. intros w e w' H. discriminate. Qed.

Lemma safe_out_of_fuel {A} : safe (@out_of_fuel A).
Proof. intros w e w' H. discriminate. Qed.

Lemma safe_raise {A} (e : exn) : driver_fault e -> safe (@raise A e).
Proof. intros He w e' w' H. inversion H; subst. exact He. Qed.

Lemma safe_assert (b : bool) : safe (assert_ b).
Proof.
  destruct b; [apply safe_ret | ].
  apply safe_raise. unfold driver_fault. tauto.
Qed.

Lemma safe_write (e : Entry) : safe (write e).
Proof. intros w e' w' H. discriminate. Qed.

Lemma safe_time_time : safe (time_time env).
Proof. intros w e w' H. discriminate. Qed.

Lemma safe_send_signal (s : Signal) (p : Popen) (now : Z) :
  safe (send_signal s p now).
Proof. intros w e w' H. discriminate. Qed.

Lemma safe_proc_poll (p : Popen) : safe (proc_poll env p).
Proof. intros w e w' H. discriminate. Qed.

Lemma safe_popen (argv : list string) : safe (popen env argv).
Proof.
  intros w e w' H. unfold popen in H.
  destruct (popen_ok env argv); [discriminate | ].
  inversion H; subst. unfold driver_fault. tauto.
Qed.

Lemma safe_lift {A} (r : pyres A) :
  (forall e, r = Throw e -> driver_fault e) -> safe (lift r).
Proof.
  intros Hr w e w' H. destruct r as [a | e0]; simpl in H; [discriminate | ].
  inversion H; subst. apply Hr. reflexivity.
Qed.

Lemma compile_expectations_faults (raw : list PyItem) :
  forall acc e, compile_expectations env raw acc = Throw e -> driver_fault e.
Proof.
  induction raw as [ | item rest IH]; intros acc e H; simpl in H.
  - discriminate.
  - destruct item as [regex_str | ].
    + destruct (re_compile env regex_str) as [p | ]; simpl in H.
      * eapply IH. exact H.
      * inversion H; subst. unfold driver_fault. tauto.
    + inversion H; subst. unfold driver_fault. tauto.
Qed.

Lemma ParseExpectation_faults (comment : option string) (e : exn) :
  ParseExpectation env comment = Throw e -> driver_fault e.
Proof.
  unfold ParseExpectation. intro H.
  destruct comment as [s | ];
    [ | inversion H; subst; unfold driver_fault; tauto ].
  destruct (Re.match_ EXTRACT_EXPECTATION_RE s) as [m | ];
    [ | inversion H; subst; unfold driver_fault; tauto ].
  destruct (Re.group 1 m) as [text | ]; simpl in H;
    [ | inversion H; subst; unfold driver_fault; tauto ].
  destruct (literal_eval env text) as [[items | ] | ]; simpl in H;
    try (inversion H; subst; unfold driver_fault; tauto).
  eapply compile_expectations_faults. exact H.
Qed.

Lemma scan_lines_faults (suite : string) (sourcefile : list string) :
  forall acc e, scan_lines env suite sourcefile acc = Throw e -> driver_fault e.
Proof.
  induction sourcefile as [ | line rest IH]; intros acc e H; simpl in H.
  - discriminate.
  - destruct (directive line) as [[n comment] | ]; [ | eapply IH; exact H].
    destruct (ParseExpectation env comment) as [exps | e0] eqn:Hp;
      simpl in H.
    + eapply IH. exact H.
    + inversion H; subst. eapply ParseExpectation_faults. exact Hp.
Qed.

Lemma ExtractTestConfigs_faults (sourcefile_path : string) (e : exn) :
  ExtractTestConfigs env sourcefile_path = Throw e -> driver_fault e.
Proof.
  unfold ExtractTestConfigs.
  destruct (files env sourcefile_path) as [sourcefile | ]; simpl; intro H.
  - eapply scan_lines_faults. exact H.
  - inversion H; subst. unfold driver_fault. tauto.
Qed.

Lemma safe_StartTest (sourcefile_path cflags : string) (config : Config) :
  safe (StartTest env sourcefile_path cflags config).
Proof.
  unfold StartTest. apply safe_bind.
  - apply safe_lift. intros e H. unfold command_line in H.
    destruct (shlex_split env cflags); simpl in H; [discriminate | ].
    inversion H; subst. unfold driver_fault. tauto.
  - intro argv. apply safe_bind; [apply safe_popen | intro p].
    apply safe_bind; [apply safe_time_time | intro now]. apply safe_ret.
Qed.

Lemma safe_PassTest (test : Logged) : safe (PassTest test).
Proof. destruct test; apply safe_write. Qed.

Lemma safe_ProcessTestResult (test : Test) :
  safe (ProcessTestResult env test).
Proof.
  unfold ProcessTestResult, FailTest.
  destruct (negb (aborted_at test =? 0)%Z); [apply safe_write | ].
  destruct (test_expectations test) as [exps | ].
  - destruct (exit_status env test =? 0)%Z; [apply safe_write | ].
    destruct (List.length exps =? 0)%nat; [apply safe_PassTest | ].
    destruct (existsb _ exps); [apply safe_PassTest | apply safe_write].
  - destruct (exit_status env test =? 0)%Z;
      [apply safe_PassTest | apply safe_write].
Qed.

Lemma safe_process_results (finished_tests : list Test) :
  safe (process_results env finished_tests).
Proof.
  induction finished_tests as [ | test rest IH]; simpl.
  - apply safe_ret.
  - apply safe_bind; [apply safe_ProcessTestResult | intro; exact IH].
Qed.

Lemma safe_check_test (now : Z) (test : Test) :
  safe (check_test env now test).
Proof.
  unfold check_test. apply safe_bind; [apply safe_proc_poll | ].
  intros [rc | ]; [apply safe_ret | ].
  destruct (terminate_timeout test <? now)%Z;
    [ | destruct (kill_timeout test <? now)%Z ];
    try apply safe_ret;
    (apply safe_bind; [apply safe_send_signal | intro; apply safe_ret]).
Qed.

Lemma safe_check_tests (now : Z) (executing_tests : Executing) :
  forall finished_tests,
    safe (check_tests env now executing_tests finished_tests).
Proof.
  induction executing_tests as [ | [key test] rest IH]; intro fin; simpl.
  - apply safe_ret.
  - apply safe_bind; [apply safe_check_test | intros [test' done] ].
    apply safe_bind; [apply IH | intros [rest' fin'] ]. apply safe_ret.
Qed.

Lemma safe_poll_loop (fuel : nat) (busy_loop_timeout : Z) :
  forall executing_tests finished_tests,
    safe (poll_loop env fuel busy_loop_timeout executing_tests
                    finished_tests).
Proof.
  induction fuel as [ | fuel IH]; intros ex fin; simpl;
    destruct (List.length fin =? 0)%nat;
    try apply safe_ret; try apply safe_out_of_fuel.
  apply safe_bind; [apply safe_time_time | intro t].
  apply safe_bind; [apply safe_assert | intro u].
  apply safe_bind; [apply safe_time_time | intro now].
  apply safe_bind; [apply safe_check_tests | intros [ex1 fin1] ].
  apply IH.
Qed.

End Faults.

Section Removal.
Variable env : Env.

Lemma check_test_name (now : Z) (test test' : Test) (done : bool)
      (w w' : World) :
  check_test env now test w = Ok (test', done) w' ->
  test_name test' = test_name test.
Proof.
  unfold check_test, bind, proc_poll.
  destruct (poll_status env w (proc test)) as [rc | ].
  - intro H. apply ret_Ok in H. destruct H as [H _]. inversion H; subst.
    reflexivity.
  - destruct (terminate_timeout test <? now)%Z;
      [ | destruct (kill_timeout test <? now)%Z ];
      simpl; intro H; inversion H; subst; reflexivity.
Qed.

(** The tests a pass appends to [finished_tests] have distinct names, all
    of them keys of the dictionary. *)
Lemma check_tests_finished (now : Z) (executing_tests : Executing) :
  forall finished_tests executing_tests' finished_tests' w w',
    well_keyed executing_tests ->
    check_tests env now executing_tests finished_tests w
    = Ok (executing_tests', finished_tests') w' ->
    well_keyed executing_tests' /\
    exists new,
      finished_tests' = (finished_tests ++ new)%list /\
      NoDup (map test_name new) /\
      incl (map test_name new) (keys executing_tests).
Proof.
  induction executing_tests as [ | [key test] rest IH];
    intros fin ex' fin' w w' [Hnd Hkn] H; simpl in H.
  - apply ret_Ok in H. destruct H as [H _]. inversion H; subst.
    split; [split; constructor | ].
    exists []. rewrite app_nil_r. repeat split; [constructor | ].
    intros x [].
  - simpl in Hnd. apply NoDup_cons_iff in Hnd. destruct Hnd as [Hnotin Hnd'].
    pose proof (Forall_inv Hkn) as Hk. simpl in Hk.
    pose proof (Forall_inv_tail Hkn) as Hkn'.
    apply bind_Ok in H. destruct H as [[test' done] [w1 [H1 H2]]].
    apply bind_Ok in H2. destruct H2 as [[rest' fin1] [w2 [H2 H3]]].
    apply ret_Ok in H3. destruct H3 as [H3 _].
    injection H3 as Hex' Hfin'. subst ex' fin'.
    apply check_test_name in H1.
    pose proof H2 as Hkeys. apply check_tests_keys in Hkeys.
    apply IH in H2; [ | split; assumption].
    destruct H2 as [[Hnd1 Hkn1] [new [Hfin [Hnew Hincl]]]].
    split.
    + split.
      * simpl. rewrite Hkeys. constructor; assumption.
      * constructor; [simpl; congruence | exact Hkn1].
    + destruct done.
      * exists (test' :: new). rewrite Hfin, <- app_assoc. simpl.
        repeat split.
        -- constructor; [ | exact Hnew].
           intro Hin. apply Hnotin. apply Hincl. rewrite H1 in Hin.
           rewrite <- Hk in Hin. exact Hin.
        -- intros x [Hx | Hx].
           ++ left. rewrite <- Hx, H1. exact Hk.
           ++ right. apply Hincl. exact Hx.
      * exists new. repeat split; try assumption.
        intros x Hx. right. apply Hincl. exact Hx.
Qed.

Lemma poll_loop_returns_at_once (fuel : nat) (busy_loop_timeout : Z)
      (executing_tests : Executing) (finished_tests : list Test) :
  finished_tests <> [] ->
  poll_loop env fuel busy_loop_timeout executing_tests finished_tests
  = ret (executing_tests, finished_tests).
Proof.
  intro Hne. destruct finished_tests as [ | t l]; [contradiction | ].
  destruct fuel; reflexivity.
Qed.

Lemma poll_loop_finished (fuel : nat) (busy_loop_timeout : Z) :
  forall executing_tests executing_tests' finished_tests' w w',
    well_keyed executing_tests ->
    poll_loop env fuel busy_loop_timeout executing_tests [] w
    = Ok (executing_tests', finished_tests') w' ->
    well_keyed executing_tests' /\
    NoDup (map test_name finished_tests') /\
    incl (map test_name finished_tests') (keys executing_tests').
Proof.
  induction fuel as [ | fuel IH]; intros ex ex' fin' w w' Hwk H; simpl in H.
  - discriminate.
  - apply bind_Ok in H. destruct H as [t0 [w1 [_ H]]].
    apply bind_Ok in H. destruct H as [u [w2 [_ H]]].
    apply bind_Ok in H. destruct H as [now [w3 [_ H]]].
    apply bind_Ok in H. destruct H as [[ex1 fin1] [w4 [H4 H]]].
    pose proof H4 as Hkeys. apply check_tests_keys in Hkeys.
    apply check_tests_finished in H4; [ | exact Hwk].
    destruct H4 as [Hwk1 [new [Hfin [Hnew Hincl]]]]. simpl in Hfin.
    subst fin1.
    destruct new as [ | t new].
    + eapply IH; eassumption.
    + rewrite poll_loop_returns_at_once in H by discriminate.
      apply ret_Ok in H. destruct H as [H _]. inversion H; subst.
      split; [exact Hwk1 | split; [exact Hnew | ] ].
      rewrite Hkeys. exact Hincl.
Qed.

Lemma dict_del_present (key : string) :
  forall d, In key (keys d) -> exists d', dict_del key d = Some d'.
Proof.
  induction d as [ | [k v] d IH]; simpl; intro Hin.
  - destruct Hin.
  - destruct (String.eqb k key) eqn:Hk; [eexists; reflexivity | ].
    destruct Hin as [Heq | Hin].
    + subst k. rewrite String.eqb_refl in Hk. discriminate.
    + destruct (IH Hin) as [d' Hd]. rewrite Hd. simpl. eexists. reflexivity.
Qed.

Lemma dict_del_keeps_other (key : string) :
  forall d d' k,
    dict_del key d = Some d' -> In k (keys d) -> k <> key -> In k (keys d').
Proof.
  induction d as [ | [k0 v] d IH]; simpl; intros d' k H Hin Hne.
  - discriminate.
  - destruct (String.eqb k0 key) eqn:Hk.
    + inversion H; subst. apply String.eqb_eq in Hk. subst k0.
      destruct Hin as [Heq | Hin]; [congruence | exact Hin].
    + destruct (dict_del key d) as [d0 | ] eqn:Hd; simpl in H;
        [ | discriminate ].
      inversion H; subst. simpl. destruct Hin as [Heq | Hin].
      * left. exact Heq.
      * right. eapply IH; [reflexivity | exact Hin | exact Hne].
Qed.

(** Deleting tests with distinct names that are all keys of the dictionary
    raises no [KeyError]. *)
Lemma del_finished_succeeds (finished_tests : list Test) :
  forall executing_tests,
    NoDup (map test_name finished_tests) ->
    incl (map test_name finished_tests) (keys executing_tests) ->
    exists executing_tests',
      forall w, del_finished finished_tests executing_tests w
                = Ok executing_tests' w.
Proof.
  induction finished_tests as [ | test rest IH]; intros ex Hnd Hincl; simpl.
  - exists ex. intro w. reflexivity.
  - inversion Hnd as [ | n l Hnotin Hnd']; subst.
    destruct (@dict_del_present (test_name test) ex) as [d Hd].
    { apply Hincl. left. reflexivity. }
    rewrite Hd. apply IH; [exact Hnd' | ].
    intros k Hk. eapply dict_del_keeps_other; [exact Hd | | ].
    + apply Hincl. right. exact Hk.
    + intro Heq. subst k. contradiction.
Qed.

Lemma del_finished_well_keyed (finished_tests : list Test) :
  forall executing_tests executing_tests' w w',
    well_keyed executing_tests ->
    del_finished finished_tests executing_tests w = Ok executing_tests' w' ->
    well_keyed executing_tests'.
Proof.
  intros ex ex' w w' [Hnd Hkn] H. split.
  - eapply del_finished_NoDup; eassumption.
  - revert ex ex' w w' Hkn H Hnd.
    induction finished_tests as [ | test rest IH];
      intros ex ex' w w' Hkn H Hnd; simpl in H.
    + apply ret_Ok in H. destruct H as [<- _]. exact Hkn.
    + destruct (dict_del (test_name test) ex) as [d | ] eqn:Hd;
        [ | discriminate ].
      eapply IH; [ | exact H | ].
      * eapply dict_del_Forall; eassumption.
      * eapply keys_dict_del_NoDup; eassumption.
Qed.

(** On a well-keyed dictionary [CompleteAtLeastOneTest] fails only by the
    assertion of its liveness guard, and leaves the dictionary
    well-keyed. *)
Lemma CompleteAtLeastOneTest_safe (fuel : nat) (executing_tests : Executing)
      (w : World) :
  well_keyed executing_tests ->
  fails_within driver_fault
               (CompleteAtLeastOneTest env fuel executing_tests) w /\
  (forall executing_tests' done w',
      CompleteAtLeastOneTest env fuel executing_tests w
      = Ok (executing_tests', done) w' ->
      well_keyed executing_tests').
Proof.
  intro Hwk. unfold CompleteAtLeastOneTest. split.
  - apply fails_within_bind; [apply safe_time_time | intros t w1 _].
    apply fails_within_bind; [apply safe_poll_loop | ].
    intros [ex1 fin1] w2 H2.
    apply poll_loop_finished in H2; [ | exact Hwk].
    destruct H2 as [_ [Hnd Hincl]].
    destruct (@del_finished_succeeds fin1 ex1 Hnd Hincl) as [ex2 Hdel].
    intros e w' H. unfold bind in H. rewrite Hdel in H. discriminate.
  - intros ex' done w' H.
    apply bind_Ok in H. destruct H as [t [w1 [_ H]]].
    apply bind_Ok in H. destruct H as [[ex1 fin1] [w2 [H2 H]]].
    apply bind_Ok in H. destruct H as [ex2 [w3 [H3 H]]].
    apply ret_Ok in H. destruct H as [H _]. inversion H; subst.
    apply poll_loop_finished in H2; [ | exact Hwk].
    destruct H2 as [Hwk1 _].
    eapply del_finished_well_keyed; eassumption.
Qed.

Lemma dict_set_well_keyed (test : Test) (d : Executing) :
  well_keyed d -> dict_has (test_name test) d = false ->
  well_keyed (dict_set (test_name test) test d).
Proof.
  intros [Hnd Hkn] Hin. split.
  - rewrite (keys_dict_set_new _ _ _ Hin).
    apply NoDup_app; [exact Hnd | constructor; [intros [] | constructor] | ].
    intros k Hk [Heq | []]. subst k.
    apply dict_has_In in Hk. congruence.
  - apply dict_set_Forall; [exact Hkn | reflexivity].
Qed.

Lemma schedule_safe (fuel : nat) (parallelism : Z)
      (sourcefile_path cflags : string) (config : Config)
      (executing_tests : Executing) (finished_tests : list Test)
      (w : World) :
  well_keyed executing_tests ->
  fails_within driver_fault
               (schedule env fuel parallelism sourcefile_path cflags config
                         executing_tests finished_tests) w /\
  (forall executing_tests' finished_tests' w',
      schedule env fuel parallelism sourcefile_path cflags config
               executing_tests finished_tests w
      = Ok (executing_tests', finished_tests') w' ->
      well_keyed executing_tests').
Proof.
  intro Hwk.
  assert (Hwait :
            forall r w1,
              (if (Z.of_nat (List.length executing_tests) >=? parallelism)%Z
               then
                 ' (executing_tests0, done) <-
                   CompleteAtLeastOneTest env fuel executing_tests ;;
                 ret (executing_tests0, (finished_tests ++ done)%list)
               else ret (executing_tests, finished_tests)) w = Ok r w1 ->
              well_keyed (fst r)).
  { intros [ex1 fin1] w1 H1. simpl.
    destruct (Z.of_nat (List.length executing_tests) >=? parallelism)%Z.
    - apply bind_Ok in H1. destruct H1 as [[ex0 done] [w0 [H0 H1]]].
      apply ret_Ok in H1. destruct H1 as [H1 _]. inversion H1; subst.
      eapply (proj2 (@CompleteAtLeastOneTest_safe fuel executing_tests w Hwk)). exact H0.
    - apply ret_Ok in H1. destruct H1 as [H1 _]. inversion H1; subst.
      exact Hwk. }
  unfold schedule. split.
  - apply fails_within_bind.
    + destruct (Z.of_nat (List.length executing_tests) >=? parallelism)%Z;
        [ | apply safe_ret ].
      apply fails_within_bind;
        [apply (proj1 (@CompleteAtLeastOneTest_safe fuel executing_tests w Hwk)) | ].
      intros [ex0 done] w0 _. apply safe_ret.
    + intros [ex1 fin1] w1 H1.
      destruct (Py.startswith (name config) "DISABLED_").
      * apply safe_bind; [apply safe_PassTest | intro; apply safe_ret].
      * apply safe_bind; [apply safe_StartTest | intro test].
        apply safe_bind; [apply safe_assert | intro; apply safe_ret].
  - intros ex' fin' w' H.
    apply bind_Ok in H. destruct H as [[ex1 fin1] [w1 [H1 H]]].
    apply Hwait in H1. simpl in H1.
    destruct (Py.startswith (name config) "DISABLED_").
    + apply bind_Ok in H. destruct H as [u [w2 [_ H]]].
      apply ret_Ok in H. destruct H as [H _]. inversion H; subst. exact H1.
    + apply bind_Ok in H. destruct H as [test [w2 [_ H]]].
      apply bind_Ok in H. destruct H as [u [w3 [H3 H]]].
      apply ret_Ok in H. destruct H as [H _]. inversion H; subst.
      apply assert_Ok in H3. destruct H3 as [Hin _].
      apply negb_true_iff in Hin.
      apply dict_set_well_keyed; assumption.
Qed.

Lemma schedule_all_safe (fuel : nat) (parallelism : Z)
      (sourcefile_path cflags : string) (test_configs : list Config) :
  forall executing_tests finished_tests w,
    well_keyed executing_tests ->
    fails_within driver_fault
                 (schedule_all env fuel parallelism sourcefile_path cflags
                               test_configs executing_tests finished_tests)
                 w /\
    (forall executing_tests' finished_tests' w',
        schedule_all env fuel parallelism sourcefile_path cflags
                     test_configs executing_tests finished_tests w
        = Ok (executing_tests', finished_tests') w' ->
        well_keyed executing_tests').
Proof.
  induction test_configs as [ | config rest IH]; intros ex fin w Hwk; simpl.
  - split; [apply safe_ret | ].
    intros ex' fin' w' H. apply ret_Ok in H. destruct H as [H _].
    inversion H; subst. exact Hwk.
  - destruct (@schedule_safe fuel parallelism sourcefile_path cflags config
                             ex fin w Hwk) as [Hf Hk].
    split.
    + apply fails_within_bind; [exact Hf | ].
      intros [ex1 fin1] w1 H1. apply IH. eapply Hk. exact H1.
    + intros ex' fin' w' H.
      apply bind_Ok in H. destruct H as [[ex1 fin1] [w1 [H1 H]]].
      eapply (proj2 (IH ex1 fin1 w1 (Hk _ _ _ H1))). exact H.
Qed.

Lemma drain_safe (rounds fuel : nat) :
  forall executing_tests finished_tests w,
    well_keyed executing_tests ->
    fails_within driver_fault
                 (drain env rounds fuel executing_tests finished_tests) w.
Proof.
  induction rounds as [ | rounds IH]; intros ex fin w Hwk; simpl;
    destruct (0 <? List.length ex)%nat;
    try apply safe_ret; try apply safe_out_of_fuel.
  destruct (@CompleteAtLeastOneTest_safe fuel ex w Hwk) as [Hf Hk].
  apply fails_within_bind; [exact Hf | ].
  intros [ex1 done] w1 H1. apply IH. eapply Hk. exact H1.
Qed.

Lemma run_tests_safe (fuel : nat) (parallelism : Z)
      (sourcefile_path cflags : string) (test_configs : list Config) :
  safe (run_tests env fuel parallelism sourcefile_path cflags test_configs).
Proof.
  intro w. unfold run_tests.
  assert (Hwk : well_keyed []) by (split; constructor).
  destruct (@schedule_all_safe fuel parallelism sourcefile_path cflags
                               test_configs [] [] w Hwk) as [Hf Hk].
  apply fails_within_bind; [exact Hf | ].
  intros [ex fin] w1 H1. apply drain_safe. eapply Hk. exact H1.
Qed.

End Removal.

(** X5.  A run of the driver, whatever its arguments and its environment,
    ends abnormally only by one of its configuration and environment
    faults: the usage exit with status 1, a [ValueError] (a parallelism
    that is no integer, flags that cannot be split), an [AssertionError]
    (parallelism below 1, a directive without a well-formed expectation
    comment, a name already in flight, the liveness guard), an [IOError]
    (a source file that cannot be read, a result file that cannot be
    written), a malformed expectation literal, a pattern that does not
    compile, or a compiler that cannot be started.  In particular removing
    the finished tests from the dictionary never raises [KeyError] and
    taking the first finished test never raises [IndexError]. *)
Theorem main_fails_only_by_driver_faults :
  forall (env : Env) (fuel : nat) (argv : list string) (w w' : World)
         (e : exn),
    main env fuel argv w = Raise e w' ->
    driver_fault e /\ e <> KeyError /\ e <> IndexError.
Proof.
  intros env fuel argv w w' e H.
  assert (Hfault : driver_fault e).
  { revert e w' H. change (fails_within driver_fault (main env fuel argv) w).
    assert (Husage : forall w0,
               fails_within driver_fault
                            (print (usage (nth 0 argv "")) ;;
                             @raise unit (SystemExit 1)) w0).
    { intro w0. apply safe_bind; [intros w1 e w' H; discriminate | ].
      intro. apply safe_raise. unfold driver_fault. tauto. }
    unfold main.
    destruct argv as [ | prog [ | arg1 [ | sourcefile_path [ | cflags
                     [ | resultfile_path [ | extra argv]]]]]];
      try apply Husage.
    clear Husage.
    apply fails_within_bind; [intros e w' H; discriminate | intros u0 w0 _].
    apply fails_within_bind.
    { apply safe_lift. intros e H.
      destruct (py_int env arg1); simpl in H; [discriminate | ].
      inversion H; subst. unfold driver_fault. tauto. }
    intros parallelism w1 _.
    apply fails_within_bind; [apply safe_time_time | intros started w2 _].
    apply fails_within_bind; [apply safe_assert | intros u3 w3 _].
    apply fails_within_bind.
    { apply safe_lift. apply ExtractTestConfigs_faults. }
    intros test_configs w4 Hextract. apply lift_Ok in Hextract.
    destruct Hextract as [Hextract _].
    apply fails_within_bind; [apply safe_time_time | intros extract_done w5 _].
    apply fails_within_bind.
    { intros e w' H. unfold open_resultfile in H.
      destruct (writable env resultfile_path); [discriminate | ].
      inversion H; subst. unfold driver_fault. tauto. }
    intros u6 w6 _.
    apply fails_within_bind; [apply safe_write | intros u7 w7 _].
    apply fails_within_bind;
      [apply safe_time_time | intros header_written w8 _].
    apply fails_within_bind;
      [apply run_tests_safe | intros finished_tests w9 Hrun].
    apply fails_within_bind; [apply safe_time_time | intros compile_done w10 _].
    apply fails_within_bind; [apply safe_process_results | intros u11 w11 _].
    apply fails_within_bind;
      [apply safe_time_time | intros results_processed w12 _].
    apply ExtractTestConfigs_head in Hextract. destruct Hextract as [rest ->].
    apply run_tests_Ok in Hrun. destruct Hrun as [_ [_ [_ [_ Hlen]]]].
    simpl in Hlen.
    destruct finished_tests as [ | first others]; [discriminate | ].
    apply fails_within_bind; [intros e w' H; discriminate | intros t w13 _].
    unfold WriteStats. apply safe_write. }
  split; [exact Hfault | ].
  unfold driver_fault in Hfault.
  split; intro Heq; subst e;
    repeat (destruct Hfault as [Hfault | Hfault]; try discriminate).
Qed.

Lemma main_fails_only_by_driver_faults_witness :
  driver_fault AssertionError /\ AssertionError <> KeyError /\
  AssertionError <> IndexError.
Proof.
  eapply (@main_fails_only_by_driver_faults
            (Demo.env_of Demo.uncommented) 100
            ["nocompile_driver.py"; "2"; "plain.nc"; "-Wall  -I."; "out.cc"]
            initial_world _ AssertionError).
  vm_compute. reflexivity.
Defined.

(* ------------------------------------------------------------------ *)
(** * Configuration faults *)

(** X6.  A configuration fault stops the run before anything is done: with
    an argument count other than five the driver prints its usage line and
    exits with status 1; with a parallelism that is no integer it raises
    [ValueError], with one below 1 the assertion of [ValidateInput] fails,
    and when the extraction of the test configurations raises, [main]
    raises the same exception.  In each case no child has been started, no
    signal sent, and the result file has not been opened: what it held is
    still there. *)
Theorem configuration_faults_leave_no_trace :
  forall (env : Env) (fuel : nat) (w : World),
    (forall argv,
        List.length argv <> 5 ->
        exists w',
          main env fuel argv w = Raise (SystemExit 1) w' /\
          printed w' = (printed w ++ [usage (nth 0 argv "")])%list /\
          resultfile w' = resultfile w /\ spawned w' = spawned w /\
          signals w' = signals w /\ ticks w' = ticks w) /\
    (forall prog arg1 sourcefile_path cflags resultfile_path,
        let argv := [prog; arg1; sourcefile_path; cflags; resultfile_path] in
        (py_int env arg1 = None ->
         exists w',
           main env fuel argv w = Raise ValueError w' /\
           resultfile w' = resultfile w /\ spawned w' = spawned w /\
           signals w' = signals w) /\
        (forall parallelism,
            py_int env arg1 = Some parallelism -> (parallelism < 1)%Z ->
            exists w',
              main env fuel argv w = Raise AssertionError w' /\
              resultfile w' = resultfile w /\ spawned w' = spawned w /\
              signals w' = signals w) /\
        (forall parallelism e,
            py_int env arg1 = Some parallelism -> (1 <= parallelism)%Z ->
            ExtractTestConfigs env sourcefile_path = Throw e ->
            exists w',
              main env fuel argv w = Raise e w' /\
              resultfile w' = resultfile w /\ spawned w' = spawned w /\
              signals w' = signals w)).
Proof.
  intros env fuel w. split.
  - intros argv Hlen.
    assert (Husage :
              (print (usage (nth 0 argv "")) ;; @raise unit (SystemExit 1)) w
              = Raise (SystemExit 1)
                      {| ticks := ticks w; spawned := spawned w;
                         resultfile := resultfile w; signals := signals w;
                         LC_ALL := LC_ALL w;
                         printed := printed w ++ [usage (nth 0 argv "")] |})
      by reflexivity.
    exists {| ticks := ticks w; spawned := spawned w;
              resultfile := resultfile w; signals := signals w;
              LC_ALL := LC_ALL w;
              printed := printed w ++ [usage (nth 0 argv "")] |}.
    split.
    + unfold main.
      destruct argv as [ | prog [ | arg1 [ | sourcefile_path [ | cflags
                       [ | resultfile_path [ | extra argv]]]]]];
        try exact Husage.
      exfalso. apply Hlen. reflexivity.
    + simpl. repeat split.
  - intros prog arg1 sourcefile_path cflags resultfile_path argv.
    subst argv. split; [ | split ].
    + intro Hint. eexists. split.
      * unfold main, bind, set_LC_ALL. rewrite Hint. simpl. reflexivity.
      * simpl. repeat split.
    + intros parallelism Hint Hlow. eexists. split.
      * unfold main, bind, set_LC_ALL, ValidateInput. rewrite Hint. simpl.
        assert (Hge : (parallelism >=? 1)%Z = false).
        { rewrite Z.geb_leb. apply Z.leb_gt. exact Hlow. }
        rewrite Hge. simpl. reflexivity.
      * simpl. repeat split.
    + intros parallelism e Hint Hok Hextract. eexists. split.
      * unfold main, bind, set_LC_ALL, ValidateInput. rewrite Hint. simpl.
        assert (Hge : (parallelism >=? 1)%Z = true).
        { rewrite Z.geb_leb. apply Z.leb_le. exact Hok. }
        rewrite Hge. simpl. rewrite Hextract. simpl. reflexivity.
      * simpl. repeat split.
Qed.

(* ------------------------------------------------------------------ *)
(** * What the driver's patterns accept *)

Lemma str_app_assoc (a b c : string) : ((a ++ b) ++ c = a ++ b ++ c)%string.
Proof. induction a as [ | x a IH]; simpl; [reflexivity | rewrite IH; reflexivity]. Qed.

Lemma str_app_nil_r (a : string) : (a ++ "" = a)%string.
Proof. induction a as [ | x a IH]; simpl; [reflexivity | rewrite IH; reflexivity]. Qed.

Lemma str_length_app (a b : string) :
  String.length (a ++ b) = String.length a + String.length b.
Proof. induction a as [ | x a IH]; simpl; [reflexivity | rewrite IH; reflexivity]. Qed.

Lemma substring_prefix (a b : string) :
  substring 0 (String.length a) (a ++ b) = a.
Proof.
  induction a as [ | x a IH]; simpl.
  - destruct b; reflexivity.
  - rewrite IH. reflexivity.
Qed.

(** The text a group captures is the text its pattern consumed. *)
Lemma consumed_app (a rest : string) : Re.consumed (a ++ rest) rest = a.
Proof.
  unfold Re.consumed. rewrite str_length_app.
  replace (String.length a + String.length rest - String.length rest)
    with (String.length a) by lia.
  apply substring_prefix.
Qed.

Lemma strip_prefix_Some (l : string) :
  forall s s', Re.strip_prefix l s = Some s' -> s = (l ++ s')%string.
Proof.
  induction l as [ | a l IH]; intros s s' H; simpl in H.
  - inversion H. reflexivity.
  - destruct s as [ | b s]; [discriminate | ].
    destruct (Ascii.eqb a b) eqn:Hab; [ | discriminate ].
    apply Ascii.eqb_eq in Hab. subst b.
    apply IH in H. rewrite H. reflexivity.
Qed.

Lemma strip_prefix_app (l s : string) : Re.strip_prefix l (l ++ s) = Some s.
Proof.
  induction l as [ | a l IH]; simpl; [reflexivity | ].
  rewrite Ascii.eqb_refl. exact IH.
Qed.

Lemma all_chars_app (p : ascii -> bool) (a b : string) :
  all_chars p (a ++ b) = all_chars p a && all_chars p b.
Proof.
  induction a as [ | c a IH]; simpl; [reflexivity | ].
  rewrite IH. apply andb_assoc.
Qed.

Lemma star_sound (p : ascii -> bool) (k : string -> option Re.groups) :
  forall s out,
    Re.star p s k = Some out ->
    exists a s',
      s = (a ++ s')%string /\ all_chars p a = true /\ k s' = Some out.
Proof.
  induction s as [ | c s IH]; intros out H; simpl in H.
  - exists EmptyString, EmptyString. repeat split. exact H.
  - destruct (p c) eqn:Hp.
    + destruct (Re.star p s k) as [g | ] eqn:Hs.
      * inversion H; subst. destruct (IH out eq_refl) as [a [s' [Hs' [Ha Hk]]]].
        exists (String c a), s'. simpl. rewrite Hs', Hp, Ha.
        repeat split. exact Hk.
      * exists EmptyString, (String c s). repeat split. exact H.
    + exists EmptyString, (String c s). repeat split. exact H.
Qed.

(** Soundness of the matcher: when a match succeeds, the pattern matched
    a prefix of the text, the continuation succeeded on the rest, and the
    groups the pattern does not bind are as they were. *)
Lemma run_sound (subject : string) (r : Re.regex) :
  forall s g k out,
    Re.run subject r s g k = Some out ->
    exists a s' g',
      s = (a ++ s')%string /\ matches r a /\ k s' g' = Some out /\
      (forall n, binds r n = false -> Re.group n g' = Re.group n g).
Proof.
  induction r as [ | l | p | p | r IH | r1 IH1 r2 IH2 | m r IH | ];
    intros s g k out H; simpl in H.
  - destruct (String.length s =? String.length subject)%nat;
      [ | discriminate ].
    exists "", s, g. repeat split; [constructor | exact H].
  - destruct (Re.strip_prefix l s) as [s' | ] eqn:Hl; [ | discriminate ].
    apply strip_prefix_Some in Hl. subst s.
    exists l, s', g. repeat split; [constructor | exact H].
  - apply star_sound in H. destruct H as [a [s' [-> [Ha Hk]]]].
    exists a, s', g. repeat split; [constructor; exact Ha | exact Hk].
  - destruct s as [ | c s]; [discriminate | ].
    destruct (p c) eqn:Hp; [ | discriminate ].
    apply star_sound in H. destruct H as [a [s' [-> [Ha Hk]]]].
    exists (String c a), s', g.
    repeat split; [constructor; assumption | exact Hk].
  - destruct (Re.run subject r s g k) as [g1 | ] eqn:Hr.
    + inversion H; subst.
      destruct (IH _ _ _ _ Hr) as [a [s' [g' [Hs [Hc [Hk Hg]]]]]].
      exists a, s', g'.
      repeat split; [exact Hs | constructor; exact Hc | exact Hk | exact Hg].
    + exists "", s, g. repeat split; [apply matches_Opt_none | exact H].
  - destruct (IH1 _ _ _ _ H) as [a1 [s1 [g1 [Hs1 [Hc1 [Hk1 Hg1]]]]]].
    destruct (IH2 _ _ _ _ Hk1) as [a2 [s2 [g2 [Hs2 [Hc2 [Hk2 Hg2]]]]]].
    exists (a1 ++ a2), s2, g2. split; [ | split; [ | split ]].
    + rewrite str_app_assoc, <- Hs2. exact Hs1.
    + constructor; assumption.
    + exact Hk2.
    + intros n Hn. simpl in Hn. apply orb_false_iff in Hn.
      destruct Hn as [Hn1 Hn2]. rewrite (Hg2 n Hn2). apply Hg1. exact Hn1.
  - destruct (IH _ _ _ _ H) as [a [s' [g' [Hs [Hc [Hk Hg]]]]]].
    exists a, s', ((m, Re.consumed s s') :: g').
    split; [ | split; [ | split ]].
    + exact Hs.
    + constructor. exact Hc.
    + exact Hk.
    + intros n Hn. simpl in Hn. apply orb_false_iff in Hn.
      destruct Hn as [Hmn Hn]. simpl. rewrite Hmn. apply Hg. exact Hn.
  - exists "", s, g. repeat split; [constructor | exact H].
Qed.

(** One step along a sequence. *)
Lemma run_seq_sound (subject : string) (r1 r2 : Re.regex) :
  forall s g k out,
    Re.run subject (Re.Seq r1 r2) s g k = Some out ->
    exists a s1 g1,
      s = (a ++ s1)%string /\ matches r1 a /\
      Re.run subject r2 s1 g1 k = Some out /\
      (forall n, binds r1 n = false -> Re.group n g1 = Re.group n g).
Proof.
  intros s g k out H.
  change (Re.run subject r1 s g (fun s' g' => Re.run subject r2 s' g' k)
          = Some out) in H.
  apply run_sound in H. exact H.
Qed.

(** The same for a capturing group, with what it captured. *)
Lemma run_group_sound (subject : string) (m : nat) (r : Re.regex) :
  forall s g k out,
    Re.run subject (Re.Group m r) s g k = Some out ->
    exists a s' g',
      s = (a ++ s')%string /\ matches r a /\
      k s' ((m, a) :: g') = Some out /\
      (forall n, binds r n = false -> Re.group n g' = Re.group n g).
Proof.
  intros s g k out H.
  change (Re.run subject r s g
            (fun s' g' => k s' ((m, Re.consumed s s') :: g')) = Some out) in H.
  apply run_sound in H. destruct H as [a [s' [g' [Hs [Hc [Hk Hg]]]]]].
  exists a, s', g'. subst s. rewrite consumed_app in Hk.
  repeat split; assumption.
Qed.

Lemma run_seq_group_sound (subject : string) (m : nat) (r1 r2 : Re.regex) :
  forall s g k out,
    Re.run subject (Re.Seq (Re.Group m r1) r2) s g k = Some out ->
    exists a s1 g1,
      s = (a ++ s1)%string /\ matches r1 a /\
      Re.run subject r2 s1 ((m, a) :: g1) k = Some out /\
      (forall n, binds r1 n = false -> Re.group n g1 = Re.group n g).
Proof.
  intros s g k out H.
  change (Re.run subject (Re.Group m r1) s g
            (fun s' g' => Re.run subject r2 s' g' k) = Some out) in H.
  apply run_group_sound in H. exact H.
Qed.

(** The end of a pattern: an optional group, then nothing. *)
Lemma run_opt_group_end (subject : string) (m : nat) (r : Re.regex) :
  forall s g out,
    Re.run subject (Re.Seq (Re.Opt (Re.Group m r)) Re.Eps) s g
           (fun _ g' => Some g') = Some out ->
    out = g \/
    exists a s' g',
      s = (a ++ s')%string /\ matches r a /\ out = (m, a) :: g' /\
      (forall n, binds r n = false -> Re.group n g' = Re.group n g).
Proof.
  intros s g out H.
  change (match Re.run subject (Re.Group m r) s g (fun _ g' => Some g') with
          | Some g' => Some g'
          | None => Some g
          end = Some out) in H.
  destruct (Re.run subject (Re.Group m r) s g (fun _ g' => Some g'))
    as [g1 | ] eqn:Hr.
  - inversion H; subst g1. right.
    apply run_group_sound in Hr.
    destruct Hr as [a [s' [g' [Hs [Hc [Hk Hg]]]]]].
    exists a, s', g'. inversion Hk. repeat split; assumption.
  - inversion H. left. reflexivity.
Qed.

Ltac invert_matches :=
  repeat match goal with
         | H : matches (Re.Seq _ _) _ |- _ => inversion H; subst; clear H
         | H : matches (Re.Lit _) _ |- _ => inversion H; subst; clear H
         | H : matches (Re.Star _) _ |- _ => inversion H; subst; clear H
         | H : matches (Re.Plus _) _ |- _ => inversion H; subst; clear H
         | H : matches Re.Eps _ |- _ => inversion H; subst; clear H
         | H : matches Re.Bol _ |- _ => inversion H; subst; clear H
         end.

(** The parts of a line the directive pattern has matched. *)
Lemma NCTEST_CONFIG_RE_sound (line : string) (m : Re.groups) :
  Re.match_ NCTEST_CONFIG_RE line = Some m ->
  exists el pre c0 gap a b gap' tail rest,
    (el = "" \/ el = "el") /\
    line = "#" ++ el ++ "if" ++ pre ++ String c0 gap ++
           (a ++ "NCTEST" ++ b) ++ gap' ++ tail ++ rest /\
    all_chars Py.not_newline pre = true /\
    Py.is_space c0 = true /\ all_chars Py.is_space gap = true /\
    all_chars Py.not_space a = true /\ all_chars Py.not_space b = true /\
    all_chars Py.is_space gap' = true /\
    Re.group 1 m = Some (a ++ "NCTEST" ++ b) /\
    ((Re.group 2 m = None /\ tail = "") \/
     exists t, Re.group 2 m = Some ("//" ++ t) /\ tail = "//" ++ t /\
               all_chars Py.not_newline t = true).
Proof.
  unfold Re.match_, NCTEST_CONFIG_RE, Re.seq_of. cbn [fold_right]. intro H.
  apply run_seq_sound in H. destruct H as (x0 & s0 & g0 & E0 & M0 & H & G0).
  apply run_seq_sound in H. destruct H as (x1 & s1 & g1 & E1 & M1 & H & G1).
  apply run_seq_sound in H. destruct H as (x2 & s2 & g2 & E2 & M2 & H & G2).
  apply run_seq_sound in H. destruct H as (x3 & s3 & g3 & E3 & M3 & H & G3).
  apply run_seq_sound in H. destruct H as (x4 & s4 & g4 & E4 & M4 & H & G4).
  apply run_seq_sound in H. destruct H as (x5 & s5 & g5 & E5 & M5 & H & G5).
  apply run_seq_group_sound in H.
  destruct H as (x6 & s6 & g6 & E6 & M6 & H & G6).
  apply run_seq_sound in H. destruct H as (x7 & s7 & g7 & E7 & M7 & H & G7).
  apply run_opt_group_end in H.
  assert (H1 : Re.group 1 g7 = Some x6) by (rewrite (G7 1 eq_refl); reflexivity).
  assert (H2 : Re.group 2 g7 = None).
  { rewrite (G7 2 eq_refl). simpl.
    rewrite (G6 2 eq_refl), (G5 2 eq_refl), (G4 2 eq_refl), (G3 2 eq_refl),
      (G2 2 eq_refl), (G1 2 eq_refl), (G0 2 eq_refl). reflexivity. }
  assert (Hel : x2 = "" \/ x2 = "el").
  { inversion M2; subst; [ | left; reflexivity ].
    invert_matches. right. reflexivity. }
  clear M2.
  invert_matches.
  rewrite str_app_nil_r in *.
  destruct H as [Hm | (t & s8 & g8 & E8 & M8 & Hm & G8)]; subst m.
  - exists x2, x4, c, a0, a, a1, x7, "", s7.
    repeat split; try assumption.
    left. split; [assumption | reflexivity].
  - invert_matches. rewrite str_app_nil_r.
    exists x2, x4, c, a0, a, a1, x7, ("//" ++ a3), s8.
    repeat split; try assumption.
    + simpl. rewrite (G8 1 eq_refl). exact H1.
    + right. exists a3. repeat split. assumption.
Qed.

(** X7.  A line is taken for a case directive only if it reads: [#if] or
    [#elif], any text without a newline, at least one whitespace
    character, a word without whitespace that contains NCTEST, optional
    whitespace, and then a comment [// ...] without a newline, or nothing
    of the kind, before the rest of the line.  The word is the name that
    is extracted; the comment, when there is one, is the text handed to
    ParseExpectation. *)
Theorem directive_shape (line n : string) (comment : option string) :
  directive line = Some (n, comment) ->
  exists kw pre gap a b gap' rest,
    (kw = "#if" \/ kw = "#elif") /\
    line = kw ++ pre ++ gap ++ n ++ gap' ++
           match comment with Some text => text | None => "" end ++ rest /\
    all_chars Py.not_newline pre = true /\
    gap <> "" /\ all_chars Py.is_space gap = true /\
    n = a ++ "NCTEST" ++ b /\
    all_chars Py.not_space a = true /\ all_chars Py.not_space b = true /\
    all_chars Py.is_space gap' = true /\
    (forall text, comment = Some text ->
       exists t, text = "//" ++ t /\ all_chars Py.not_newline t = true).
Proof.
  unfold directive. intro H.
  destruct (Re.match_ NCTEST_CONFIG_RE line) as [m | ] eqn:Hm;
    [ | discriminate ].
  apply NCTEST_CONFIG_RE_sound in Hm.
  destruct Hm as (el & pre & c0 & gap & a & b & gap' & tail & rest
                  & Hel & Hline & Hpre & Hc0 & Hgap & Ha & Hb & Hgap'
                  & H1 & H2).
  rewrite H1 in H. inversion H; subst n comment. clear H.
  exists ("#" ++ el ++ "if"), pre, (String c0 gap), a, b, gap', rest.
  split; [ | split; [ | repeat split; try assumption ]].
  - destruct Hel as [-> | ->]; [left | right]; reflexivity.
  - rewrite Hline.
    destruct H2 as [[-> ->] | (t & -> & -> & _)];
      destruct Hel as [-> | ->]; reflexivity.
  - discriminate.
  - simpl. rewrite Hc0. exact Hgap.
  - intros text Htext.
    destruct H2 as [[H2 _] | (t & H2 & _ & Ht)]; rewrite H2 in Htext.
    + discriminate.
    + inversion Htext. exists t. split; [reflexivity | exact Ht].
Qed.

Lemma directive_shape_witness :
  exists kw pre gap a b gap' rest,
    (kw = "#if" \/ kw = "#elif") /\
    "#if defined(NCTEST_FOO)  // [r'no matching function']" ++ Demo.nl
    = kw ++ pre ++ gap ++ "defined(NCTEST_FOO)" ++ gap' ++
      "// [r'no matching function']" ++ rest /\
    all_chars Py.not_newline pre = true /\
    gap <> "" /\ all_chars Py.is_space gap = true /\
    "defined(NCTEST_FOO)" = a ++ "NCTEST" ++ b /\
    all_chars Py.not_space a = true /\ all_chars Py.not_space b = true /\
    all_chars Py.is_space gap' = true /\
    (forall text, Some "// [r'no matching function']" = Some text ->
       exists t, text = "//" ++ t /\ all_chars Py.not_newline t = true).
Proof.
  apply (@directive_shape
           ("#if defined(NCTEST_FOO)  // [r'no matching function']" ++ Demo.nl)
           "defined(NCTEST_FOO)" (Some "// [r'no matching function']")).
  vm_compute. reflexivity.
Defined.

Lemma star_complete (p : ascii -> bool) (k : string -> option Re.groups)
      (s' : string) :
  k s' <> None ->
  forall a, all_chars p a = true -> Re.star p (a ++ s') k <> None.
Proof.
  intros Hk a. induction a as [ | c a IH]; simpl; intro Ha.
  - destruct s' as [ | c s']; simpl; [exact Hk | ].
    destruct (p c); [ | exact Hk].
    destruct (Re.star p s' k); [discriminate | exact Hk].
  - apply andb_true_iff in Ha. destruct Ha as [Hc Ha]. rewrite Hc.
    specialize (IH Ha). destruct (Re.star p (a ++ s') k);
      [discriminate | contradiction].
Qed.

(** Completeness of the matcher for patterns without anchor: when a prefix
    of the text is in the language of the pattern and the continuation
    accepts the rest, the match succeeds. *)
Lemma run_complete (subject : string) (r : Re.regex) (a : string) :
  matches r a ->
  anchor_free r = true ->
  forall s' g k,
    (forall g', k s' g' <> None) ->
    Re.run subject r (a ++ s') g k <> None.
Proof.
  induction 1 as [ | | l | p a Ha | p c a Hc Ha | r a Hm IH | r
                   | r1 r2 a b H1 IH1 H2 IH2 | n r a Hm IH ];
    intros Haf s' g k Hk; simpl in Haf |- *.
  - apply Hk.
  - discriminate.
  - rewrite strip_prefix_app. apply Hk.
  - apply star_complete; [apply Hk | exact Ha].
  - rewrite Hc. apply star_complete; [apply Hk | exact Ha].
  - specialize (IH Haf s' g k Hk).
    destruct (Re.run subject r (a ++ s') g k); [discriminate | contradiction].
  - destruct (Re.run subject r s' g k); [discriminate | apply Hk].
  - apply andb_true_iff in Haf. destruct Haf as [Haf1 Haf2].
    rewrite str_app_assoc. apply IH1; [exact Haf1 | ].
    intro g'. apply IH2; [exact Haf2 | exact Hk].
  - apply IH; [exact Haf | ]. intro g'. apply Hk.
Qed.

(** X8.  Every line of that shape is taken for a case directive: [#if] or
    [#elif], text without a newline, whitespace, a word without
    whitespace containing NCTEST, optional whitespace, an optional
    comment, anything after it.  No such line is passed over. *)
Theorem directive_recognised (kw pre gap a b gap' tail rest : string) :
  kw = "#if" \/ kw = "#elif" ->
  all_chars Py.not_newline pre = true ->
  gap <> "" -> all_chars Py.is_space gap = true ->
  all_chars Py.not_space a = true -> all_chars Py.not_space b = true ->
  all_chars Py.is_space gap' = true ->
  (tail = "" \/
   exists t, tail = "//" ++ t /\ all_chars Py.not_newline t = true) ->
  exists n comment,
    directive (kw ++ pre ++ gap ++ (a ++ "NCTEST" ++ b) ++ gap' ++
               tail ++ rest) = Some (n, comment).
Proof.
  intros Hkw Hpre Hne Hgap Ha Hb Hgap' Htail.
  set (line := kw ++ pre ++ gap ++ (a ++ "NCTEST" ++ b) ++ gap' ++
               tail ++ rest).
  assert (Hel : exists el, (el = "" \/ el = "el") /\ kw = "#" ++ el ++ "if").
  { destruct Hkw as [-> | ->]; [exists "" | exists "el"]; split;
      try reflexivity; [left | right]; reflexivity. }
  destruct Hel as (el & Hel & ->).
  destruct gap as [ | c gap]; [contradiction | ].
  simpl in Hgap. apply andb_true_iff in Hgap. destruct Hgap as [Hc Hgap].
  assert (Hline :
            line = ("#" ++ el ++ "if" ++ pre ++ String c gap ++
                    (a ++ "NCTEST" ++ b ++ "") ++ gap' ++ tail ++ "")
                   ++ rest).
  { unfold line. repeat rewrite str_app_assoc. simpl.
    repeat rewrite str_app_assoc. reflexivity. }
  assert (Hm : Re.match_ NCTEST_CONFIG_RE line <> None).
  { unfold Re.match_, NCTEST_CONFIG_RE, Re.seq_of. cbn [fold_right].
    change (Re.run line (Re.Seq Re.Bol ?r) line [] ?k)
      with (if (String.length line =? String.length line)%nat
            then Re.run line r line [] k else None).
    rewrite Nat.eqb_refl. rewrite Hline at 2.
    apply run_complete; [ | reflexivity | discriminate ].
    apply matches_Seq; [apply matches_Lit | ].
    apply matches_Seq.
    { destruct Hel as [-> | ->];
        [apply matches_Opt_none | apply matches_Opt_some, matches_Lit]. }
    apply matches_Seq; [apply matches_Lit | ].
    apply matches_Seq; [apply matches_Star; exact Hpre | ].
    apply matches_Seq; [apply matches_Plus; assumption | ].
    apply matches_Seq.
    { apply matches_Group.
      apply matches_Seq; [apply matches_Star; exact Ha | ].
      apply matches_Seq; [apply matches_Lit | ].
      apply matches_Seq; [apply matches_Star; exact Hb | ].
      apply matches_Eps. }
    apply matches_Seq; [apply matches_Star; exact Hgap' | ].
    apply matches_Seq; [ | apply matches_Eps ].
    destruct Htail as [-> | (t & -> & Ht)]; [apply matches_Opt_none | ].
    apply matches_Opt_some, matches_Group.
    replace ("//" ++ t) with ("//" ++ t ++ "")
      by (rewrite str_app_nil_r; reflexivity).
    apply matches_Seq; [apply matches_Lit | ].
    apply matches_Seq; [apply matches_Star; exact Ht | apply matches_Eps]. }
  unfold directive.
  destruct (Re.match_ NCTEST_CONFIG_RE line) as [m | ] eqn:Hmatch;
    [ | contradiction ].
  apply NCTEST_CONFIG_RE_sound in Hmatch.
  destruct Hmatch as (_ & _ & _ & _ & a' & b' & _ & _ & _ & _ & _ & _ & _
                      & _ & _ & _ & _ & H1 & _).
  rewrite H1. eexists. eexists. reflexivity.
Qed.

Lemma directive_recognised_witness :
  exists n comment,
    directive ("#elif" ++ " defined(FOO) &&" ++ " " ++
               ("DISABLED_" ++ "NCTEST" ++ "_BAR") ++ "  " ++
               "// []" ++ Demo.nl) = Some (n, comment).
Proof.
  apply (@directive_recognised "#elif" " defined(FOO) &&" " "
                               "DISABLED_" "_BAR" "  " "// []" Demo.nl).
  - right. reflexivity.
  - reflexivity.
  - discriminate.
  - reflexivity.
  - reflexivity.
  - reflexivity.
  - reflexivity.
  - right. exists " []". split; reflexivity.
Defined.

(** A class that covers more of the text than the pattern can give up:
    the star takes it all when the continuation then accepts. *)
Lemma star_extend (p : ascii -> bool) (k : string -> option Re.groups)
      (s' : string) (out : Re.groups) :
  Re.star p s' k = Some out ->
  forall a, all_chars p a = true -> Re.star p (a ++ s') k = Some out.
Proof.
  intros Hs a. induction a as [ | c a IH]; simpl; intro Ha; [exact Hs | ].
  apply andb_true_iff in Ha. destruct Ha as [Hc Ha].
  rewrite Hc, (IH Ha). reflexivity.
Qed.

Lemma strip_prefix_startswith (l : string) :
  forall s, Py.startswith s l = false -> Re.strip_prefix l s = None.
Proof.
  induction l as [ | a l IH]; intros s H.
  - destruct s; discriminate.
  - destruct s as [ | b s]; simpl in H |- *; [reflexivity | ].
    destruct (Ascii.eqb a b); [apply IH; exact H | reflexivity].
Qed.

(** The parts of a word the [defined( )] pattern has matched. *)
Lemma STRIP_DEFINED_RE_sound (name : string) (m : Re.groups) :
  Re.match_ STRIP_DEFINED_RE name = Some m ->
  exists inner rest,
    name = "defined(" ++ inner ++ ")" ++ rest /\
    all_chars Py.not_newline inner = true /\
    Re.group 1 m = Some inner.
Proof.
  unfold Re.match_, STRIP_DEFINED_RE, Re.seq_of. cbn [fold_right]. intro H.
  apply run_seq_sound in H. destruct H as (x0 & s0 & g0 & E0 & M0 & H & G0).
  apply run_seq_group_sound in H.
  destruct H as (x1 & s1 & g1 & E1 & M1 & H & G1).
  apply run_seq_sound in H. destruct H as (x2 & s2 & g2 & E2 & M2 & H & G2).
  change (Some g2 = Some m) in H. inversion H; subst m. clear H.
  invert_matches.
  exists x1, s2. repeat split; try assumption.
  rewrite (G2 1 eq_refl). reflexivity.
Qed.

(** X9.  Removing the [defined( )] predicate from a directive word: a
    word that does not start with [defined(] is kept as it is; whatever
    the word, the result is the word itself or the text between a leading
    [defined(] and a later closing parenthesis; and the word
    [defined(X)] gives back X, for every X without a newline. *)
Theorem strip_defined_unwraps (name : string) :
  (Py.startswith name "defined(" = false -> strip_defined name = name) /\
  (strip_defined name = name \/
   exists rest, name = "defined(" ++ strip_defined name ++ ")" ++ rest) /\
  (all_chars Py.not_newline name = true ->
   strip_defined ("defined(" ++ name ++ ")") = name).
Proof.
  split; [ | split ].
  - intro H. unfold strip_defined, Re.match_, STRIP_DEFINED_RE, Re.seq_of.
    cbn [fold_right].
    change (Re.run name (Re.Seq (Re.Lit "defined(") ?r) name [] ?k)
      with (match Re.strip_prefix "defined(" name with
            | Some s' => Re.run name r s' [] k
            | None => None
            end).
    rewrite (strip_prefix_startswith _ _ H). reflexivity.
  - unfold strip_defined.
    destruct (Re.match_ STRIP_DEFINED_RE name) as [m | ] eqn:Hm;
      [ | left; reflexivity ].
    apply STRIP_DEFINED_RE_sound in Hm.
    destruct Hm as (inner & rest & Hname & _ & H1).
    rewrite H1. right. exists rest. exact Hname.
  - intro H. unfold strip_defined, Re.match_, STRIP_DEFINED_RE, Re.seq_of.
    cbn [fold_right].
    set (subject := "defined(" ++ name ++ ")").
    change (Re.run subject
              (Re.Seq (Re.Lit "defined(")
                      (Re.Seq (Re.Group 1 (Re.Star Py.not_newline)) ?r))
              subject [] ?k)
      with (Re.star Py.not_newline (name ++ ")")
              (fun s'' =>
                 Re.run subject r s''
                        [(1, Re.consumed (name ++ ")") s'')] k)).
    rewrite star_extend with (out := [(1, name)]).
    + reflexivity.
    + simpl. rewrite consumed_app. reflexivity.
    + exact H.
Qed.

Lemma strip_defined_unwraps_witness :
  strip_defined "NCTEST_FOO" = "NCTEST_FOO" /\
  strip_defined "defined(NCTEST_FOO)" = "NCTEST_FOO".
Proof.
  split.
  - apply (proj1 (strip_defined_unwraps "NCTEST_FOO")). reflexivity.
  - apply (proj2 (proj2 (strip_defined_unwraps "NCTEST_FOO"))). reflexivity.
Defined.

Lemma consumed_all (a : string) : Re.consumed a "" = a.
Proof.
  rewrite <- (str_app_nil_r a) at 1. apply consumed_app.
Qed.

(** The parts of a comment the expectation pattern has matched. *)
Lemma EXTRACT_EXPECTATION_RE_sound (s : string) (m : Re.groups) :
  Re.match_ EXTRACT_EXPECTATION_RE s = Some m ->
  exists ws body rest,
    s = "//" ++ ws ++ ("[" ++ body ++ "]") ++ rest /\
    all_chars Py.is_space ws = true /\
    all_chars Py.not_newline body = true /\
    Re.group 1 m = Some ("[" ++ body ++ "]").
Proof.
  unfold Re.match_, EXTRACT_EXPECTATION_RE, Re.seq_of. cbn [fold_right].
  intro H.
  apply run_seq_sound in H. destruct H as (x0 & s0 & g0 & E0 & M0 & H & G0).
  apply run_seq_sound in H. destruct H as (x1 & s1 & g1 & E1 & M1 & H & G1).
  apply run_seq_group_sound in H.
  destruct H as (x2 & s2 & g2 & E2 & M2 & H & G2).
  change (Some ((1, x2) :: g2) = Some m) in H. inversion H; subst m. clear H.
  invert_matches. rewrite str_app_nil_r.
  match goal with
  | Hb : all_chars Py.not_newline ?b = true |- _ =>
      exists x1, b, s2; repeat split; assumption
  end.
Qed.

(** The loop of ParseExpectation compiles the strings of the list one by
    one and appends the patterns in the order of the list. *)
Lemma compile_expectations_Return (env : Env) (items : list PyItem) :
  forall acc ps,
    compile_expectations env items acc = Return ps ->
    exists compiled,
      ps = (acc ++ compiled)%list /\
      Forall2 (fun item p =>
                 exists regex_str,
                   item = PyStr regex_str /\
                   re_compile env regex_str = Some p) items compiled.
Proof.
  induction items as [ | item items IH]; intros acc ps H; simpl in H.
  - inversion H. exists []. split; [rewrite app_nil_r; reflexivity | ].
    constructor.
  - destruct item as [regex_str | ]; [ | discriminate ].
    destruct (re_compile env regex_str) as [p | ] eqn:Hp; [ | discriminate ].
    simpl in H. apply IH in H. destruct H as (compiled & -> & Hall).
    exists (p :: compiled). split.
    + rewrite <- app_assoc. reflexivity.
    + constructor; [ | exact Hall].
      exists regex_str. split; [reflexivity | exact Hp].
Qed.

Lemma compile_expectations_strings (env : Env) (strs : list string) :
  forall ps acc,
    Forall2 (fun regex_str p => re_compile env regex_str = Some p) strs ps ->
    compile_expectations env (map PyStr strs) acc = Return (acc ++ ps)%list.
Proof.
  induction strs as [ | regex_str strs IH]; intros ps acc H;
    inversion H; subst; simpl.
  - rewrite app_nil_r. reflexivity.
  - match goal with Hp : re_compile _ _ = Some _ |- _ => rewrite Hp end.
    simpl. rewrite IH with (ps := l'); [ | assumption ].
    rewrite <- app_assoc. reflexivity.
Qed.

(** X10.  When ParseExpectation returns, its argument reads [//],
    optional whitespace, a bracketed text on one line, and anything after
    it; the bracketed text, brackets included, is what ast.literal_eval
    was given; the value was a list of strings, and the result holds one
    compiled pattern for each string of the list, in the order of the
    list. *)
Theorem ParseExpectation_returns (env : Env) (expectation_string : string)
        (expectation : list Pattern) :
  ParseExpectation env (Some expectation_string) = Return expectation ->
  exists ws body rest items,
    expectation_string = "//" ++ ws ++ ("[" ++ body ++ "]") ++ rest /\
    all_chars Py.is_space ws = true /\
    all_chars Py.not_newline body = true /\
    literal_eval env ("[" ++ body ++ "]") = Some (PyList items) /\
    Forall2 (fun item p =>
               exists regex_str,
                 item = PyStr regex_str /\
                 re_compile env regex_str = Some p) items expectation.
Proof.
  unfold ParseExpectation. intro H.
  destruct (Re.match_ EXTRACT_EXPECTATION_RE expectation_string)
    as [m | ] eqn:Hm; [ | discriminate ].
  apply EXTRACT_EXPECTATION_RE_sound in Hm.
  destruct Hm as (ws & body & rest & Hs & Hws & Hbody & H1).
  rewrite H1 in H. cbn [pybind of_option] in H.
  destruct (literal_eval env ("[" ++ body ++ "]")) as [v | ] eqn:Hv;
    [ | discriminate ].
  destruct v as [items | ]; [ | discriminate ].
  apply compile_expectations_Return in H.
  destruct H as (compiled & -> & Hall).
  exists ws, body, rest, items. repeat split; assumption.
Qed.

Lemma ParseExpectation_returns_witness :
  exists ws body rest items,
    "// [r'no matching function']"
    = "//" ++ ws ++ ("[" ++ body ++ "]") ++ rest /\
    all_chars Py.is_space ws = true /\
    all_chars Py.not_newline body = true /\
    literal_eval (Demo.env_of Demo.passing) ("[" ++ body ++ "]")
    = Some (PyList items) /\
    Forall2 (fun item p =>
               exists regex_str,
                 item = PyStr regex_str /\
                 re_compile (Demo.env_of Demo.passing) regex_str = Some p)
            items [Demo.literal_pattern "no matching function"].
Proof.
  apply (@ParseExpectation_returns (Demo.env_of Demo.passing)
           "// [r'no matching function']"
           [Demo.literal_pattern "no matching function"]).
  vm_compute. reflexivity.
Defined.

(** X11.  A comment that reads [//], whitespace, and a bracketed text
    without a newline up to its end is parsed from the bracketed text
    alone: when ast.literal_eval gives a list of strings for it and each
    string compiles, ParseExpectation returns the compiled patterns in the
    order of the list; when it gives a value that is not a list, or the
    text is no literal, ParseExpectation raises. *)
Theorem ParseExpectation_of_list (env : Env) (ws body : string) :
  all_chars Py.is_space ws = true ->
  all_chars Py.not_newline body = true ->
  let text := "[" ++ body ++ "]" in
  let comment := Some ("//" ++ ws ++ text) in
  (forall strs ps,
      literal_eval env text = Some (PyList (map PyStr strs)) ->
      Forall2 (fun regex_str p => re_compile env regex_str = Some p) strs ps ->
      ParseExpectation env comment = Return ps) /\
  (literal_eval env text = Some PyOther ->
   ParseExpectation env comment = Throw AssertionError) /\
  (literal_eval env text = None ->
   ParseExpectation env comment = Throw MalformedLiteral).
Proof.
  intros Hws Hbody text comment.
  assert (Hm : Re.match_ EXTRACT_EXPECTATION_RE ("//" ++ ws ++ text)
               = Some [(1, text)]).
  { unfold Re.match_, EXTRACT_EXPECTATION_RE, Re.seq_of. cbn [fold_right].
    set (subject := "//" ++ ws ++ text).
    change (Re.run subject
              (Re.Seq (Re.Lit "//") (Re.Seq (Re.Star Py.is_space) ?r))
              subject [] ?k)
      with (Re.star Py.is_space (ws ++ text)
              (fun s' => Re.run subject r s' [] k)).
    apply star_extend; [ | exact Hws ].
    unfold text.
    change (Re.star Py.is_space ("[" ++ body ++ "]") ?k)
      with (k ("[" ++ body ++ "]")).
    cbv beta.
    change (Re.run subject
              (Re.Seq (Re.Group 1 (Re.Seq (Re.Lit "[")
                         (Re.Seq (Re.Star Py.not_newline)
                                 (Re.Seq (Re.Lit "]") Re.Eps)))) Re.Eps)
              ("[" ++ body ++ "]") [] ?k)
      with (Re.star Py.not_newline (body ++ "]")
              (fun s' =>
                 match Re.strip_prefix "]" s' with
                 | Some s'' =>
                     k s'' [(1, Re.consumed ("[" ++ body ++ "]") s'')]
                 | None => None
                 end)).
    apply star_extend; [ | exact Hbody ].
    simpl Re.star. cbv beta.
    rewrite consumed_all. reflexivity. }
  unfold comment, ParseExpectation. rewrite Hm.
  cbn [Re.group Nat.eqb pybind of_option].
  split; [ | split ].
  - intros strs ps Hv Hps. rewrite Hv. cbn [pybind].
    apply (@compile_expectations_strings env strs ps [] Hps).
  - intro Hv. rewrite Hv. reflexivity.
  - intro Hv. rewrite Hv. reflexivity.
Qed.

Lemma ParseExpectation_of_list_witness :
  ParseExpectation (Demo.env_of Demo.passing)
                   (Some ("//" ++ " " ++ "[" ++ "r'no matching function'" ++ "]"))
  = Return [Demo.literal_pattern "no matching function"].
Proof.
  apply (proj1 (@ParseExpectation_of_list (Demo.env_of Demo.passing) " "
                  "r'no matching function'" eq_refl eq_refl)
               ["no matching function"]
               [Demo.literal_pattern "no matching function"]).
  - vm_compute. reflexivity.
  - repeat constructor.
Defined.

(* ------------------------------------------------------------------ *)
(** * The ninja output directory *)

Section NinjaOutputFacts.
Import PrimFloat.
Import NinjaOutput.

Lemma substring_all (s : string) : substring 0 (String.length s) s = s.
Proof.
  induction s as [ | c s IH]; simpl; [reflexivity | rewrite IH; reflexivity].
Qed.

Lemma startswith_app (p : string) :
  forall s,
    Py.startswith s p = true ->
    s = p ++ substring (String.length p) (String.length s - String.length p) s.
Proof.
  induction p as [ | a p IH]; intros s H.
  - simpl. rewrite Nat.sub_0_r, substring_all. reflexivity.
  - destruct s as [ | b s]; simpl in H; [discriminate | ].
    apply andb_true_iff in H. destruct H as [Hab H].
    apply Ascii.eqb_eq in Hab. subst b.
    simpl. rewrite <- (IH s H). reflexivity.
Qed.

Lemma split_once_inv (sep : ascii) (flag : string) :
  forall n v,
    split_once sep flag = [n; v] -> flag = n ++ String sep v.
Proof.
  induction flag as [ | c flag IH]; intros n v H; simpl in H;
    [discriminate | ].
  destruct (Ascii.eqb c sep) eqn:Hc.
  - apply Ascii.eqb_eq in Hc. inversion H; subst. reflexivity.
  - destruct (split_once sep flag) as [ | w ws]; [discriminate | ].
    inversion H; subst. simpl. rewrite (IH w v eq_refl). reflexivity.
Qed.

Lemma last_cons {A} (l : list A) :
  forall x d, last (x :: l) d = last l x.
Proof.
  induction l as [ | y l IH]; intros x d; [reflexivity | ].
  change (last (x :: y :: l) d) with (last (y :: l) d).
  rewrite !IH. reflexivity.
Qed.

(** A flag sets the output directory exactly when it starts with
    [output_dir=], and then to the text after the equals sign. *)
Lemma scan_flags_step (flag : string) (rest : list string) (d : string) :
  scan_flags (flag :: rest) d
  = scan_flags rest (if is_output_dir_flag flag then flag_value flag else d).
Proof.
  unfold is_output_dir_flag, flag_value.
  destruct (Py.startswith flag "output_dir=") eqn:Hs.
  - apply startswith_app in Hs.
    change (String.length "output_dir=") with 11 in Hs.
    set (v := substring 11 (String.length flag - 11) flag) in *.
    rewrite Hs. reflexivity.
  - cbn [scan_flags].
    destruct ((List.length (split_once "=" flag) =? 2)%nat
              && String.eqb (nth 0 (split_once "=" flag) "") "output_dir")
      eqn:Hc; [ | reflexivity ].
    exfalso. apply andb_true_iff in Hc. destruct Hc as [Hlen Hname].
    apply Nat.eqb_eq in Hlen. apply String.eqb_eq in Hname.
    destruct (split_once "=" flag) as [ | n [ | v [ | x l]]] eqn:Hsplit;
      try discriminate.
    simpl in Hname. subst n.
    apply split_once_inv in Hsplit. rewrite Hsplit in Hs.
    simpl in Hs. destruct v; discriminate.
Qed.

Lemma scan_flags_last (flags : list string) :
  forall d, scan_flags flags d = last (output_dir_values flags) d.
Proof.
  induction flags as [ | flag flags IH]; intro d; [reflexivity | ].
  rewrite scan_flags_step, IH. unfold output_dir_values.
  cbn [filter]. destruct (is_output_dir_flag flag); [ | reflexivity ].
  cbn [map]. rewrite last_cons. reflexivity.
Qed.

(** X12.  The output directory is the value of the last of the
    blank-separated flags of GYP_GENERATOR_FLAGS that reads
    [output_dir=value], and [out] when there is none or the variable is
    not set.  With a non-empty configuration the result is
    chrome_root/output_dir/configuration, whatever the files on disk;
    without one (None or the empty string) it is the Debug or the Release
    directory below chrome_root/output_dir. *)
Theorem output_dir_is_the_last_flag
        (os : Os) (chrome_root : string) (configuration : option string) :
  let output_dir := last (output_dir_values (generator_flags os)) "out" in
  let root := Py.path_join2 chrome_root output_dir in
  (forall c,
      configuration = Some c -> c <> "" ->
      GetNinjaOutputDirectory os chrome_root configuration
      = Py.path_join2 root c) /\
  (configuration = None \/ configuration = Some "" ->
   GetNinjaOutputDirectory os chrome_root configuration
   = Py.path_join2 root "Debug" \/
   GetNinjaOutputDirectory os chrome_root configuration
   = Py.path_join2 root "Release").
Proof.
  intros output_dir root. unfold GetNinjaOutputDirectory.
  rewrite scan_flags_last. fold output_dir. fold root. split.
  - intros c -> Hc. destruct c as [ | x c]; [contradiction | reflexivity].
  - intros [-> | ->]; cbn [truthy];
      match goal with
      | |- context [if ?b then _ else _] => destruct b
      end; [right | left | right | left]; reflexivity.
Qed.

Lemma output_dir_is_the_last_flag_witness :
  GetNinjaOutputDirectory gyp_flags_os "/src" (Some "Release")
  = "/src/build/Release" /\
  (GetNinjaOutputDirectory gyp_flags_os "/src" None = "/src/build/Debug" \/
   GetNinjaOutputDirectory gyp_flags_os "/src" None = "/src/build/Release").
Proof.
  split.
  - apply (proj1 (output_dir_is_the_last_flag gyp_flags_os "/src"
                    (Some "Release")) "Release" eq_refl).
    discriminate.
  - apply (proj2 (output_dir_is_the_last_flag gyp_flags_os "/src" None)).
    left. reflexivity.
Defined.

(** Subtracting a missing file's time 0 from a time leaves the comparison
    with 15 as it is. *)
Lemma sub_zero_leb (r : float) : (15 <=? r - 0)%float = (15 <=? r)%float.
Proof.
  rewrite !FloatAxioms.leb_spec, FloatAxioms.sub_spec.
  change (FloatOps.Prim2SF 0%float) with (SpecFloat.S754_zero false).
  destruct (FloatOps.Prim2SF r) as [s | s | | s m e]; try reflexivity.
  destruct s; reflexivity.
Qed.

(** A time that is not negative, taken from 0, does not reach 15. *)
Lemma zero_sub_leb (d : float) :
  (0 <=? d)%float = true -> (15 <=? 0 - d)%float = false.
Proof.
  rewrite !FloatAxioms.leb_spec, FloatAxioms.sub_spec.
  change (FloatOps.Prim2SF 0%float) with (SpecFloat.S754_zero false).
  change (FloatOps.Prim2SF 15%float)
    with (SpecFloat.S754_finite false 8444249301319680 (-49)).
  destruct (FloatOps.Prim2SF d) as [s | s | | s m e]; try discriminate;
    destruct s; try discriminate; reflexivity.
Qed.

Lemma str_app_inv_head (a x y : string) : a ++ x = a ++ y -> x = y.
Proof.
  induction a as [ | c a IH]; simpl; intro H; [exact H | ].
  inversion H. apply IH. assumption.
Qed.

Lemma debug_is_not_release (root : string) :
  Py.path_join2 root "Debug" <> Py.path_join2 root "Release".
Proof.
  unfold Py.path_join2. cbn [Py.startswith Ascii.eqb].
  change (Py.startswith "Debug" "/") with false.
  change (Py.startswith "Release" "/") with false. cbv iota.
  destruct ((String.length root =? 0)%nat || Py.ends_with_slash root);
    intro H; apply str_app_inv_head in H; discriminate.
Qed.

(** X13.  Without a configuration argument, a configuration that has not
    been built is not chosen.  When the Release directory has neither
    build.ninja nor protoc and neither of the two in the Debug directory
    has a negative modification time, the Debug directory is returned;
    when the Debug directory has neither file, the Release directory is
    returned if and only if one of its two files has a modification time
    of at least 15 seconds, and the Debug directory otherwise. *)
Theorem unbuilt_configuration_is_not_chosen
        (os : Os) (chrome_root : string) (configuration : option string) :
  truthy configuration = false ->
  let root :=
    Py.path_join2 chrome_root (scan_flags (generator_flags os) "out") in
  let debug_path := Py.path_join2 root "Debug" in
  let release_path := Py.path_join2 root "Release" in
  let debug f := getmtime os (Py.path_join2 debug_path f) in
  let release f := getmtime os (Py.path_join2 release_path f) in
  (release "build.ninja" = None -> release "protoc" = None ->
   (forall f t,
       f = "build.ninja" \/ f = "protoc" ->
       debug f = Some t -> (0 <=? t)%float = true) ->
   GetNinjaOutputDirectory os chrome_root configuration = debug_path) /\
  (debug "build.ninja" = None -> debug "protoc" = None ->
   (GetNinjaOutputDirectory os chrome_root configuration = release_path <->
    exists f t,
      (f = "build.ninja" \/ f = "protoc") /\
      release f = Some t /\ (15 <=? t)%float = true) /\
   (GetNinjaOutputDirectory os chrome_root configuration = release_path \/
    GetNinjaOutputDirectory os chrome_root configuration = debug_path)).
Proof.
  intros Hcfg root debug_path release_path debug release.
  unfold GetNinjaOutputDirectory. rewrite Hcfg.
  fold root. fold debug_path. fold release_path.
  unfold is_release_15s_newer, mtime_or_0.
  fold (debug "build.ninja"). fold (debug "protoc").
  fold (release "build.ninja"). fold (release "protoc").
  split.
  - intros Hn Hp Hd. rewrite Hn, Hp.
    assert (H0 : forall f,
               f = "build.ninja" \/ f = "protoc" ->
               (15 <=? 0 - match debug f with Some t => t | None => 0 end)%float
               = false).
    { intros f Hname. destruct (debug f) as [t | ] eqn:Hf.
      - apply zero_sub_leb. exact (Hd f t Hname Hf).
      - reflexivity. }
    rewrite (H0 "build.ninja" (or_introl eq_refl)).
    rewrite (H0 "protoc" (or_intror eq_refl)). reflexivity.
  - intros Hn Hp. rewrite Hn, Hp, !sub_zero_leb.
    split.
    + split.
      * intro H.
        destruct (15 <=? match release "build.ninja" with
                         | Some t => t | None => 0 end)%float eqn:E1.
        { destruct (release "build.ninja") as [t | ] eqn:R1;
            [ | discriminate E1 ].
          exists "build.ninja", t. repeat split; auto. }
        destruct (15 <=? match release "protoc" with
                         | Some t => t | None => 0 end)%float eqn:E2.
        { destruct (release "protoc") as [t | ] eqn:R2;
            [ | discriminate E2 ].
          exists "protoc", t. repeat split; auto. }
        simpl in H. exfalso. apply (debug_is_not_release root). exact H.
      * intros (f & t & [-> | ->] & Hr & Ht); rewrite Hr, Ht.
        { reflexivity. }
        { rewrite orb_true_r. reflexivity. }
    + match goal with
      | |- context [if ?b then _ else _] => destruct b
      end; [left | right]; reflexivity.
Qed.

Lemma unbuilt_configuration_is_not_chosen_witness :
  GetNinjaOutputDirectory release_only_os "/src" None = "/src/out/Release".
Proof.
  apply (proj1 (proj2 (@unbuilt_configuration_is_not_chosen
                         release_only_os "/src" None eq_refl)
                      eq_refl eq_refl)).
  exists "build.ninja", 1400000000%float.
  split; [left; reflexivity | split; reflexivity].
Defined.

End NinjaOutputFacts.

(* ------------------------------------------------------------------ *)
(** * The profiling controller *)

Section ProfilingFacts.
Import Profiling.
Variable env : Telemetry.

Lemma dict_in_In (d : list (ProfilerClass * StateRef)) (key : ProfilerClass) :
  dict_in d key = true <-> In key (map fst d).
Proof.
  unfold dict_in. rewrite existsb_exists, in_map_iff. split.
  - intros [kv [Hin Hk]]. apply Nat.eqb_eq in Hk. exists kv. split; assumption.
  - intros [kv [Hk Hin]]. exists kv. split; [assumption | ].
    apply Nat.eqb_eq. exact Hk.
Qed.

Lemma dict_get_In (d : list (ProfilerClass * StateRef)) (key : ProfilerClass)
      (v : StateRef) :
  dict_get d key = Some v -> In (key, v) d.
Proof.
  induction d as [ | [k w] d IH]; simpl; [discriminate | ].
  destruct (k =? key)%nat eqn:Hk.
  - intro H. inversion H; subst. apply Nat.eqb_eq in Hk. subst. left.
    reflexivity.
  - intro H. right. apply IH. exact H.
Qed.

Lemma dict_get_app (d e : list (ProfilerClass * StateRef))
      (key : ProfilerClass) (v : StateRef) :
  dict_get d key = Some v -> dict_get (d ++ e)%list key = Some v.
Proof.
  induction d as [ | [k w] d IH]; simpl; [discriminate | ].
  destruct (k =? key)%nat; [trivial | exact IH].
Qed.

Lemma dict_get_new (d : list (ProfilerClass * StateRef))
      (key : ProfilerClass) (v : StateRef) :
  dict_in d key = false -> dict_get (d ++ [(key, v)])%list key = Some v.
Proof.
  unfold dict_in.
  induction d as [ | [k w] d IH]; simpl.
  - rewrite Nat.eqb_refl. reflexivity.
  - destruct (k =? key)%nat; [discriminate | exact IH].
Qed.

Lemma dict_get_present (d : list (ProfilerClass * StateRef))
      (key : ProfilerClass) :
  dict_in d key = true -> exists v, dict_get d key = Some v.
Proof.
  unfold dict_in.
  induction d as [ | [k w] d IH]; simpl; [discriminate | ].
  destruct (k =? key)%nat; [intros _; exists w; reflexivity | exact IH].
Qed.

Lemma le_fold_max (l : list nat) (x : nat) :
  In x l -> x <= fold_right Nat.max 0 l.
Proof.
  induction l as [ | y l IH]; simpl; [contradiction | ].
  intros [-> | H]; [lia | specialize (IH H); lia].
Qed.

(** The reference of a new state dictionary is that of no other. *)
Lemma fresh_is_new (d : list (ProfilerClass * StateRef)) :
  ~ In (fresh d) (map snd d).
Proof.
  unfold fresh. intro H. apply le_fold_max in H. lia.
Qed.

Lemma NoDup_snoc {A} (l : list A) (x : A) :
  NoDup l -> ~ In x l -> NoDup (l ++ [x])%list.
Proof.
  induction l as [ | y l IH]; simpl; intros Hn Hx.
  - constructor; [intros [] | constructor].
  - inversion Hn; subst. constructor.
    + intro H. apply in_app_or in H. destruct H as [H | [H | []]];
        [contradiction | subst; apply Hx; left; reflexivity].
    + apply IH; [assumption | intro; apply Hx; right; assumption].
Qed.

Lemma registered_get (d : list (ProfilerClass * StateRef))
      (c : ProfilerClass) :
  exists st, dict_get (registered d c) c = Some st.
Proof.
  unfold registered. destruct (dict_in d c) eqn:Hin.
  - apply dict_get_present. exact Hin.
  - exists (fresh d). apply dict_get_new. exact Hin.
Qed.

Lemma registered_keeps (d : list (ProfilerClass * StateRef))
      (c key : ProfilerClass) (v : StateRef) :
  dict_get d key = Some v -> dict_get (registered d c) key = Some v.
Proof.
  unfold registered. destruct (dict_in d c); [trivial | apply dict_get_app].
Qed.

Lemma registered_keys (d : list (ProfilerClass * StateRef))
      (c key : ProfilerClass) :
  In key (map fst (registered d c)) <-> In key (map fst d) \/ key = c.
Proof.
  unfold registered. destruct (dict_in d c) eqn:Hin.
  - split; [left; assumption | ].
    intros [H | ->]; [exact H | apply dict_in_In; exact Hin].
  - rewrite map_app, in_app_iff. simpl. intuition.
Qed.

Lemma registered_NoDup (d : list (ProfilerClass * StateRef))
      (c : ProfilerClass) :
  NoDup (map fst d) -> NoDup (map snd d) ->
  NoDup (map fst (registered d c)) /\ NoDup (map snd (registered d c)).
Proof.
  intros Hk Hv. unfold registered. destruct (dict_in d c) eqn:Hin.
  - split; assumption.
  - rewrite !map_app. simpl. split.
    + apply NoDup_snoc; [exact Hk | ].
      intro H. apply dict_in_In in H. congruence.
    + apply NoDup_snoc; [exact Hv | apply fresh_is_new].
Qed.

(** What a call of [Start] that returns has done. *)
Lemma Start_Returns (self self' : Controller) (profiler_name file : string)
      (calls calls' : list Call) :
  Start env self profiler_name file calls = Returns tt self' calls' ->
  exists browser_backend c st,
    let p := {| profiler_class := c;
                profiler_browser_backend := browser_backend;
                base_output_file := file; state := st |} in
    _active_profilers self = [] /\
    running_browser_backends env calls = [browser_backend] /\
    FindProfiler env calls profiler_name = inr (Some c) /\
    is_supported env (calls ++ [CallFindProfiler profiler_name])%list c
                 (browser_type browser_backend) = inr true /\
    _profilers_states self' = registered (_profilers_states self) c /\
    dict_get (_profilers_states self') c = Some st /\
    _active_profilers self' = [p] /\
    calls' = (calls ++ [CallFindProfiler profiler_name;
                        CallIsSupported c (browser_type browser_backend);
                        CallNew p])%list.
Proof.
  unfold Start.
  destruct (_active_profilers self) as [ | a l] eqn:Ha; [ | discriminate ].
  destruct (running_browser_backends env calls) as [ | b [ | b' bs]] eqn:Hb;
    try discriminate.
  destruct (FindProfiler env calls profiler_name) as [t | [c | ]] eqn:Hf;
    try discriminate.
  fold (registered (_profilers_states self) c).
  destruct (is_supported env _ c (browser_type b)) as [t | [ | ]] eqn:Hs;
    try discriminate.
  destruct (dict_get (registered (_profilers_states self) c) c)
    as [st | ] eqn:Hg; [ | discriminate ].
  destruct (new env _ _) as [t | ] eqn:Hn; [discriminate | ].
  intro H. inversion H; subst. clear H.
  exists b, c, st. cbn [_active_profilers _profilers_states].
  repeat split; try assumption; try reflexivity.
  rewrite <- !app_assoc. reflexivity.
Qed.

(** What a call of [Start] that raises has done. *)
Lemma Start_Raises (self self' : Controller) (profiler_name file : string)
      (calls calls' : list Call) (e : error) :
  Start env self profiler_name file calls = Raises e self' calls' ->
  (e = AssertionError /\ _active_profilers self <> [] /\
   self' = self /\ calls' = calls) \/
  (_active_profilers self = [] /\
   e = NotImplementedError
         (List.length (running_browser_backends env calls)) /\
   List.length (running_browser_backends env calls) <> 1 /\
   self' = self /\ calls' = calls) \/
  (_active_profilers self = [] /\ self' = self /\
   (e = AttributeError \/
    (exists tag, e = Foreign tag) \/ e = UnsupportedProfiler profiler_name) /\
   exists added,
     calls' = (calls ++ added)%list /\
     forall p, ~ In (CallNew p) added) \/
  (_active_profilers self = [] /\
   exists tag c p,
     e = Foreign tag /\
     _active_profilers self' = [] /\
     _profilers_states self' = registered (_profilers_states self) c /\
     profiler_class p = c /\
     dict_get (_profilers_states self') c = Some (state p) /\
     exists added, calls' = (calls ++ added ++ [CallNew p])%list /\
                   forall q, ~ In (CallNew q) added).
Proof.
  unfold Start.
  destruct (_active_profilers self) as [ | a l] eqn:Ha.
  2:{ intro H. inversion H; subst. left. repeat split. discriminate. }
  destruct (running_browser_backends env calls) as [ | b [ | b' bs]] eqn:Hb.
  1,3: intro H; inversion H; subst; right; left; repeat split;
    simpl; discriminate.
  destruct (FindProfiler env calls profiler_name) as [t | [c | ]] eqn:Hf.
  3:{ intro H; inversion H; subst. right; right; left.
      split; [reflexivity | split; [reflexivity | split ]].
      - left; reflexivity.
      - eexists; split; [reflexivity | ].
        intros p [Hp | []]; discriminate. }
  1:{ intro H; inversion H; subst. right; right; left.
      split; [reflexivity | split; [reflexivity | split ]].
      - right; left; eexists; reflexivity.
      - eexists; split; [reflexivity | ].
        intros p [Hp | []]; discriminate. }
  fold (registered (_profilers_states self) c).
  destruct (is_supported env _ c (browser_type b)) as [t | [ | ]] eqn:Hs.
  3:{ intro H; inversion H; subst. right; right; left.
      split; [reflexivity | split; [reflexivity | split ]].
      - right; right; reflexivity.
      - exists [CallFindProfiler profiler_name;
                CallIsSupported c (browser_type b)].
        split; [rewrite <- app_assoc; reflexivity | ].
        intros p [Hp | [Hp | []]]; discriminate. }
  1:{ intro H; inversion H; subst. right; right; left.
      split; [reflexivity | split; [reflexivity | split ]].
      - right; left; eexists; reflexivity.
      - exists [CallFindProfiler profiler_name;
                CallIsSupported c (browser_type b)].
        split; [rewrite <- app_assoc; reflexivity | ].
        intros p [Hp | [Hp | []]]; discriminate. }
  destruct (registered_get (_profilers_states self) c) as [st Hg].
  rewrite Hg.
  destruct (new env _ _) as [t | ] eqn:Hn; [ | discriminate ].
  intro H. inversion H; subst. clear H.
  right; right; right. split; [reflexivity | ].
  exists t, c,
    {| profiler_class := c; profiler_browser_backend := b;
       base_output_file := file; state := st |}.
  cbn [_active_profilers _profilers_states profiler_class state].
  repeat split; try assumption.
  exists [CallFindProfiler profiler_name; CallIsSupported c (browser_type b)].
  split; [rewrite <- !app_assoc; reflexivity | ].
  intros p [Hp | [Hp | []]]; discriminate.
Qed.

(** The loop of [Stop] calls CollectProfile on the profilers in order and
    stops at the first that raises. *)
Lemma collect_calls (profilers : list Profiler) :
  forall output_files calls r calls',
    collect env profilers output_files calls = (r, calls') ->
    exists called,
      calls' = (calls ++ map CallCollectProfile called)%list /\
      match r with
      | inr _ => called = profilers
      | inl _ => called <> []
      end.
Proof.
  induction profilers as [ | p profilers IH];
    intros output_files calls r calls' H; simpl in H.
  - inversion H; subst. exists []. split; [rewrite app_nil_r | ]; reflexivity.
  - destruct (CollectProfile env calls p) as [t | files] eqn:Hc.
    + inversion H; subst. exists [p]. split; [reflexivity | discriminate].
    + apply IH in H. destruct H as (called & -> & Hr).
      exists (p :: called). split.
      * rewrite <- app_assoc. reflexivity.
      * destruct r; [discriminate | rewrite Hr; reflexivity].
Qed.

Lemma notify_calls (classes : list ProfilerClass) (b : BrowserBackend) :
  forall calls r calls',
    notify env classes b calls = (r, calls') ->
    exists told,
      calls' = (calls ++ map (fun c => CallWillCloseBrowser c b) told)%list /\
      match r with
      | None => told = classes
      | Some _ => told <> []
      end.
Proof.
  induction classes as [ | c classes IH]; intros calls r calls' H;
    simpl in H.
  - inversion H; subst. exists []. split; [rewrite app_nil_r | ]; reflexivity.
  - destruct (class_WillCloseBrowser env calls c b) as [t | ] eqn:Hc.
    + inversion H; subst. exists [c]. split; [reflexivity | discriminate].
    + apply IH in H. destruct H as (told & -> & Hr).
      exists (c :: told). split.
      * rewrite <- app_assoc. reflexivity.
      * destruct r; [discriminate | rewrite Hr; reflexivity].
Qed.

(** X14.  A call of Start that raises starts nothing.  While a profiler
    is active it raises AssertionError, and only then; with a number of
    running browsers other than one it raises NotImplementedError with
    that number; in both cases, and when the profiler is not found or not
    supported, the controller is exactly as before and no constructor has
    been called.  In every case the list of active profilers is as it was,
    and the lookup of the class in the dictionary of states never raises
    KeyError. *)
Theorem failed_Start_starts_nothing
        (self : Controller) (profiler_name file : string)
        (calls : list Call) :
  (_active_profilers self <> [] ->
   Start env self profiler_name file calls
   = Raises AssertionError self calls) /\
  (_active_profilers self = [] ->
   List.length (running_browser_backends env calls) <> 1 ->
   Start env self profiler_name file calls
   = Raises (NotImplementedError
               (List.length (running_browser_backends env calls)))
            self calls) /\
  (forall e self' calls',
      Start env self profiler_name file calls = Raises e self' calls' ->
      _active_profilers self' = _active_profilers self /\
      e <> KeyError /\
      (e = AssertionError <-> _active_profilers self <> []) /\
      exists added,
        calls' = (calls ++ added)%list /\
        ((forall p, ~ In (CallNew p) added) -> self' = self)).
Proof.
  split; [ | split ].
  - intro H. unfold Start.
    destruct (_active_profilers self); [contradiction | reflexivity].
  - intros Ha Hn. unfold Start. rewrite Ha.
    destruct (running_browser_backends env calls) as [ | b [ | b' bs]];
      [reflexivity | contradiction Hn; reflexivity | reflexivity].
  - intros e self' calls' H. apply Start_Raises in H.
    destruct H as [(-> & Ha & -> & ->)
                  | [(Ha & -> & Hn & -> & ->)
                    | [(Ha & -> & He & added & -> & Hadd)
                      | (Ha & t & c & p & -> & Ha' & Hs & Hc & Hg
                         & added & -> & Hadd)]]].
    + split; [reflexivity | split; [discriminate | split ]].
      * split; [intros _; exact Ha | reflexivity].
      * exists []. split; [rewrite app_nil_r; reflexivity | reflexivity].
    + split; [reflexivity | split; [discriminate | split ]].
      * split; [discriminate | intro H; contradiction].
      * exists []. split; [rewrite app_nil_r; reflexivity | reflexivity].
    + split; [reflexivity | split; [ | split ]].
      * destruct He as [-> | [[t ->] | ->]]; discriminate.
      * split; [ | intro H; contradiction ].
        destruct He as [-> | [[t ->] | ->]]; discriminate.
      * exists added. split; [reflexivity | reflexivity].
    + split; [rewrite Ha, Ha'; reflexivity | split; [discriminate | split ]].
      * split; [discriminate | intro H; contradiction].
      * exists (added ++ [CallNew p])%list. split; [reflexivity | ].
        intro H. exfalso. apply (H p). apply in_or_app. right. left.
        reflexivity.
Qed.

(** Stop and WillCloseBrowser keep the shape of the controller. *)
Lemma Stop_Returns (self self' : Controller) (calls calls' : list Call)
      (output_files : list string) :
  Stop env self calls = Returns output_files self' calls' ->
  _active_profilers self' = [] /\
  _profilers_states self' = _profilers_states self /\
  calls' = (calls ++ map CallCollectProfile (_active_profilers self))%list.
Proof.
  unfold Stop.
  destruct (collect env (_active_profilers self) [] calls) as [[t | fs] c1]
    eqn:Hc; [discriminate | ].
  intro H. inversion H; subst. clear H.
  apply collect_calls in Hc. destruct Hc as (called & -> & ->).
  repeat split.
Qed.

Lemma Stop_Raises (self self' : Controller) (calls calls' : list Call)
      (e : error) :
  Stop env self calls = Raises e self' calls' ->
  self' = self /\ _active_profilers self <> [] /\
  (exists tag, e = Foreign tag) /\
  exists called, calls' = (calls ++ map CallCollectProfile called)%list.
Proof.
  unfold Stop.
  destruct (collect env (_active_profilers self) [] calls) as [[t | fs] c1]
    eqn:Hc; [ | discriminate ].
  intro H. injection H as He Hs Hc'. subst e self' calls'.
  split; [reflexivity | split; [ | split ]].
  - destruct (_active_profilers self); [discriminate Hc | discriminate].
  - exists t. reflexivity.
  - apply collect_calls in Hc. destruct Hc as (called & -> & _).
    exists called. reflexivity.
Qed.

Lemma WillCloseBrowser_inv (self : Controller) (b : BrowserBackend)
      (calls : list Call) :
  controller_of (WillCloseBrowser env self b calls) = self /\
  exists told,
    calls_of (WillCloseBrowser env self b calls)
    = (calls ++ map (fun c => CallWillCloseBrowser c b) told)%list.
Proof.
  unfold WillCloseBrowser.
  destruct (notify env (map fst (_profilers_states self)) b calls)
    as [[t | ] c1] eqn:Hn;
    apply notify_calls in Hn; destruct Hn as (told & -> & _);
    (split; [reflexivity | exists told; reflexivity]).
Qed.

Lemma well_formed_init : well_formed __init__.
Proof.
  unfold well_formed, __init__. simpl.
  repeat split; try constructor. lia.
Qed.

Lemma step_well_formed (op : Op) (self self' : Controller)
      (calls calls' : list Call) :
  well_formed self ->
  step env op self calls = (self', calls') ->
  well_formed self'.
Proof.
  intros (Hlen & Hk & Hv & Hact) H. destruct op as [n f | | b | ];
    cbn [step] in H.
  - destruct (Start env self n f calls) as [[] s1 c1 | e s1 c1] eqn:Hs;
      cbn [controller_of calls_of] in H; inversion H; subst; clear H.
    + apply Start_Returns in Hs.
      destruct Hs as (b & c & st & Ha & _ & _ & _ & Hst & Hg & Ha' & _).
      destruct (@registered_NoDup _ c Hk Hv) as [Hk' Hv'].
      unfold well_formed. rewrite Ha', Hst. repeat split; try assumption.
      * simpl. lia.
      * constructor; [ | constructor ]. rewrite <- Hst. exact Hg.
    + apply Start_Raises in Hs.
      destruct Hs as [(_ & _ & -> & _)
                     | [(_ & _ & _ & -> & _)
                       | [(_ & -> & _)
                         | (Ha & t & c & p & _ & Ha' & Hst & _)]]];
        try (repeat split; assumption).
      destruct (@registered_NoDup _ c Hk Hv) as [Hk' Hv'].
      unfold well_formed. rewrite Ha', Hst. repeat split; try assumption.
      * simpl. lia.
      * constructor.
  - destruct (Stop env self calls) as [fs s1 c1 | e s1 c1] eqn:Hs;
      cbn [controller_of calls_of] in H; inversion H; subst; clear H.
    + apply Stop_Returns in Hs. destruct Hs as (Ha & Hst & _).
      unfold well_formed. rewrite Ha, Hst. repeat split; try assumption.
      * simpl. lia.
      * constructor.
    + apply Stop_Raises in Hs. destruct Hs as (-> & _).
      repeat split; assumption.
  - destruct (WillCloseBrowser_inv self b calls) as [Hself _].
    inversion H; subst. rewrite Hself. repeat split; assumption.
  - inversion H; subst. repeat split; assumption.
Qed.

Lemma run_well_formed (ops : list Op) :
  forall self calls self' calls',
    well_formed self ->
    run env ops self calls = (self', calls') ->
    well_formed self'.
Proof.
  induction ops as [ | op ops IH]; intros self calls self' calls' Hwf H;
    cbn [run] in H.
  - inversion H; subst. exact Hwf.
  - destruct (step env op self calls) as [s1 c1] eqn:Hs.
    eapply IH; [ | exact H ]. eapply step_well_formed; eassumption.
Qed.

(** X15.  However the methods of a controller are called, and whatever
    the collaborators answer or raise, at most one profiler is active at
    any time; no profiler class is registered twice in the dictionary of
    states, no two classes have the same state dictionary, and an active
    profiler was given the state dictionary registered for its class. *)
Theorem at_most_one_profiler_is_active
        (ops : list Op) (calls0 : list Call)
        (self : Controller) (calls : list Call) :
  run env ops __init__ calls0 = (self, calls) ->
  List.length (_active_profilers self) <= 1 /\
  NoDup (map fst (_profilers_states self)) /\
  NoDup (map snd (_profilers_states self)) /\
  (forall p, In p (_active_profilers self) ->
             dict_get (_profilers_states self) (profiler_class p)
             = Some (state p)).
Proof.
  intro H. apply run_well_formed in H; [ | apply well_formed_init ].
  destruct H as (Hlen & Hk & Hv & Hact).
  repeat split; try assumption.
  intros p Hp. rewrite Forall_forall in Hact. apply Hact. exact Hp.
Qed.


Lemma constructed_app (calls added : list Call) (p : Profiler) :
  constructed (calls ++ added)%list p <->
  constructed calls p \/ In (CallNew p) added.
Proof. unfold constructed. apply in_app_iff. Qed.

Lemma tracked_more_calls (self : Controller) (calls added : list Call) :
  (forall p, ~ In (CallNew p) added) ->
  tracked self calls -> tracked self (calls ++ added)%list.
Proof.
  intros Hadd [H1 H2]. split.
  - intros p Hp. apply constructed_app in Hp.
    destruct Hp as [Hp | Hp]; [apply H1; exact Hp | destruct (Hadd p Hp)].
  - intros c Hc. destruct (H2 c Hc) as (p & Hp & Hpc).
    exists p. split; [ | exact Hpc ]. apply constructed_app. left. exact Hp.
Qed.

(** Registering the class of a profiler and constructing the profiler. *)
Lemma tracked_constructed (self self' : Controller) (calls added : list Call)
      (p : Profiler) :
  (forall q, ~ In (CallNew q) added) ->
  _profilers_states self'
  = registered (_profilers_states self) (profiler_class p) ->
  dict_get (_profilers_states self') (profiler_class p) = Some (state p) ->
  tracked self calls ->
  tracked self' (calls ++ added ++ [CallNew p])%list.
Proof.
  intros Hadd Hst Hg [H1 H2]. split.
  - intros q Hq. apply constructed_app in Hq.
    destruct Hq as [Hq | Hq].
    + rewrite Hst. apply registered_keeps. apply H1. exact Hq.
    + apply in_app_or in Hq. destruct Hq as [Hq | [Hq | []]].
      * destruct (Hadd q Hq).
      * inversion Hq; subst q. exact Hg.
  - intros c Hc. rewrite Hst in Hc. apply registered_keys in Hc.
    destruct Hc as [Hc | ->].
    + destruct (H2 c Hc) as (q & Hq & Hqc). exists q.
      split; [ | exact Hqc ]. apply constructed_app. left. exact Hq.
    + exists p. split; [ | reflexivity ]. apply constructed_app. right.
      apply in_or_app. right. left. reflexivity.
Qed.

Lemma no_CallNew_in_map (A : Type) (f : A -> Call) (l : list A) :
  (forall a p, f a <> CallNew p) ->
  forall p, ~ In (CallNew p) (map f l).
Proof.
  intros Hf p H. apply in_map_iff in H. destruct H as (a & Ha & _).
  exact (Hf a p Ha).
Qed.

Lemma step_tracked (op : Op) (self self' : Controller)
      (calls calls' : list Call) :
  tracked self calls ->
  step env op self calls = (self', calls') ->
  tracked self' calls'.
Proof.
  intros Ht H. destruct op as [n f | | b | ]; cbn [step] in H.
  - destruct (Start env self n f calls) as [[] s1 c1 | e s1 c1] eqn:Hs;
      cbn [controller_of calls_of] in H; inversion H; subst; clear H.
    + apply Start_Returns in Hs.
      destruct Hs as (b & c & st & _ & _ & _ & _ & Hst & Hg & _ & ->).
      apply (@tracked_constructed self self' calls
               [CallFindProfiler n; CallIsSupported c (browser_type b)]
               {| profiler_class := c; profiler_browser_backend := b;
                  base_output_file := f; state := st |}).
      * intros q [Hq | [Hq | []]]; discriminate.
      * exact Hst.
      * exact Hg.
      * exact Ht.
    + apply Start_Raises in Hs.
      destruct Hs as [(_ & _ & -> & ->)
                     | [(_ & _ & _ & -> & ->)
                       | [(_ & -> & _ & added & -> & Hadd)
                         | (_ & t & c & p & _ & _ & Hst & Hc & Hg
                            & added & -> & Hadd)]]];
        try exact Ht.
      * apply tracked_more_calls; assumption.
      * subst c. apply tracked_constructed with (self := self); assumption.
  - destruct (Stop env self calls) as [fs s1 c1 | e s1 c1] eqn:Hs;
      cbn [controller_of calls_of] in H; inversion H; subst; clear H.
    + apply Stop_Returns in Hs. destruct Hs as (_ & Hst & ->).
      assert (Ht' : tracked self
                      (calls ++ map CallCollectProfile
                                    (_active_profilers self))%list).
      { apply tracked_more_calls; [ | exact Ht ].
        apply no_CallNew_in_map. discriminate. }
      destruct Ht' as [H1 H2]. split; rewrite Hst; assumption.
    + apply Stop_Raises in Hs. destruct Hs as (-> & _ & _ & called & ->).
      apply tracked_more_calls; [ | exact Ht ].
      apply no_CallNew_in_map. discriminate.
  - destruct (WillCloseBrowser_inv self b calls) as [Hself [told Hcalls]].
    inversion H; subst. rewrite Hself, Hcalls.
    apply tracked_more_calls; [ | exact Ht ].
    apply no_CallNew_in_map. discriminate.
  - inversion H; subst. apply tracked_more_calls; [ | exact Ht ].
    intros p [Hp | []]. discriminate.
Qed.

Lemma run_tracked (ops : list Op) :
  forall self calls self' calls',
    tracked self calls ->
    run env ops self calls = (self', calls') ->
    tracked self' calls'.
Proof.
  induction ops as [ | op ops IH]; intros self calls self' calls' Ht H;
    cbn [run] in H.
  - inversion H; subst. exact Ht.
  - destruct (step env op self calls) as [s1 c1] eqn:Hs.
    eapply IH; [ | exact H ]. eapply step_tracked; eassumption.
Qed.

Lemma tracked_init : tracked __init__ [].
Proof. split; [intros p [] | intros c []]. Qed.

Lemma NoDup_snd_inj (d : list (ProfilerClass * StateRef))
      (k1 k2 : ProfilerClass) (v : StateRef) :
  NoDup (map snd d) -> In (k1, v) d -> In (k2, v) d -> k1 = k2.
Proof.
  induction d as [ | [k w] d IH]; simpl; [intros _ [] | ].
  intros Hn H1 H2. inversion Hn as [ | x l Hx Hn']; subst.
  destruct H1 as [H1 | H1]; destruct H2 as [H2 | H2].
  - congruence.
  - inversion H1; subst. exfalso. apply Hx.
    apply in_map_iff. exists (k2, v). split; [reflexivity | exact H2].
  - inversion H2; subst. exfalso. apply Hx.
    apply in_map_iff. exists (k1, v). split; [reflexivity | exact H1].
  - apply IH; assumption.
Qed.

(** X16.  Over the life of a controller, the profilers of one class are
    all constructed with the same state dictionary, and profilers of
    different classes with different ones, however often profiling is
    started and stopped in between. *)
Theorem state_is_shared_per_class
        (ops : list Op) (self : Controller) (calls : list Call) :
  run env ops __init__ [] = (self, calls) ->
  forall p q,
    constructed calls p -> constructed calls q ->
    (profiler_class p = profiler_class q <-> state p = state q).
Proof.
  intros H p q Hp Hq.
  pose proof H as Hw. apply run_well_formed in Hw;
    [ | apply well_formed_init ].
  destruct Hw as (_ & _ & Hv & _).
  pose proof H as Ht. apply run_tracked in Ht; [ | apply tracked_init ].
  destruct Ht as [H1 _].
  pose proof (H1 p Hp) as Gp. pose proof (H1 q Hq) as Gq.
  split.
  - intro Hc. rewrite Hc in Gp. congruence.
  - intro Hs. rewrite Hs in Gp.
    apply dict_get_In in Gp. apply dict_get_In in Gq.
    eapply NoDup_snd_inj; eassumption.
Qed.

(** X17.  Stop collects the profile of each active profiler and then has
    none active; with one active profiler what it returns is what that
    profiler's CollectProfile returned.  When CollectProfile raises, Stop
    raises before it clears the list: the controller is exactly as
    before, its profilers still count as active, and every later Start
    is refused with AssertionError. *)
Theorem failed_Stop_keeps_profiling (self : Controller) (calls : list Call) :
  (forall output_files self' calls',
      Stop env self calls = Returns output_files self' calls' ->
      _active_profilers self' = [] /\
      _profilers_states self' = _profilers_states self /\
      calls'
      = (calls ++ map CallCollectProfile (_active_profilers self))%list /\
      (_active_profilers self = [] -> output_files = []) /\
      (forall p, _active_profilers self = [p] ->
                 CollectProfile env calls p = inr output_files)) /\
  (forall e self' calls',
      Stop env self calls = Raises e self' calls' ->
      self' = self /\ _active_profilers self <> [] /\
      (exists tag, e = Foreign tag) /\
      forall profiler_name file calls'',
        Start env self' profiler_name file calls''
        = Raises AssertionError self' calls'').
Proof.
  split.
  - intros output_files self' calls' H.
    pose proof H as Hr. apply Stop_Returns in Hr.
    destruct Hr as (Ha & Hst & Hc).
    repeat split; try assumption.
    + intro He. unfold Stop in H. rewrite He in H. simpl in H.
      inversion H. reflexivity.
    + intros p Hp. unfold Stop in H. rewrite Hp in H. simpl in H.
      destruct (CollectProfile env calls p) as [t | files];
        [discriminate | ].
      inversion H. reflexivity.
  - intros e self' calls' H.
    apply Stop_Raises in H. destruct H as (-> & Ha & He & _).
    repeat split; try assumption.
    intros profiler_name file calls''. unfold Start.
    destruct (_active_profilers self); [contradiction | reflexivity].
Qed.

(** X18.  WillCloseBrowser never changes the controller.  When it
    returns, it has called the class method WillCloseBrowser once for
    every profiler class the controller has ever constructed a profiler
    of (or tried to), whether or not a profiler is active, and has made
    no other call; it raises only what such a class method raises. *)
Theorem WillCloseBrowser_tells_every_class
        (ops : list Op) (self : Controller) (calls : list Call)
        (browser_backend : BrowserBackend) :
  run env ops __init__ [] = (self, calls) ->
  controller_of (WillCloseBrowser env self browser_backend calls) = self /\
  (forall self' calls',
      WillCloseBrowser env self browser_backend calls
      = Returns tt self' calls' ->
      exists told,
        calls'
        = (calls
           ++ map (fun c => CallWillCloseBrowser c browser_backend) told)%list
        /\ NoDup told /\
        forall c,
          In c told <->
          exists p, constructed calls p /\ profiler_class p = c) /\
  (forall e self' calls',
      WillCloseBrowser env self browser_backend calls
      = Raises e self' calls' ->
      exists tag, e = Foreign tag).
Proof.
  intro H.
  pose proof H as Hw. apply run_well_formed in Hw;
    [ | apply well_formed_init ].
  destruct Hw as (_ & Hk & _ & _).
  pose proof H as Ht. apply run_tracked in Ht; [ | apply tracked_init ].
  destruct Ht as [H1 H2].
  split; [apply WillCloseBrowser_inv | split ].
  - intros self' calls'. unfold WillCloseBrowser.
    destruct (notify env (map fst (_profilers_states self))
                     browser_backend calls) as [[t | ] c1] eqn:Hn;
      [discriminate | ].
    intro Hr. inversion Hr; subst. clear Hr.
    apply notify_calls in Hn. destruct Hn as (told & -> & ->).
    exists (map fst (_profilers_states self')).
    split; [reflexivity | split; [exact Hk | ]].
    intro c. split; [apply H2 | ].
    intros (p & Hp & <-). apply H1 in Hp. apply dict_get_In in Hp.
    apply in_map_iff. exists (profiler_class p, state p).
    split; [reflexivity | exact Hp].
  - intros e self' calls'. unfold WillCloseBrowser.
    destruct (notify env (map fst (_profilers_states self))
                     browser_backend calls) as [[t | ] c1];
      [ | discriminate ].
    intro Hr. inversion Hr. exists t. reflexivity.
Qed.

End ProfilingFacts.

Lemma at_most_one_profiler_is_active_witness :
  let self :=
    fst (Profiling.run Profiling.demo Profiling.session
                       Profiling.__init__ []) in
  List.length (Profiling._active_profilers self) <= 1 /\
  NoDup (map fst (Profiling._profilers_states self)) /\
  NoDup (map snd (Profiling._profilers_states self)) /\
  (forall p, In p (Profiling._active_profilers self) ->
             Profiling.dict_get (Profiling._profilers_states self)
                                (Profiling.profiler_class p)
             = Some (Profiling.state p)).
Proof.
  apply (@at_most_one_profiler_is_active
           Profiling.demo Profiling.session []
           (fst (Profiling.run Profiling.demo Profiling.session
                               Profiling.__init__ []))
           (snd (Profiling.run Profiling.demo Profiling.session
                               Profiling.__init__ []))).
  vm_compute. reflexivity.
Defined.

Lemma state_is_shared_per_class_witness :
  let earlier :=
    {| Profiling.profiler_class := 7;
       Profiling.profiler_browser_backend := Profiling.the_browser;
       Profiling.base_output_file := "/tmp/first";
       Profiling.state := 1 |} in
  let later :=
    {| Profiling.profiler_class := 7;
       Profiling.profiler_browser_backend := Profiling.the_browser;
       Profiling.base_output_file := "/tmp/fourth";
       Profiling.state := 1 |} in
  let calls :=
    snd (Profiling.run Profiling.demo Profiling.session
                       Profiling.__init__ []) in
  Profiling.constructed calls earlier /\
  Profiling.constructed calls later /\
  (Profiling.profiler_class earlier = Profiling.profiler_class later <->
   Profiling.state earlier = Profiling.state later).
Proof.
  intros earlier later calls.
  assert (H1 : Profiling.constructed calls earlier)
    by (vm_compute; repeat (first [left; reflexivity | right])).
  assert (H4 : Profiling.constructed calls later)
    by (vm_compute; repeat (first [left; reflexivity | right])).
  split; [exact H1 | split; [exact H4 | ]].
  apply (@state_is_shared_per_class
           Profiling.demo Profiling.session
           (fst (Profiling.run Profiling.demo Profiling.session
                               Profiling.__init__ []))
           calls ltac:(vm_compute; reflexivity) earlier later H1 H4).
Defined.

Lemma failed_Stop_keeps_profiling_witness :
  let profiling :=
    fst (Profiling.run Profiling.flaky [Profiling.OpStart "perf" "/tmp/p"]
                       Profiling.__init__ []) in
  Profiling.Stop Profiling.flaky profiling [] =
  Profiling.Raises (Profiling.Foreign 1) profiling
                   [Profiling.CallCollectProfile
                      {| Profiling.profiler_class := 7;
                         Profiling.profiler_browser_backend :=
                           Profiling.the_browser;
                         Profiling.base_output_file := "/tmp/p";
                         Profiling.state := 1 |}] /\
  Profiling.Start Profiling.flaky profiling "perf" "/tmp/q" []
  = Profiling.Raises Profiling.AssertionError profiling [].
Proof.
  split; [vm_compute; reflexivity | ].
  refine (proj2 (proj2 (proj2
            (proj2 (@failed_Stop_keeps_profiling Profiling.flaky
                      (fst (Profiling.run Profiling.flaky
                              [Profiling.OpStart "perf" "/tmp/p"]
                              Profiling.__init__ [])) [])
                   (Profiling.Foreign 1) _ _ _))) "perf" "/tmp/q" []).
  vm_compute. reflexivity.
Defined.

Lemma WillCloseBrowser_tells_every_class_witness :
  let end_ :=
    Profiling.run Profiling.demo
                  [Profiling.OpStart "perf" "/tmp/first"; Profiling.OpStop]
                  Profiling.__init__ [] in
  let closing :=
    Profiling.WillCloseBrowser Profiling.demo (fst end_)
                               Profiling.the_browser (snd end_) in
  exists told,
    Profiling.calls_of closing
    = (snd end_
       ++ map (fun c => Profiling.CallWillCloseBrowser
                          c Profiling.the_browser) told)%list
    /\ NoDup told /\
    forall c,
      In c told <->
      exists p, Profiling.constructed (snd end_) p /\
                Profiling.profiler_class p = c.
Proof.
  intros end_ closing.
  apply (proj1 (proj2 (@WillCloseBrowser_tells_every_class
                         Profiling.demo
                         [Profiling.OpStart "perf" "/tmp/first";
                          Profiling.OpStop]
                         (fst end_) (snd end_) Profiling.the_browser
                         ltac:(vm_compute; reflexivity)))
               (Profiling.controller_of closing)
               (Profiling.calls_of closing)).
  vm_compute. reflexivity.
Defined.

(* ------------------------------------------------------------------ *)
(** * The contract of CompleteAtLeastOneTest *)

Section Contract.
Variable env : Env.

(** The only exception of the poll loop is the failure of its guard. *)
Let guard_only {A} (m : M A) : Prop :=
  forall w, fails_within (fun e => e = AssertionError) m w.

Lemma guard_only_bind {A B} (m : M A) (k : A -> M B) :
  guard_only m -> (forall a, guard_only (k a)) -> guard_only (bind m k).
Proof.
  intros Hm Hk w. apply fails_within_bind; [apply Hm | ].
  intros a w1 _. apply Hk.
Qed.

Lemma guard_only_ret {A} (a : A) : guard_only (ret a).
Proof. intros w e w' H. discriminate. Qed.

Lemma guard_only_check_test (now : Z) (test : Test) :
  guard_only (check_test env now test).
Proof.
  intros w e w' H. unfold check_test, bind, proc_poll in H.
  destruct (poll_status env w (proc test)); [discriminate | ].
  destruct (terminate_timeout test <? now)%Z;
    [ | destruct (kill_timeout test <? now)%Z ]; discriminate.
Qed.

Lemma guard_only_check_tests (now : Z) (executing_tests : Executing) :
  forall finished_tests,
    guard_only (check_tests env now executing_tests finished_tests).
Proof.
  induction executing_tests as [ | [key test] rest IH]; intro fin; simpl.
  - apply guard_only_ret.
  - apply guard_only_bind; [apply guard_only_check_test | ].
    intros [test' done].
    apply guard_only_bind; [apply IH | intros [rest' fin'] ].
    apply guard_only_ret.
Qed.

Lemma guard_only_poll_loop (fuel : nat) (busy_loop_timeout : Z) :
  forall executing_tests finished_tests,
    guard_only (poll_loop env fuel busy_loop_timeout executing_tests
                          finished_tests).
Proof.
  induction fuel as [ | fuel IH]; intros ex fin; simpl;
    destruct (List.length fin =? 0)%nat;
    try apply guard_only_ret;
    try (intros w e w' H; discriminate).
  apply guard_only_bind; [intros w e w' H; discriminate | intro t].
  apply guard_only_bind.
  { intros w e w' H. unfold assert_ in H.
    destruct (busy_loop_timeout >? t)%Z; [discriminate | ].
    inversion H. reflexivity. }
  intro u.
  apply guard_only_bind; [intros w e w' H; discriminate | intro now].
  apply guard_only_bind; [apply guard_only_check_tests | ].
  intros [ex1 fin1]. apply IH.
Qed.

(** X19.  The contract of CompleteAtLeastOneTest for a dictionary that
    holds each test under its own name.  When it returns, it returns at
    least one test; every test it returns has its exit status recorded
    and has been removed from the dictionary, no test twice; the names of
    the tests returned and of the tests left in the dictionary are,
    together, the names that were in the dictionary; the dictionary still
    holds each test under its own name; nothing has been written to the
    result file and no process has been started.  The only exception it
    raises is the AssertionError of the guard against a dead loop; in
    particular the deletion of a finished test never raises KeyError. *)
Theorem CompleteAtLeastOneTest_contract
        (fuel : nat) (executing_tests : Executing) (w : World) :
  well_keyed executing_tests ->
  (forall executing_tests' done w',
      CompleteAtLeastOneTest env fuel executing_tests w
      = Ok (executing_tests', done) w' ->
      done <> [] /\
      Forall (fun test => returncode (proc test) <> None) done /\
      NoDup (map test_name done) /\
      Permutation (map test_name done ++ keys executing_tests')
                  (keys executing_tests) /\
      well_keyed executing_tests' /\
      resultfile w' = resultfile w /\
      spawned w' = spawned w) /\
  (forall e w',
      CompleteAtLeastOneTest env fuel executing_tests w = Raise e w' ->
      e = AssertionError).
Proof.
  intro Hwk. split.
  - intros ex' done w' H.
    pose proof H as Hok. apply CompleteAtLeastOneTest_Ok in Hok.
    destruct Hok as (_ & Hfile & Hne).
    pose proof H as Hnames. apply CompleteAtLeastOneTest_names in Hnames.
    pose proof (proj2 (@CompleteAtLeastOneTest_safe env fuel executing_tests
                         w Hwk) ex' done w' H) as Hwk'.
    pose proof (spawnless_CompleteAtLeastOneTest env fuel executing_tests w)
      as Hsp.
    rewrite H in Hsp. simpl in Hsp.
    assert (Hrc : Forall (fun test => returncode (proc test) <> None) done).
    { pose proof H as Hk.
      eapply CompleteAtLeastOneTest_keeps
        with (P := fun _ => True)
             (F := fun test => returncode (proc test) <> None) in Hk.
      - exact (proj2 Hk).
      - intros; exact I.
      - intros; exact I.
      - intros now rc t _. simpl. discriminate.
      - apply Forall_forall. intros; exact I. }
    assert (Hnd : NoDup (map test_name done)).
    { unfold CompleteAtLeastOneTest in H.
      apply bind_Ok in H. destruct H as [t [w1 [_ H]]].
      apply bind_Ok in H. destruct H as [[ex1 fin1] [w2 [H2 H]]].
      apply bind_Ok in H. destruct H as [ex2 [w3 [H3 H]]].
      apply ret_Ok in H. destruct H as [H _]. inversion H; subst.
      apply poll_loop_finished in H2; [ | exact Hwk].
      exact (proj1 (proj2 H2)). }
    split; [exact Hne | split; [exact Hrc | split; [exact Hnd | ]]].
    split; [exact Hnames | split; [exact Hwk' | ]].
    split; [exact Hfile | exact Hsp].
  - intros e w' H. unfold CompleteAtLeastOneTest in H.
    revert e w' H.
    change (fails_within (fun e => e = AssertionError)
              (t <- time_time env ;;
               ' (ex1, fin1) <-
                 poll_loop env fuel (t + BUSY_LOOP_MAX_TIME_SEC)%Z
                           executing_tests [] ;;
               ex2 <- del_finished fin1 ex1 ;;
               ret (ex2, fin1)) w).
    apply fails_within_bind; [intros e w' H; discriminate | ].
    intros t w1 _.
    apply fails_within_bind; [apply guard_only_poll_loop | ].
    intros [ex1 fin1] w2 H2.
    apply poll_loop_finished in H2; [ | exact Hwk].
    destruct H2 as [_ [Hnd Hincl]].
    destruct (@del_finished_succeeds fin1 ex1 Hnd Hincl) as [ex2 Hdel].
    intros e w' H. unfold bind in H. rewrite Hdel in H. discriminate.
Qed.

End Contract.

Lemma CompleteAtLeastOneTest_contract_witness :
  let env := Demo.env_of Demo.passing in
  let w0 := Demo.world_at_launch Demo.passing in
  exists test w1,
    StartTest env "base/bind_unittest.nc" "-Wall"
              (sanity_config "NoCompileBindUnittest") w0 = Ok test w1 /\
    exists executing_tests' done w',
      CompleteAtLeastOneTest env 100 [(test_name test, test)] w1
      = Ok (executing_tests', done) w' /\
      done <> [] /\
      Forall (fun test => returncode (proc test) <> None) done /\
      NoDup (map test_name done) /\
      Permutation (map test_name done ++ keys executing_tests')
                  (keys [(test_name test, test)]) /\
      well_keyed executing_tests' /\
      resultfile w' = resultfile w1 /\
      spawned w' = spawned w1.
Proof.
  intros env w0.
  eexists. eexists. split; [vm_compute; reflexivity | ].
  eexists. eexists. eexists. split; [vm_compute; reflexivity | ].
  lazymatch goal with
  | |- _ /\ _ /\ _ /\ Permutation (_ ++ keys ?ex') (keys ?ex) /\ _ /\
       resultfile ?w' = resultfile ?w1 /\ _ =>
      apply (proj1 (@CompleteAtLeastOneTest_contract
                      env 100 ex w1
                      ltac:(split; repeat constructor; intros []))
                   ex' _ w');
      vm_compute; reflexivity
  end.
Defined.

(* ------------------------------------------------------------------ *)
(** * The escalation loop, pass by pass *)

Section EscalationPass.
Variable env : Env.

(** Whether a child has exited depends on the clock readings so far, not
    on the signals sent. *)
Lemma poll_status_ticks (w w1 : World) (p : Popen) :
  ticks w1 = ticks w -> poll_status env w1 p = poll_status env w p.
Proof. intro H. unfold poll_status. rewrite H. reflexivity. Qed.

Lemma deadlines_set_finished (now rc : Z) (test : Test) :
  deadlines_set test -> deadlines_set (set_finished now rc test).
Proof. intro H. exact H. Qed.

Lemma deadlines_set_aborted (now : Z) (test : Test) :
  deadlines_set test -> deadlines_set (set_aborted now test).
Proof. intro H. exact H. Qed.

(** The body of the pass for one test. *)
Lemma check_test_pass (now : Z) (test : Test) (w : World) :
  exists test' done w' added,
    check_test env now test w = Ok (test', done) w' /\
    ticks w' = ticks w /\
    signals w' = (signals w ++ added)%list /\
    (forall rc,
        poll_status env w (proc test) = Some rc ->
        test' = set_finished now rc test /\ done = true) /\
    (alive env w test -> done = false) /\
    (alive env w test -> (terminate_timeout test < now)%Z ->
     test' = set_aborted now test /\
     added = [signal_at SIGTERM now test]) /\
    Forall (fun s =>
              alive env w test /\
              s = signal_at (sent_signal s) now test /\
              (sent_signal s = SIGKILL -> (kill_timeout test < now)%Z))
           added /\
    (deadlines_set test -> deadlines_set test').
Proof.
  unfold check_test, bind, proc_poll, alive.
  destruct (poll_status env w (proc test)) as [rc | ] eqn:Hp.
  - exists (set_finished now rc test), true, w, [].
    split; [reflexivity | split; [reflexivity | split ]].
    { rewrite app_nil_r. reflexivity. }
    split; [intros rc' H; inversion H; subst; split; reflexivity | ].
    split; [discriminate | split; [discriminate | split ]].
    + constructor.
    + apply deadlines_set_finished.
  - destruct (terminate_timeout test <? now)%Z eqn:Hterm.
    + eexists (set_aborted now test), false, _, [signal_at SIGTERM now test].
      split; [reflexivity | split; [reflexivity | split; [reflexivity | ]]].
      split; [discriminate | split; [reflexivity | split ]].
      { intros _ _. split; reflexivity. }
      split; [ | apply deadlines_set_aborted ].
      constructor; [ | constructor ].
      split; [reflexivity | split; [reflexivity | discriminate ]].
    + destruct (kill_timeout test <? now)%Z eqn:Hkill.
      * eexists (set_aborted now test), false, _,
          [signal_at SIGKILL now test].
        split; [reflexivity | split; [reflexivity | split; [reflexivity | ]]].
        split; [discriminate | split; [reflexivity | split ]].
        { intros _ H. apply Z.ltb_ge in Hterm. lia. }
        split; [ | apply deadlines_set_aborted ].
        constructor; [ | constructor ].
        split; [reflexivity | split; [reflexivity | ]].
        intros _. apply Z.ltb_lt. exact Hkill.
      * exists test, false, w, [].
        split; [reflexivity | split; [reflexivity | split ]].
        { rewrite app_nil_r. reflexivity. }
        split; [discriminate | split; [reflexivity | split ]].
        { intros _ H. apply Z.ltb_ge in Hterm. lia. }
        split; [constructor | trivial].
Qed.

(** One pass over the dictionary: it always completes, reads no clock,
    and treats every test of the dictionary. *)
Lemma check_tests_pass (now : Z) (executing_tests : Executing) :
  forall finished_tests w,
    exists executing_tests' finished_tests' w' added,
      check_tests env now executing_tests finished_tests w
      = Ok (executing_tests', finished_tests') w' /\
      ticks w' = ticks w /\
      signals w' = (signals w ++ added)%list /\
      incl finished_tests finished_tests' /\
      (all_deadlines_set executing_tests ->
       all_deadlines_set executing_tests') /\
      (forall key test,
          In (key, test) executing_tests ->
          alive env w test -> (terminate_timeout test < now)%Z ->
          In (signal_at SIGTERM now test) added /\
          In (key, set_aborted now test) executing_tests') /\
      (forall key test rc,
          In (key, test) executing_tests ->
          poll_status env w (proc test) = Some rc ->
          In (key, set_finished now rc test) executing_tests' /\
          In (set_finished now rc test) finished_tests') /\
      Forall (fun s =>
                exists key test,
                  In (key, test) executing_tests /\
                  alive env w test /\
                  s = signal_at (sent_signal s) now test /\
                  (sent_signal s = SIGKILL -> (kill_timeout test < now)%Z))
             added.
Proof.
  induction executing_tests as [ | [key0 test0] rest IH]; intros fin w.
  - exists [], fin, w, []. simpl.
    split; [reflexivity | split; [reflexivity | split ]].
    { rewrite app_nil_r. reflexivity. }
    split; [apply incl_refl | split; [trivial | ]].
    split; [intros key test [] | split; [intros key test rc [] | ]].
    constructor.
  - destruct (check_test_pass now test0 w)
      as (test' & done & w1 & added1 & H1 & Ht1 & Hs1 & Hfin1 & Hlive1
          & Hterm1 & Hsent1 & Hd1).
    destruct (IH (if done then (fin ++ [test'])%list else fin) w1)
      as (rest' & fin' & w' & added2 & H2 & Ht2 & Hs2 & Hincl2 & Hd2
          & Hterm2 & Hfin2 & Hsent2).
    exists ((key0, test') :: rest'), fin', w', (added1 ++ added2)%list.
    split.
    { cbn [check_tests]. unfold bind. rewrite H1. cbv beta iota.
      rewrite H2. reflexivity. }
    split; [rewrite Ht2; exact Ht1 | split ].
    { rewrite Hs2, Hs1, app_assoc. reflexivity. }
    split.
    { intros x Hx. apply Hincl2. destruct done; [ | exact Hx ].
      apply in_or_app. left. exact Hx. }
    split.
    { intro Hall. inversion Hall as [ | x l Hx Hl]; subst.
      constructor; [apply Hd1; exact Hx | apply Hd2; exact Hl]. }
    split.
    { intros key test [Hin | Hin] Hlive Hterm.
      - inversion Hin; subst key0 test0.
        destruct (Hterm1 Hlive Hterm) as [-> ->].
        split; [apply in_or_app; left; left; reflexivity | ].
        left. reflexivity.
      - assert (Hlive1' : alive env w1 test).
        { unfold alive. rewrite (@poll_status_ticks w w1 (proc test) Ht1). exact Hlive. }
        destruct (Hterm2 key test Hin Hlive1' Hterm) as [Hs Hex].
        split; [apply in_or_app; right; exact Hs | right; exact Hex]. }
    split.
    { intros key test rc [Hin | Hin] Hp.
      - inversion Hin; subst key0 test0.
        destruct (Hfin1 rc Hp) as [-> ->].
        split; [left; reflexivity | ].
        apply Hincl2. apply in_or_app. right. left. reflexivity.
      - rewrite <- (@poll_status_ticks w w1 (proc test) Ht1) in Hp.
        destruct (Hfin2 key test rc Hin Hp) as [Hex Hf].
        split; [right; exact Hex | exact Hf]. }
    apply Forall_app. split.
    + eapply Forall_impl; [ | exact Hsent1 ].
      intros s (Hlive & Hs & Hk). exists key0, test0.
      split; [left; reflexivity | split; [exact Hlive | split; assumption]].
    + eapply Forall_impl; [ | exact Hsent2 ].
      intros s (key & test & Hin & Hlive & Hs & Hk). exists key, test.
      split; [right; exact Hin | split; [ | split; assumption ]].
      unfold alive in *.
      rewrite <- (@poll_status_ticks w w1 (proc test) Ht1). exact Hlive.
Qed.

End EscalationPass.

(** C3 (as amended).  The escalation loop, pass by pass.

    Every invocation has the deadlines start + 60 and start + 62 from the
    moment it is started, with abortedAt 0, and keeps them in the
    dictionary of the tests in flight through every step of the
    scheduler, aborted or not.  The loop of CompleteAtLeastOneTest is a
    sequence of passes: each reads the clock and treats every test of the
    dictionary as the pass before left it.  A pass always completes.  In
    it every test whose child has exited is marked finished and moved to
    the finished tests; every test whose child is still alive after its
    terminate deadline and not after its kill deadline is sent the
    terminate signal and has abortedAt set to the time of the pass,
    whatever abortedAt was before, so that both happen again on the next
    such pass; and a kill signal is sent only to a child that is still
    alive after its kill deadline. *)
Theorem escalation_pass :
  forall (env : Env),
    (forall sourcefile_path cflags config w w' test,
        StartTest env sourcefile_path cflags config w = Ok test w' ->
        deadlines_set test /\ aborted_at test = 0%Z) /\
    (forall fuel parallelism sourcefile_path cflags config
            executing_tests finished_tests executing_tests' finished_tests'
            w w',
        all_deadlines_set executing_tests ->
        Forall deadlines_set finished_tests ->
        schedule env fuel parallelism sourcefile_path cflags config
                 executing_tests finished_tests w
        = Ok (executing_tests', finished_tests') w' ->
        all_deadlines_set executing_tests' /\
        Forall deadlines_set finished_tests') /\
    (forall fuel executing_tests executing_tests' done w w',
        all_deadlines_set executing_tests ->
        CompleteAtLeastOneTest env fuel executing_tests w
        = Ok (executing_tests', done) w' ->
        all_deadlines_set executing_tests' /\ Forall deadlines_set done) /\
    (forall fuel busy_loop_timeout executing_tests,
        poll_loop env (S fuel) busy_loop_timeout executing_tests []
        = (t <- time_time env ;;
           assert_ (busy_loop_timeout >? t)%Z ;;
           now <- time_time env ;;
           ' (executing_tests, finished_tests) <-
             check_tests env now executing_tests [] ;;
           poll_loop env fuel busy_loop_timeout executing_tests
                     finished_tests)) /\
    (forall now executing_tests finished_tests w,
        exists executing_tests' finished_tests' w',
          check_tests env now executing_tests finished_tests w
          = Ok (executing_tests', finished_tests') w' /\
          (all_deadlines_set executing_tests ->
           all_deadlines_set executing_tests') /\
          (forall key test rc,
              In (key, test) executing_tests ->
              poll_status env w (proc test) = Some rc ->
              In (key, set_finished now rc test) executing_tests' /\
              In (set_finished now rc test) finished_tests') /\
          (forall key test,
              In (key, test) executing_tests ->
              alive env w test ->
              (terminate_timeout test < now <= kill_timeout test)%Z ->
              In (signal_at SIGTERM now test) (sent_during w w') /\
              In (key, set_aborted now test) executing_tests' /\
              aborted_at (set_aborted now test) = now) /\
          Forall (fun s =>
                    sent_signal s = SIGKILL ->
                    exists key test,
                      In (key, test) executing_tests /\
                      alive env w test /\
                      s = signal_at SIGKILL now test /\
                      (kill_timeout test < now)%Z)
                 (sent_during w w')).
Proof.
  intro env. split; [ | split; [ | split; [ | split ]]].
  - intros sourcefile_path cflags config w w' test H.
    apply StartTest_deadlines in H. destruct H as (Ht & Hk & Ha).
    split; [split; assumption | exact Ha].
  - intros fuel parallelism sourcefile_path cflags config ex fin ex' fin'
           w w' Hex Hfin H.
    eapply schedule_keeps
      with (C := fun _ => True) (P := deadlines_set) (F := deadlines_set)
      in H.
    + exact H.
    + intros now rc t Ht. exact Ht.
    + intros now t Ht. exact Ht.
    + intros now rc t Ht. exact Ht.
    + intros p c cfg w0 t w1 _ _ Hs.
      apply StartTest_deadlines in Hs. destruct Hs as (Ht & Hk & _).
      split; assumption.
    + exact I.
    + exact Hex.
    + exact Hfin.
  - intros fuel ex ex' done w w' Hex H.
    eapply CompleteAtLeastOneTest_keeps
      with (P := deadlines_set) (F := deadlines_set) in H.
    + exact H.
    + intros now rc t Ht. exact Ht.
    + intros now t Ht. exact Ht.
    + intros now rc t Ht. exact Ht.
    + exact Hex.
  - intros fuel busy_loop_timeout ex. reflexivity.
  - intros now ex fin w.
    destruct (check_tests_pass env now ex fin w)
      as (ex' & fin' & w' & added & H & _ & Hs & _ & Hd & Hterm & Hfin
          & Hsent).
    exists ex', fin', w'.
    assert (Hadded : sent_during w w' = added).
    { unfold sent_during. rewrite Hs. apply skipn_signals. }
    rewrite Hadded.
    split; [exact H | split; [exact Hd | split; [exact Hfin | split ]]].
    + intros key test Hin Hlive [Hlow _].
      destruct (Hterm key test Hin Hlive Hlow) as [H1 H2].
      split; [exact H1 | split; [exact H2 | reflexivity]].
    + eapply Forall_impl; [ | exact Hsent ].
      intros s (key & test & Hin & Hlive & Hsig & Hk) Hkill.
      exists key, test. rewrite Hkill in Hsig.
      split; [exact Hin | split; [exact Hlive | split ]].
      * exact Hsig.
      * apply Hk. exact Hkill.
Qed.

(** The pass of time 63 in the run of [lingering]: the test was aborted
    by the pass of time 62, its child is still alive, and the time is
    after its terminate deadline 61 and not after its kill deadline 63;
    the terminate signal is sent again and abortedAt becomes 63. *)
Lemma escalation_pass_witness :
  aborted_at foo_aborted_once = 62%Z /\
  exists executing_tests' finished_tests' w',
    check_tests (Demo.env_of lingering) 63
                [("NCTEST_FOO", foo_aborted_once)] [] world_at_second_pass
    = Ok (executing_tests', finished_tests') w' /\
    In (signal_at SIGTERM 63 foo_aborted_once)
       (sent_during world_at_second_pass w') /\
    In ("NCTEST_FOO", set_aborted 63 foo_aborted_once) executing_tests' /\
    aborted_at (set_aborted 63 foo_aborted_once) = 63%Z.
Proof.
  split; [reflexivity | ].
  destruct (proj2 (proj2 (proj2 (proj2
              (escalation_pass (Demo.env_of lingering)))))
              63%Z [("NCTEST_FOO", foo_aborted_once)] []
              world_at_second_pass)
    as (ex' & fin' & w' & H & _ & _ & Hterm & _).
  exists ex', fin', w'. split; [exact H | ].
  apply (Hterm "NCTEST_FOO" foo_aborted_once).
  - left. reflexivity.
  - vm_compute. reflexivity.
  - split; [reflexivity | discriminate].
Defined.

(** C3 as stated fails, and within the two deadlines: in the run of
    [lingering] the child of NCTEST_FOO, started at 1, is sent the
    terminate signal at the pass of time 62 and again at the pass of time
    63, both after its terminate deadline 61 and neither after its kill
    deadline 63; abortedAt, set to 62 by the first pass, is set again by
    the second, and the report gives 63. *)
Lemma terminate_is_sent_twice :
  signals (final_world (Demo.run lingering "2")) =
  [ signal_at SIGTERM 62 foo_lingered; signal_at SIGTERM 63 foo_lingered ] /\
  nth_error (Demo.finished lingering 2) 1 = Some foo_lingered /\
  terminate_timeout foo_lingered = 61%Z /\
  kill_timeout foo_lingered = 63%Z /\
  aborted_at foo_lingered = 63%Z /\
  nth_error (resultfile (final_world (Demo.run lingering "2"))) 2 =
  Some (FailEntry "NCTEST_FOO" (TimedOut 1 63) (cmdline foo_lingered)
                  None None).
Proof. repeat split; vm_compute; reflexivity. Qed.
